(** * bsan: state monitors for contract tests

    A shallow embedding of the monitor engine of bsan (src/utils.js,
    src/monitors/monitor.js, src/monitors/ethwallet.js, the erc20 and
    contract monitors and the aggregator of src/monitors/state.js), with
    the properties of its specification stated over it.

    JavaScript values are a small inductive type, thrown errors are the
    [Throw] case of [Outcome], the monitors live in a store indexed by
    references, and the chain is a record of the reads that web3 offers. *)

From Stdlib Require Import ZArith List String Ascii Bool Lia.
From Stdlib Require Import DecimalString HexadecimalString DecimalPos DecimalZ.
Import ListNotations.

Open Scope string_scope.
Open Scope Z_scope.

Set Warnings "-register-all".

(** ** JavaScript values *)

(** The values the monitors handle.  [VNum] is an integral number (a
    JavaScript number holds the safe integers exactly) and [VNaN] the number
    that is not equal to itself.  [VStr] is ASCII text.  [VBN z own] is a
    bn.js instance of numeric value [z]; [own] are its enumerable own
    fields, in the order [Object.keys] lists them.  [VObj props] is a plain
    record with its own fields in [Object.keys] order (each key once);
    inherited members are functions and are not data of this model, and no
    field shadows one of them. *)
Inductive JSValue : Type :=
| VUndefined
| VNull
| VBool (b : bool)
| VNum (n : Z)
| VNaN
| VStr (s : string)
| VBN (z : Z) (own : list (string * JSValue))
| VObj (props : list (string * JSValue)).

(** A thrown error: the constructor name, the message, and the [receipt]
    a failed transaction attaches to it ([VUndefined] when there is none). *)
Record JSError : Type := mkJSError {
  errName : string;
  message : string;
  receipt : JSValue
}.

Definition Error (msg : string) : JSError := mkJSError "Error" msg VUndefined.
Definition TypeError (msg : string) : JSError := mkJSError "TypeError" msg VUndefined.
Definition AssertionError (msg : string) : JSError :=
  mkJSError "AssertionError" msg VUndefined.

(** The result of running a piece of code: a value, or a thrown error. *)
Inductive Outcome (A : Type) : Type :=
| Ret (a : A)
| Throw (e : JSError).
Arguments Ret {A} a.
Arguments Throw {A} e.

Definition bind {A B : Type} (x : Outcome A) (f : A -> Outcome B) : Outcome B :=
  match x with
  | Ret a => f a
  | Throw e => Throw e
  end.

Notation "x <- c1 ;; c2" := (bind c1 (fun x => c2))
  (at level 61, c1 at next level, right associativity).

(** [typeof v] *)
Definition typeof (v : JSValue) : string :=
  match v with
  | VUndefined => "undefined"
  | VNull | VBN _ _ | VObj _ => "object"
  | VBool _ => "boolean"
  | VNum _ | VNaN => "number"
  | VStr _ => "string"
  end.

(** [web3.utils.isBN] *)
Definition isBN (v : JSValue) : bool :=
  match v with
  | VBN _ _ => true
  | _ => false
  end.

(** [a === b] on strings, numbers and booleans of one type. *)
Definition strictEquals (a b : JSValue) : bool :=
  match a, b with
  | VStr s, VStr t => String.eqb s t
  | VNum n, VNum m => Z.eqb n m
  | VBool x, VBool y => Bool.eqb x y
  | _, _ => false
  end.

(** [v == undefined], which null satisfies as well. *)
Definition isNullish (v : JSValue) : bool :=
  match v with
  | VUndefined | VNull => true
  | _ => false
  end.

(** Truthiness, as [if (v)] tests it. *)
Definition truthy (v : JSValue) : bool :=
  match v with
  | VUndefined | VNull | VNaN => false
  | VBool b => b
  | VNum n => negb (Z.eqb n 0)
  | VStr s => negb (String.eqb s EmptyString)
  | VBN _ _ | VObj _ => true
  end.

(** Own-field lookup in a record, [props[key]]. *)
Fixpoint lookup (props : list (string * JSValue)) (key : string) : option JSValue :=
  match props with
  | [] => None
  | (k, v) :: rest => if String.eqb k key then Some v else lookup rest key
  end.

Definition keysOf (props : list (string * JSValue)) : list string := map fst props.

(** [keys.includes(key)] *)
Definition includes (keys : list string) (key : string) : bool :=
  existsb (String.eqb key) keys.

(** [o[key]] where [o] has the own fields [props]. *)
Definition getOwn (props : list (string * JSValue)) (key : string) : JSValue :=
  match lookup props key with
  | Some v => v
  | None => VUndefined
  end.

(** [Object.keys(v)] together with the fields, for a value whose typeof is
    object: null has none and makes [Object.keys] throw. *)
Definition ownFields (v : JSValue) : option (list (string * JSValue)) :=
  match v with
  | VObj props => Some props
  | VBN _ own => Some own
  | _ => None
  end.

(** ** Numbers as text *)

Definition natToString (n : nat) : string :=
  DecimalString.NilZero.string_of_uint (Nat.to_uint n).

(** Base 10 text of an integer, as [String(n)] and bn.js [toString()]. *)
Definition ZToString (z : Z) : string :=
  DecimalString.NilZero.string_of_int (Z.to_int z).

(** Base 16 text of an integer, as bn.js [toString(16)]. *)
Definition ZToHex (z : Z) : string :=
  HexadecimalString.NilZero.string_of_int (Z.to_hex_int z).

(** ** bn.js instances *)

(** The 26-bit limbs of a magnitude, least significant first. *)
Fixpoint limbs (fuel : nat) (n : Z) : list Z :=
  match fuel with
  | O => [n mod 67108864]
  | S fuel' =>
      if Z.eqb (n / 67108864) 0 then [n mod 67108864]
      else (n mod 67108864) :: limbs fuel' (n / 67108864)
  end.

Fixpoint indexed (i : nat) (vs : list JSValue) : list (string * JSValue) :=
  match vs with
  | [] => []
  | v :: rest => (natToString i, v) :: indexed (S i) rest
  end.

(** The own fields of a freshly built bn.js instance: [negative], [words],
    [length] and [red], in that order. *)
Definition bnFields (z : Z) : list (string * JSValue) :=
  let ws := limbs (Z.to_nat (Z.log2 (Z.abs z))) (Z.abs z) in
  [ ("negative", VNum (if Z.ltb z 0 then 1 else 0));
    ("words", VObj (indexed 0 (map VNum ws)));
    ("length", VNum (Z.of_nat (List.length ws)));
    ("red", VNull) ].

(** [new BN(z)] *)
Definition mkBN (z : Z) : JSValue := VBN z (bnFields z).

(** ** Structural equality (src/utils.js, dynamicEquals) *)

(** [["0", "1", "2", "3"].includes(key)] *)
Definition positional (key : string) : bool :=
  includes ["0"; "1"; "2"; "3"] key.

Definition typeMismatchMessage (a b : JSValue) : string :=
  "ContractState: Error asserting state - cannot compare objects of different types ("
    ++ typeof a ++ " != " ++ typeof b ++ ")".

Definition unsupportedMessage (a : JSValue) : string :=
  "ContractState: Error asserting state - unsupported comparison type ("
    ++ typeof a ++ ")".

Definition keysOfNullError : JSError :=
  TypeError "Cannot convert undefined or null to object".

(** [dynamicEquals(a, b)].  The walk visits the fields of [a] in
    [Object.keys(a)] order; every key is listed once, so [a[key]] is the
    field being visited.  The [console.error] line of a failed recursive
    check writes to the log only. *)
Fixpoint dynamicEquals (a b : JSValue) {struct a} : Outcome bool :=
  if negb (String.eqb (typeof a) (typeof b)) then
    Throw (Error (typeMismatchMessage a b))
  else
    let walkFields (fieldsA : list (string * JSValue)) : Outcome bool :=
      match ownFields b with
      | None => Throw keysOfNullError
      | Some fieldsB =>
          if negb (Nat.eqb (List.length fieldsA) (List.length fieldsB)) then Ret false
          else
            (fix walk (entries : list (string * JSValue)) : Outcome bool :=
               match entries with
               | [] => Ret true
               | (key, va) :: rest =>
                   if positional key then walk rest
                   else if negb (includes (keysOf fieldsB) key) then Ret false
                   else
                     match dynamicEquals va (getOwn fieldsB key) with
                     | Ret true => walk rest
                     | Ret false => Ret false
                     | Throw e => Throw e
                     end
               end) fieldsA
      end in
    match a, b with
    | VBN x _, VBN y _ => Ret (Z.eqb x y)
    | VStr _, _ | VNum _, _ | VNaN, _ | VBool _, _ => Ret (strictEquals a b)
    | VObj fieldsA, _ => walkFields fieldsA
    | VBN _ fieldsA, _ => walkFields fieldsA
    | VNull, _ => Throw keysOfNullError
    | VUndefined, _ => Throw (Error (unsupportedMessage a))
    end.

(** The walk of [dynamicEquals] over the fields of [a] that remain, against
    the fields of [b]. *)
Fixpoint walk (fieldsB entries : list (string * JSValue)) : Outcome bool :=
  match entries with
  | [] => Ret true
  | (key, va) :: rest =>
      if positional key then walk fieldsB rest
      else if negb (includes (keysOf fieldsB) key) then Ret false
      else
        match dynamicEquals va (getOwn fieldsB key) with
        | Ret true => walk fieldsB rest
        | Ret false => Ret false
        | Throw e => Throw e
        end
  end.

(** ** Text of values *)

Definition dq : string := String (ascii_of_nat 34) EmptyString.
Definition backslash : string := String (ascii_of_nat 92) EmptyString.
Definition newline : string := String (ascii_of_nat 10) EmptyString.

(** [String(v)], the text a template literal inserts for [v]. *)
Definition toStringJS (v : JSValue) : string :=
  match v with
  | VUndefined => "undefined"
  | VNull => "null"
  | VBool b => if b then "true" else "false"
  | VNum n => ZToString n
  | VNaN => "NaN"
  | VStr s => s
  | VBN z _ => ZToString z
  | VObj _ => "[object Object]"
  end.

Definition hexDigit (n : nat) : string :=
  HexadecimalString.NilZero.string_of_uint (Nat.to_hex_uint n).

(** One character of a JSON string literal. *)
Definition escapeChar (c : ascii) : string :=
  let n := nat_of_ascii c in
  if Nat.eqb n 34 then backslash ++ dq
  else if Nat.eqb n 92 then backslash ++ backslash
  else if Nat.eqb n 8 then backslash ++ "b"
  else if Nat.eqb n 9 then backslash ++ "t"
  else if Nat.eqb n 10 then backslash ++ "n"
  else if Nat.eqb n 12 then backslash ++ "f"
  else if Nat.eqb n 13 then backslash ++ "r"
  else if Nat.ltb n 32 then
    backslash ++ "u00" ++ hexDigit (Nat.div n 16) ++ hexDigit (Nat.modulo n 16)
  else String c EmptyString.

Fixpoint escapeString (s : string) : string :=
  match s with
  | EmptyString => EmptyString
  | String c rest => escapeChar c ++ escapeString rest
  end.

Definition quoteJSON (s : string) : string := dq ++ escapeString s ++ dq.

(** [bn.toJSON()], which bn.js 5 defines as [toString(16, 2)]: the base 16
    digits of the magnitude, with a zero in front when their number is odd,
    and the sign before them. *)
Definition padEven (digits : string) : string :=
  if Nat.even (String.length digits) then digits else String "0" digits.

Definition bnToJSON (z : Z) : string :=
  let digits := padEven (ZToHex (Z.abs z)) in
  if Z.ltb z 0 then String "-" digits else digits.

(** [JSON.stringify(v)]; [None] is the [undefined] it returns for
    [undefined].  A field whose value is [undefined] is left out, NaN is
    written null, and a bn.js instance is written by its [toJSON]. *)
Fixpoint JSONstringify (v : JSValue) : option string :=
  match v with
  | VUndefined => None
  | VNull | VNaN => Some "null"
  | VBool b => Some (if b then "true" else "false")
  | VNum n => Some (ZToString n)
  | VStr s => Some (quoteJSON s)
  | VBN z _ => Some (quoteJSON (bnToJSON z))
  | VObj props =>
      let members :=
        (fix members (entries : list (string * JSValue)) : list string :=
           match entries with
           | [] => []
           | (key, value) :: rest =>
               match JSONstringify value with
               | Some text => (quoteJSON key ++ ":" ++ text) :: members rest
               | None => members rest
               end
           end) props in
      Some ("{" ++ String.concat "," members ++ "}")
  end.

(** The text of [JSON.stringify(v)] inside a template literal. *)
Definition JSONtext (v : JSValue) : string :=
  match JSONstringify v with
  | Some text => text
  | None => "undefined"
  end.

(** [s.toUpperCase()] on the letters a to z. *)
Definition upperChar (c : ascii) : ascii :=
  let n := nat_of_ascii c in
  if andb (Nat.leb 97 n) (Nat.leb n 122) then ascii_of_nat (n - 32) else c.

Definition lowerChar (c : ascii) : ascii :=
  let n := nat_of_ascii c in
  if andb (Nat.leb 65 n) (Nat.leb n 90) then ascii_of_nat (n + 32) else c.

Fixpoint mapString (f : ascii -> ascii) (s : string) : string :=
  match s with
  | EmptyString => EmptyString
  | String c rest => String (f c) (mapString f rest)
  end.

(** [shortenAddress(address)]: [address.slice(-4).toUpperCase()]. *)
Definition shortenAddress (address : string) : string :=
  let n := String.length address in
  mapString upperChar (substring (n - 4) 4 address).

(** [keypath.split(".")] *)
Fixpoint splitDots (s : string) : list string :=
  match s with
  | EmptyString => [EmptyString]
  | String c rest =>
      if Ascii.eqb c "."%char then EmptyString :: splitDots rest
      else
        match splitDots rest with
        | [] => [String c EmptyString]
        | part :: parts => String c part :: parts
        end
  end.

(** ** web3.utils.toBN and asBN *)

Definition isDigit (c : ascii) : bool :=
  let n := nat_of_ascii c in andb (Nat.leb 48 n) (Nat.leb n 57).

Definition isHexLetter (c : ascii) : bool :=
  let n := nat_of_ascii c in andb (Nat.leb 97 n) (Nat.leb n 102).

Fixpoint allChars (p : ascii -> bool) (s : string) : bool :=
  match s with
  | EmptyString => true
  | String c rest => andb (p c) (allChars p rest)
  end.

Definition nonEmpty (s : string) : bool := negb (String.eqb s EmptyString).

(** [/^-?[0-9]+$/] *)
Definition matchesDecimal (s : string) : bool :=
  match s with
  | String "-" rest => andb (nonEmpty rest) (allChars isDigit rest)
  | _ => andb (nonEmpty s) (allChars isDigit s)
  end.

(** [/^[0-9a-f]+$/] on lower-case text *)
Definition matchesHex (s : string) : bool :=
  andb (nonEmpty s) (allChars (fun c => orb (isDigit c) (isHexLetter c)) s).

(** [/^[a-f]+$/] on lower-case text *)
Definition matchesHexLetters (s : string) : bool :=
  andb (nonEmpty s) (allChars isHexLetter s).

Definition stripHexPrefix (s : string) : string :=
  match s with
  | String "0" (String "x" rest) => rest
  | _ => s
  end.

Definition parseDecimal (s : string) : option Z :=
  option_map Z.of_int (DecimalString.NilZero.int_of_string s).

Definition parseHex (s : string) : option Z :=
  option_map Z.of_hex_uint (HexadecimalString.NilZero.uint_of_string s).

(** [s.trim()]: the blanks, tabs and line ends at both ends are dropped. *)
Definition isBlank (c : ascii) : bool :=
  let n := nat_of_ascii c in
  orb (andb (Nat.leb 9 n) (Nat.leb n 13)) (Nat.eqb n 32).

Fixpoint trimStart (s : string) : string :=
  match s with
  | EmptyString => EmptyString
  | String c rest => if isBlank c then trimStart rest else s
  end.

Fixpoint trimEnd (s : string) : string :=
  match s with
  | EmptyString => EmptyString
  | String c rest =>
      match trimEnd rest with
      | EmptyString => if isBlank c then EmptyString else String c EmptyString
      | kept => String c kept
      end
  end.

Definition trim (s : string) : string := trimEnd (trimStart s).

(** The number-to-bn reading of a piece of text,
    [String(arg).toLowerCase().trim()]: base 16 when it is prefixed with 0x
    or has a hexadecimal letter, base 10 otherwise. *)
Definition numberOfText (text : string) : option Z :=
  let formatted := trim (mapString lowerChar text) in
  let isHexPrefixed :=
    orb (prefix "0x" formatted) (prefix "-0x" formatted) in
  let stripped := stripHexPrefix formatted in
  let '(digits, multiplier) :=
    match stripped with
    | String "-" rest => (stripHexPrefix rest, -1)
    | _ => (stripped, 1)
    end in
  let digits := if String.eqb digits EmptyString then "0" else digits in
  if orb (orb (andb (negb (matchesDecimal digits)) (matchesHex digits))
              (matchesHexLetters digits))
         (andb isHexPrefixed (matchesHex digits))
  then option_map (fun n => n * multiplier) (parseHex digits)
  else if andb (matchesDecimal digits) (negb isHexPrefixed)
  then option_map (fun n => n * multiplier) (parseDecimal digits)
  else None.

(** What [web3.utils.toBN] throws: the text of the error of number-to-bn
    followed by the value it was given. *)
Definition givenValue (v : JSValue) : string :=
  " Given value: " ++ dq ++ toStringJS v ++ dq.

Definition toBNError (v : JSValue) : JSError :=
  Error ("Error: [number-to-bn] while converting number " ++ JSONtext v
           ++ " to BN.js instance, error: invalid number value. Value must be an"
           ++ " integer, hex string, BN or BigNumber instance. Note, decimals are"
           ++ " not supported." ++ givenValue v).

(** The integers a JavaScript number holds exactly, up to
    [Number.MAX_SAFE_INTEGER]; [String(n)] is the base 10 text of such a
    number. *)
Definition safeInteger (n : Z) : bool := Z.leb (Z.abs n) 9007199254740991.

(** [web3.utils.toBN(v)].  A string or a number goes through its text; a
    bn.js instance is copied; null fails at [arg.toString], and what is left
    is refused by number-to-bn.  A number is read from [String(n)], which
    is its base 10 text for the safe integers: beyond them the text rounds
    the number, and from 1e21 on it is written with an exponent and
    refused, which this case does not follow. *)
Definition toBN (v : JSValue) : Outcome JSValue :=
  match v with
  | VBN z _ => Ret (mkBN z)
  | VNum n => Ret (mkBN n)
  | VStr s =>
      match numberOfText s with
      | Some n => Ret (mkBN n)
      | None => Throw (toBNError v)
      end
  | VNull =>
      Throw (Error ("TypeError: Cannot read properties of null (reading 'toString')"
                      ++ givenValue v))
  | _ => Throw (toBNError v)
  end.

(** [asBN(num)]: [web3.utils.isBN(num) ? num : web3.utils.toBN(num)]. *)
Definition asBN (num : JSValue) : Outcome JSValue :=
  if isBN num then Ret num else toBN num.

Definition notAFunction (what : string) : JSError :=
  TypeError (what ++ " is not a function").

(** [a.sub(b)] with [b] a bn.js instance, as the monitors call it.  On a
    bn.js receiver it is the difference; a string has the legacy method
    [String.prototype.sub], which wraps it in a sub tag; no other value has a
    [sub] method. *)
Definition valueSub (a b : JSValue) : Outcome JSValue :=
  match a, b with
  | VBN x _, VBN y _ => Ret (mkBN (x - y))
  | VStr s, _ => Ret (VStr ("<sub>" ++ s ++ "</sub>"))
  | VNull, _ | VUndefined, _ =>
      Throw (TypeError ("Cannot read properties of " ++ toStringJS a
                          ++ " (reading 'sub')"))
  | _, _ => Throw (notAFunction "sub")
  end.

(** [a.add(b)] with [b] a bn.js instance. *)
Definition valueAdd (a b : JSValue) : Outcome JSValue :=
  match a, b with
  | VBN x _, VBN y _ => Ret (mkBN (x + y))
  | VNull, _ | VUndefined, _ =>
      Throw (TypeError ("Cannot read properties of " ++ toStringJS a
                          ++ " (reading 'add')"))
  | _, _ => Throw (notAFunction "add")
  end.

(** ** Keypaths (src/monitors/state.js, ContractState.resolveKeypath) *)

Definition readOfNullError (v : JSValue) (part : string) : JSError :=
  TypeError ("Cannot read properties of " ++ toStringJS v
               ++ " (reading '" ++ part ++ "')").

(** The character of [s] at the index that [part] spells, if it spells one. *)
Definition charAt (s : string) (part : string) : JSValue :=
  match find (fun i => String.eqb (natToString i) part) (seq 0 (String.length s)) with
  | Some i => VStr (substring i 1 s)
  | None => VUndefined
  end.

(** [current[part]] on own data fields.  A part that names a member found
    on the prototype chain (a method such as [toString], the [length] of an
    array) is outside this model: the code then goes on with a function or
    with data of the engine, where this lookup answers undefined.  The
    answer is that of the code when [part] is an own field, and when it is
    no field and no member of a prototype, as an index is. *)
Definition getProp (current : JSValue) (part : string) : Outcome JSValue :=
  match current with
  | VObj props => Ret (getOwn props part)
  | VBN _ own => Ret (getOwn own part)
  | VStr s =>
      if String.eqb part "length" then Ret (VNum (Z.of_nat (String.length s)))
      else Ret (charAt s part)
  | VNum _ | VNaN | VBool _ => Ret VUndefined
  | VNull | VUndefined => Throw (readOfNullError current part)
  end.

(** An index, or any name that begins with a digit: no member of a
    prototype is named so. *)
Definition startsWithDigit (part : string) : bool :=
  match part with
  | String c _ => isDigit c
  | EmptyString => false
  end.

Definition keypathError (keypath part : string) : JSError :=
  Error ("Error resolving keypath(" ++ keypath ++ ") - Got undefined at ." ++ part).

(** The loop of [resolveKeypath] over the parts that remain. *)
Fixpoint descend (keypath : string) (parts : list string) (current : JSValue)
  : Outcome JSValue :=
  match parts with
  | [] => Ret current
  | part :: rest =>
      next <- getProp current part ;;
      if isNullish next then Throw (keypathError keypath part)
      else descend keypath rest next
  end.

(** [resolveKeypath(keypath, value)] *)
Definition resolveKeypath (keypath : string) (value : JSValue) : Outcome JSValue :=
  descend keypath (splitDots keypath) value.

(** ** Code that changes a state and may throw *)

(** A step over a state [S]: the outcome and the state it leaves.  A throw
    keeps the state reached when it is raised. *)
Definition Step (S A : Type) : Type := S -> Outcome A * S.

Definition ret {S A : Type} (a : A) : Step S A := fun s => (Ret a, s).
Definition throw {S A : Type} (e : JSError) : Step S A := fun s => (Throw e, s).
Definition lift {S A : Type} (o : Outcome A) : Step S A := fun s => (o, s).
Definition get {S : Type} : Step S S := fun s => (Ret s, s).
Definition modify {S : Type} (f : S -> S) : Step S unit := fun s => (Ret tt, f s).

Definition bindS {S A B : Type} (m : Step S A) (f : A -> Step S B) : Step S B :=
  fun s =>
    match m s with
    | (Ret a, s') => f a s'
    | (Throw e, s') => (Throw e, s')
    end.

Notation "x <~ c1 ;; c2" := (bindS c1 (fun x => c2))
  (at level 61, c1 at next level, right associativity).
Notation "c1 ;;; c2" := (bindS c1 (fun _ => c2))
  (at level 61, right associativity).

(** [promise.catch(e => e)] and the body of a [try]: the outcome as a value. *)
Definition settle {S A : Type} (m : Step S A) : Step S (Outcome A) :=
  fun s => let '(r, s') := m s in (Ret r, s').

(** ** The chain *)

(** What the code reads from the chain through web3 and the contract
    instances.  Every read may fail.  Balances, gas prices and gas amounts
    come back as integers, which the code passes through toBN.

    [stackOf exc] is the text of [exc.stack]: the engine wrote it when the
    error was created, its name and message followed by the frames of the
    calls under way, which depend on the engine and on where the files are
    installed.  It is an input of the model like the reads of the chain. *)
Record Chain : Type := mkChain {
  getBalance : string -> Outcome Z;
  balanceOf : string -> string -> Outcome Z;
  readContract : string -> string -> list JSValue -> Outcome JSValue;
  getGasPrice : Outcome Z;
  stackOf : JSError -> string
}.

(** ** Monitors (src/monitors/monitor.js and its subclasses) *)

(** The three monitor classes with the fields their constructors store:
    the address of a wallet; a token contract and the address of the holder;
    a contract, the accessor called on it, its fixed parameters and the
    keypath (null when [None]). *)
Inductive Kind : Type :=
| ETHAddress (address : string)
| ERC20AddressBalance (contract : string) (address : string)
| ContractState (contract : string) (contractMethod : string)
    (params : list JSValue) (keypath : option string).

(** The fields of a monitor.  [expectedGas] is the field of a wallet
    monitor, null when [None]. *)
Record Monitor : Type := mkMonitor {
  kind : Kind;
  lastValue : JSValue;
  dirty : bool;
  dirtyValue : JSValue;
  expectedGas : option Z
}.

(** The constructors: [StateMonitor(lastValue)] leaves [dirty] false and
    [dirtyValue] null; a contract monitor starts from a null [lastValue]. *)
Definition newETHAddress (address : string) (initialBalance : JSValue) : Monitor :=
  mkMonitor (ETHAddress address) initialBalance false VNull None.

Definition newERC20AddressBalance (contract address : string)
  (initialBalance : JSValue) : Monitor :=
  mkMonitor (ERC20AddressBalance contract address) initialBalance false VNull None.

Definition newContractState (contract contractMethod : string)
  (params : list JSValue) (keypath : option string) : Monitor :=
  mkMonitor (ContractState contract contractMethod params keypath)
    VNull false VNull None.

Definition setLastValue (v : JSValue) (m : Monitor) : Monitor :=
  mkMonitor (kind m) v (dirty m) (dirtyValue m) (expectedGas m).
Definition setDirty (b : bool) (m : Monitor) : Monitor :=
  mkMonitor (kind m) (lastValue m) b (dirtyValue m) (expectedGas m).
Definition setDirtyValue (v : JSValue) (m : Monitor) : Monitor :=
  mkMonitor (kind m) (lastValue m) (dirty m) v (expectedGas m).
Definition setExpectedGas (g : option Z) (m : Monitor) : Monitor :=
  mkMonitor (kind m) (lastValue m) (dirty m) (dirtyValue m) g.

(** [type()] *)
Definition type (m : Monitor) : string :=
  match kind m with
  | ETHAddress _ => "eth-wallet"
  | ERC20AddressBalance _ _ => "erc20-balance"
  | ContractState _ _ _ _ => "contract-state"
  end.

(** [toString()] *)
Definition toString (m : Monitor) : string :=
  match kind m with
  | ETHAddress address => "eth(" ++ shortenAddress address ++ ")"
  | ERC20AddressBalance contract address =>
      "erc20(contract=" ++ shortenAddress contract ++ ",wallet="
        ++ shortenAddress address ++ ")"
  | ContractState contract _ _ _ => "contract(" ++ shortenAddress contract ++ ")"
  end.

(** [fetchValue()].  A wallet reads its balance, a token monitor the
    balance of its holder, both as bn.js instances.  A contract monitor
    calls its accessor and, when the result is an object that is not a bn.js
    instance, resolves its keypath in it. *)
Definition fetchValue (c : Chain) (m : Monitor) : Outcome JSValue :=
  match kind m with
  | ETHAddress address =>
      bal <- getBalance c address ;; Ret (mkBN bal)
  | ERC20AddressBalance contract address =>
      val <- balanceOf c contract address ;; Ret (mkBN val)
  | ContractState contract contractMethod params keypath =>
      val <- readContract c contract contractMethod params ;;
      if andb (String.eqb (typeof val) "object") (negb (isBN val)) then
        match keypath with
        | None =>
            Throw (Error
              "Expected non-null keypath for ContractMonitor with on-chain object.")
        | Some path => resolveKeypath path val
        end
      else Ret val
  end.

Definition notBNMessage (op : string) (a b : JSValue) : string :=
  "equal-assert: Types were not BN.js when processing " ++ op ++ "(..): "
    ++ typeof a ++ ", " ++ typeof b.

(** [equals(a, b)]: bn.js equality in the base class, [dynamicEquals] in a
    contract monitor. *)
Definition equals (m : Monitor) (a b : JSValue) : Outcome bool :=
  match kind m with
  | ContractState _ _ _ _ => dynamicEquals a b
  | _ =>
      match a, b with
      | VBN x _, VBN y _ => Ret (Z.eqb x y)
      | _, _ => Throw (Error (notBNMessage "equals" a b))
      end
  end.

(** [lte(a, b)] *)
Definition lte (m : Monitor) (a b : JSValue) : Outcome bool :=
  match a, b with
  | VBN x _, VBN y _ => Ret (Z.leb x y)
  | _, _ =>
      match kind m with
      | ContractState _ _ _ _ =>
          Throw (Error ("ContractState: Unsupported operation: " ++ JSONtext a
                          ++ " <= " ++ JSONtext b))
      | _ => Throw (Error (notBNMessage "lte" a b))
      end
  end.

(** [serializeValue(value)]: [value.toString()] in the base class,
    [JSON.stringify(value)] in a contract monitor. *)
Definition serializeValue (m : Monitor) (value : JSValue) : Outcome JSValue :=
  match kind m with
  | ContractState _ _ _ _ =>
      match JSONstringify value with
      | Some text => Ret (VStr text)
      | None => Ret VUndefined
      end
  | _ =>
      match value with
      | VNull | VUndefined => Throw (readOfNullError value "toString")
      | _ => Ret (VStr (toStringJS value))
      end
  end.

(** [adjustExpectation(value)]: the identity in the base class; a wallet
    subtracts [expectedGas] when it is not null. *)
Definition adjustExpectation (m : Monitor) (value : JSValue) : Outcome JSValue :=
  match kind m with
  | ETHAddress _ =>
      match expectedGas m with
      | Some gas => valueSub value (mkBN gas)
      | None => Ret value
      end
  | _ => Ret value
  end.

(** [StateMonitor.reset(toValue = null)] *)
Definition StateMonitor_reset (c : Chain) (toValue : JSValue) : Step Monitor unit :=
  (if negb (isNullish toValue) then modify (setLastValue toValue)
   else
     m <~ get ;;
     value <~ lift (fetchValue c m) ;;
     modify (setLastValue value)) ;;;
  modify (setDirty false) ;;;
  modify (setDirtyValue (VBool false)).

(** [reset(toValue)] as a call on the monitor dispatches it: the wallet
    class overrides it without a parameter, calls the base method with none
    and then sets [expectedGas] to null. *)
Definition reset (c : Chain) (toValue : JSValue) : Step Monitor unit :=
  m <~ get ;;
  match kind m with
  | ETHAddress _ =>
      StateMonitor_reset c VNull ;;;
      modify (setExpectedGas None)
  | _ => StateMonitor_reset c toValue
  end.

(** [checkDirty()] *)
Definition checkDirty (c : Chain) : Step Monitor bool :=
  m <~ get ;;
  value <~ lift (fetchValue c m) ;;
  same <~ lift (equals m value (lastValue m)) ;;
  modify (setDirty (negb same)) ;;;
  (if negb same then modify (setDirtyValue value) else ret tt) ;;;
  ret (negb same).

(** The cast of [expect] for a value whose typeof is number. *)
Definition castNumber (v : JSValue) : Outcome JSValue :=
  if String.eqb (typeof v) "number" then asBN v else Ret v.

Definition validationMessage (m : Monitor) (relation : string)
  (expected actual : JSValue) : string :=
  toString m ++ ": Error validating state (expected" ++ relation
    ++ toStringJS expected ++ ", actual=" ++ toStringJS actual ++ ") ".

(** [StateMonitor.expect(value, message)].  The lines written with
    [console.log] are left out; [assert.fail] throws an assertion error. *)
Definition StateMonitor_expect (c : Chain) (value : JSValue) : Step Monitor unit :=
  m <~ get ;;
  fetched <~ lift (fetchValue c m) ;;
  adjusted <~ lift (adjustExpectation m value) ;;
  actualValue <~ lift (castNumber fetched) ;;
  expectedValue <~ lift (castNumber adjusted) ;;
  (if negb (String.eqb (typeof actualValue) (typeof expectedValue)) then
     throw (AssertionError ("Type mismatch in expectation: " ++ typeof actualValue
                              ++ " != " ++ typeof expectedValue))
   else ret tt) ;;;
  same <~ lift (equals m actualValue expectedValue) ;;
  (if negb same then
     throw (AssertionError (validationMessage m "=" expectedValue actualValue))
   else ret tt) ;;;
  reset c actualValue.

(** [expect(value, message)] as dispatched: the wallet and token classes
    cast the value with asBN first. *)
Definition expect (c : Chain) (value : JSValue) : Step Monitor unit :=
  m <~ get ;;
  match kind m with
  | ContractState _ _ _ _ => StateMonitor_expect c value
  | _ =>
      value' <~ lift (asBN value) ;;
      StateMonitor_expect c value'
  end.

(** [expectOnlyConsumedGas(message)] *)
Definition expectOnlyConsumedGas (c : Chain) : Step Monitor unit :=
  m <~ get ;;
  expect c (lastValue m).

(** [expectFallsBy(dropBy, message)] *)
Definition expectFallsBy (c : Chain) (dropBy : JSValue) : Step Monitor unit :=
  m <~ get ;;
  dropBy' <~ lift (asBN dropBy) ;;
  target <~ lift (valueSub (lastValue m) dropBy') ;;
  expect c target.

(** [expectRisesBy(riseBy, message)] *)
Definition expectRisesBy (c : Chain) (riseBy : JSValue) : Step Monitor unit :=
  m <~ get ;;
  riseBy' <~ lift (asBN riseBy) ;;
  target <~ lift (valueAdd (lastValue m) riseBy') ;;
  expect c target.

(** [expectLessThan(value, message)]; the test [!value] never holds of the
    bn.js instance asBN returns. *)
Definition expectLessThan (c : Chain) (value : JSValue) : Step Monitor unit :=
  m <~ get ;;
  value' <~ lift (asBN value) ;;
  actualValue <~ lift (fetchValue c m) ;;
  below <~ lift (lte m actualValue value') ;;
  (if negb below then
     throw (AssertionError (validationMessage m "<=" value' actualValue))
   else ret tt) ;;;
  reset c actualValue.

(** [expectGas(gasAmount)] of a wallet *)
Definition expectGas (gasAmount : Z) : Step Monitor unit :=
  m <~ get ;;
  let current := match expectedGas m with Some g => g | None => 0 end in
  modify (setExpectedGas (Some (current + gasAmount))).

(** ** The aggregator (src/monitors/state.js, DappState) *)

(** Monitors are objects: a group names references into a store, and a
    monitor reached under two names is one monitor. *)
Definition Ref : Type := nat.
Definition Store : Type := Ref -> Monitor.

Definition update (l : Ref) (m : Monitor) (st : Store) : Store :=
  fun l' => if Nat.eqb l' l then m else st l'.

(** A group, [{name: monitor, ...}], in [Object.keys] order. *)
Definition Group : Type := list (string * Ref).

Record DappState : Type := mkDappState {
  wallets : Group;
  erc20 : Group;
  contract : Group;
  exceptions : list JSError
}.

(** [this.all] *)
Definition all (d : DappState) : list Group := [wallets d; erc20 d; contract d].

(** The aggregator, the monitors and the chain they read. *)
Record World : Type := mkWorld {
  dapp : DappState;
  store : Store;
  chain : Chain
}.

Definition setExceptions (es : list JSError) (w : World) : World :=
  mkWorld (mkDappState (wallets (dapp w)) (erc20 (dapp w)) (contract (dapp w)) es)
    (store w) (chain w).

(** A method call on the monitor at [l], which reads the chain of the
    world and leaves the monitor changed in the store. *)
Definition atRef {A : Type} (l : Ref) (method : Chain -> Step Monitor A)
  : Step World A :=
  fun w =>
    let '(r, m') := method (chain w) (store w l) in
    (r, mkWorld (dapp w) (update l m' (store w)) (chain w)).

(** [Promise.all(keys.map(key => method(group[key]).catch(e => e)))]: every
    call runs to its end against the chain as it stands, and the outcomes
    come back in key order. *)
Fixpoint settleAll {A : Type} (method : Ref -> Step World A) (group : Group)
  : Step World (list (Outcome A)) :=
  match group with
  | [] => ret []
  | (_, l) :: rest =>
      r <~ settle (method l) ;;
      rs <~ settleAll method rest ;;
      ret (r :: rs)
  end.

(** [exc.stack], as the engine of the chain [c] holds it. *)
Definition stack (c : Chain) (exc : JSError) : string := stackOf c exc.

Definition failedToCheck (c : Chain) (monitor : Monitor) (key : string)
  (exc : JSError) : JSError :=
  Error ("Failed to check value of " ++ type monitor ++ "." ++ key ++ ": "
           ++ stack c exc).

Definition unassertedChange (monitor : Monitor) (key : string) (last dirtyText : JSValue)
  : JSError :=
  Error (type monitor ++ "." ++ key ++ ": un-asserted state change detected ("
           ++ toStringJS last ++ ") => (" ++ toStringJS dirtyText ++ ")").

(** The loop of [DappState.reset] over the settled resets of a group. *)
Fixpoint resetFailures (group : Group) (results : list (Outcome unit))
  : Step World unit :=
  match group, results with
  | (key, l) :: group', res :: results' =>
      match res with
      | Throw exc =>
          w <~ get ;;
          throw (failedToCheck (chain w) (store w l) key exc)
      | Ret _ => resetFailures group' results'
      end
  | _, _ => ret tt
  end.

(** [DappState.reset()]: group after group, and the exceptions emptied. *)
Fixpoint resetGroups (groups : list Group) : Step World unit :=
  match groups with
  | [] => ret tt
  | group :: rest =>
      results <~ settleAll (fun l => atRef l (fun c => reset c VNull)) group ;;
      resetFailures group results ;;;
      resetGroups rest
  end.

Definition DappState_reset : Step World unit :=
  w <~ get ;;
  resetGroups (all (dapp w)) ;;;
  modify (setExceptions []).

(** The loop of [_checkDirty] over the settled checks of a group. *)
Fixpoint reportDirty (group : Group) (results : list (Outcome bool))
  : Step World unit :=
  match group, results with
  | (key, l) :: group', res :: results' =>
      match res with
      | Throw exc =>
          w <~ get ;;
          throw (failedToCheck (chain w) (store w l) key exc)
      | Ret true =>
          w <~ get ;;
          let monitor := store w l in
          last <~ lift (serializeValue monitor (lastValue monitor)) ;;
          dirtyText <~ lift (serializeValue monitor (dirtyValue monitor)) ;;
          modify (fun w' =>
            setExceptions
              (exceptions (dapp w') ++ [unassertedChange monitor key last dirtyText])%list
              w') ;;;
          reportDirty group' results'
      | Ret false => reportDirty group' results'
      end
  | _, _ => ret tt
  end.

(** [_checkDirty(stateEntries)] *)
Definition _checkDirty (stateEntries : Group) : Step World unit :=
  results <~ settleAll (fun l => atRef l checkDirty) stateEntries ;;
  reportDirty stateEntries results.

(** The first rejection among settled outcomes, as [Promise.all] raises it. *)
Fixpoint firstThrow (results : list (Outcome unit)) : Outcome unit :=
  match results with
  | [] => Ret tt
  | Throw e :: _ => Throw e
  | Ret _ :: rest => firstThrow rest
  end.

Fixpoint checkDirtyGroups (groups : list Group) : Step World (list (Outcome unit)) :=
  match groups with
  | [] => ret []
  | group :: rest =>
      r <~ settle (_checkDirty group) ;;
      rs <~ checkDirtyGroups rest ;;
      ret (r :: rs)
  end.

(** [DappState.checkDirty()]: [Promise.all] over the groups.  The code
    starts the groups together and every group runs to its end: the checks
    of the monitors read the chain and change their own monitor only, the
    entries of different groups are queued in the order in which the groups
    complete, and the rejection raised is that of the group that fails
    first.  Here the groups are taken in the order of [this.all], which is
    one of these orders, and the world returned is the one reached when all
    of them have settled.  What is proved below of the entries queued and of
    the error raised does not depend on that order: it is stated of the
    entries appended whatever their order, or of passes in which one
    monitor drifted or one group fails. *)
Definition DappState_checkDirty : Step World unit :=
  w <~ get ;;
  results <~ checkDirtyGroups (all (dapp w)) ;;
  lift (firstThrow results).

Fixpoint numbered (idx : nat) (es : list JSError) : list string :=
  match es with
  | [] => []
  | exc :: rest => ("#" ++ natToString idx ++ ": " ++ message exc) :: numbered (S idx) rest
  end.

(** [assertNoExceptions()] *)
Definition assertNoExceptions : Step World unit :=
  w <~ get ;;
  match exceptions (dapp w) with
  | [] => ret tt
  | es =>
      throw (Error ("The following exceptions occurred:" ++ newline
                      ++ String.concat newline (numbered 0 es)))
  end.

(** ** Calls through a wallet (src/monitors/ethwallet.js, ETHAddress.call) *)

(** A state-changing operation on a contract: given its arguments it
    changes the chain and returns its result, or throws. *)
Definition Operation : Type := list JSValue -> Step Chain JSValue.

(** [p.from = address]: the field is overwritten where it is, or added
    after the others. *)
Fixpoint setField (props : list (string * JSValue)) (key : string) (v : JSValue)
  : list (string * JSValue) :=
  match props with
  | [] => [(key, v)]
  | (k, old) :: rest =>
      if String.eqb k key then (k, v) :: rest else (k, old) :: setField rest key v
  end.

Definition withField (p : JSValue) (key : string) (v : JSValue) : JSValue :=
  match p with
  | VObj props => VObj (setField props key v)
  | VBN z own => VBN z (setField own key v)
  | _ => p
  end.

(** The arguments with [{from: address}]: set on the last one when it is
    an object without a [from], passed as one more argument otherwise. *)
Definition withFrom (address : string) (params : list JSValue)
  : Outcome (list JSValue) :=
  match rev params with
  | [] => Ret [VObj [("from", VStr address)]]
  | p :: before =>
      if String.eqb (typeof p) "object" then
        from <- getProp p "from" ;;
        if isNullish from
        then Ret (rev before ++ [withField p "from" (VStr address)])%list
        else Ret (params ++ [VObj [("from", VStr address)]])%list
      else Ret (params ++ [VObj [("from", VStr address)]])%list
  end.

Definition bnValue (v : JSValue) : Z :=
  match v with
  | VBN z _ => z
  | _ => 0
  end.

(** [gasForReceipt(receipt)]: the gas used times the gas price. *)
Definition gasForReceipt (c : Chain) (receipt : JSValue) : Outcome Z :=
  used <- getProp receipt "gasUsed" ;;
  gasUsed <- toBN used ;;
  gasPrice <- getGasPrice c ;;
  Ret (bnValue gasUsed * gasPrice).

(** [gasForCall(result)] *)
Definition gasForCall (c : Chain) (result : JSValue) : Outcome Z :=
  receipt <- getProp result "receipt" ;;
  gasForReceipt c receipt.

(** The operation run on the chain of the world. *)
Definition invoke (contractMethod : Operation) (params : list JSValue)
  : Step World JSValue :=
  fun w =>
    let '(r, c') := contractMethod params (chain w) in
    (r, mkWorld (dapp w) (store w) c').

(** [call(state, contractMethod, ...params)] on the wallet at [self], with
    [state] the aggregator of the world.  Only a wallet has the method. *)
Definition call (self : Ref) (contractMethod : Operation) (params : list JSValue)
  : Step World JSValue :=
  w <~ get ;;
  match kind (store w self) with
  | ETHAddress address =>
      DappState_checkDirty ;;;
      assertNoExceptions ;;;
      params' <~ lift (withFrom address params) ;;
      attempt <~ settle
        (res <~ invoke contractMethod params' ;;
         w1 <~ get ;;
         gasCost <~ lift (gasForCall (chain w1) res) ;;
         atRef self (fun _ => expectGas gasCost) ;;;
         ret res) ;;
      match attempt with
      | Ret res => ret res
      | Throw exc =>
          (if truthy (receipt exc) then
             w2 <~ get ;;
             gasPrice <~ lift (gasForReceipt (chain w2) (receipt exc)) ;;
             atRef self (fun _ => expectGas gasPrice)
           else ret tt) ;;;
          throw exc
      end
  | _ => throw (notAFunction "call")
  end.

(** ** Runs of a monitor *)

(** The operations a test applies to one monitor. *)
Inductive MonitorOp : Type :=
| OpReset (toValue : JSValue)
| OpCheckDirty
| OpExpect (value : JSValue)
| OpExpectOnlyConsumedGas
| OpExpectFallsBy (dropBy : JSValue)
| OpExpectRisesBy (riseBy : JSValue)
| OpExpectLessThan (value : JSValue).

Definition perform (op : MonitorOp) (c : Chain) : Step Monitor unit :=
  match op with
  | OpReset toValue => reset c toValue
  | OpCheckDirty => checkDirty c ;;; ret tt
  | OpExpect value => expect c value
  | OpExpectOnlyConsumedGas => expectOnlyConsumedGas c
  | OpExpectFallsBy dropBy => expectFallsBy c dropBy
  | OpExpectRisesBy riseBy => expectRisesBy c riseBy
  | OpExpectLessThan value => expectLessThan c value
  end.

(** A run: each operation with the chain it meets.  An operation that
    throws leaves the monitor as it was when it threw, and the run goes on,
    as after a [catch] in the test. *)
Fixpoint run (ops : list (MonitorOp * Chain)) (m : Monitor) : Monitor :=
  match ops with
  | [] => m
  | (op, c) :: rest => run rest (snd (perform op c m))
  end.

(** The invariant of the dirty flag: a dirty monitor holds a [dirtyValue]
    that its [equals] tells apart from [lastValue]. *)
Definition dirtyInvariant (m : Monitor) : Prop :=
  dirty m = true -> equals m (dirtyValue m) (lastValue m) = Ret false.

(** What the check of the monitor at [l] reports in the world [w]. *)
Definition reports (w : World) (l : Ref) : Outcome bool :=
  fst (checkDirty (chain w) (store w l)).

(** The entries of all the groups of an aggregator. *)
Definition entries (d : DappState) : list (string * Ref) := List.concat (all d).

(** [expectedGas] read as the sum so far, zero while it is null. *)
Definition gasSoFar (g : option Z) : Z :=
  match g with
  | Some total => total
  | None => 0
  end.

(** Whether [reset(toValue)] fetches: a wallet always does, the others do
    when no value is given. *)
Definition resetFetches (m : Monitor) (toValue : JSValue) : bool :=
  match kind m with
  | ETHAddress _ => true
  | _ => isNullish toValue
  end.

(** [expectedGas] after a reset. *)
Definition gasAfterReset (m : Monitor) : option Z :=
  match kind m with
  | ETHAddress _ => None
  | _ => expectedGas m
  end.

(** An operation either leaves the monitor as it is or leaves it clean. *)
Definition sameOrClean (m m' : Monitor) : Prop := m' = m \/ dirty m' = false.

(** A stack as an engine writes it: the name and the message of the error,
    then the frames. *)
Definition stackWith (frames : string) (exc : JSError) : string :=
  errName exc ++ ": " ++ message exc ++ frames.

Definition sampleFrames : string := newline ++ "    at <anonymous>".

(** A chain on which every balance is [balance], every accessor returns
    [fetched] and the gas price is [price]. *)
Definition steadyChain (balance : Z) (fetched : JSValue) (price : Z) : Chain :=
  mkChain (fun _ => Ret balance) (fun _ _ => Ret balance)
    (fun _ _ _ => Ret fetched) (Ret price) (stackWith sampleFrames).

(** An operation that is mined: it takes [value] and the cost of the gas
    out of the balance and returns a result whose receipt reports
    [gasUsed]. *)
Definition minedTransfer (balance value gasUsed price : Z) : Operation :=
  fun _ _ =>
    (Ret (VObj [("receipt", VObj [("gasUsed", VNum gasUsed)])]),
     steadyChain (balance - value - gasUsed * price) VNull price).

(** An operation that throws [exc] and leaves the chain [after]. *)
Definition failingOperation (exc : JSError) (after : Chain) : Operation :=
  fun _ _ => (Throw exc, after).

(** A world with one wallet, registered as alice. *)
Definition oneWallet (m : Monitor) (c : Chain) (es : list JSError) : World :=
  mkWorld (mkDappState [("alice", 0%nat)] [] [] es) (fun _ => m) c.

(** What a dirty check leaves alone in a monitor: its class and fields,
    its accepted value and the gas it expects. *)
Definition sameAccepted (m m' : Monitor) : Prop :=
  kind m' = kind m /\ lastValue m' = lastValue m /\ expectedGas m' = expectedGas m.

(** What a pass of dirty checks leaves alone in a world: the chain, the
    groups, and in every monitor what [sameAccepted] lists. *)
Definition frame (w w' : World) : Prop :=
  chain w' = chain w /\
  all (dapp w') = all (dapp w) /\
  forall l, sameAccepted (store w l) (store w' l).

(** The exceptions of [w'] are those of [w] followed by [added]. *)
Definition appended (w w' : World) (added : list JSError) : Prop :=
  exceptions (dapp w') = (exceptions (dapp w) ++ added)%list.

(** A world with a wallet, a token balance and a contract field, in which
    the wallet alone drifted: it accepted 100 and the chain holds 90. *)
Definition threeMonitors : World :=
  mkWorld
    (mkDappState [("alice", 0%nat)] [("token", 1%nat)] [("owner", 2%nat)] [])
    (fun l =>
       match l with
       | O => newETHAddress "0xA11CE" (mkBN 100)
       | S O => mkMonitor (ERC20AddressBalance "0x70CE" "0xA11CE") (mkBN 90)
                  false VNull None
       | _ => mkMonitor (ContractState "0xC0DE" "owner" [] None) (VStr "0xB0B")
                false VNull None
       end)
    (steadyChain 90 (VStr "0xB0B") 1).

(** ** Values that compare *)

(** Every key listed once. *)
Fixpoint uniqueKeys (keys : list string) : bool :=
  match keys with
  | [] => true
  | key :: rest => andb (negb (includes rest key)) (uniqueKeys rest)
  end.

(** The values [dynamicEquals] can compare with themselves: no undefined,
    null or NaN, and in a record every key once and, off the positional
    keys, fields that compare.  The fields of a bn.js instance are not
    looked at. *)
Fixpoint comparable (v : JSValue) : bool :=
  match v with
  | VUndefined | VNull | VNaN => false
  | VBool _ | VNum _ | VStr _ | VBN _ _ => true
  | VObj props =>
      andb (uniqueKeys (keysOf props))
        ((fix fields (entries : list (string * JSValue)) : bool :=
            match entries with
            | [] => true
            | (key, value) :: rest =>
                andb (orb (positional key) (comparable value)) (fields rest)
            end) props)
  end.

(** The fields of a record that compare, off the positional keys. *)
Fixpoint comparableFields (entries : list (string * JSValue)) : bool :=
  match entries with
  | [] => true
  | (key, value) :: rest =>
      andb (orb (positional key) (comparable value)) (comparableFields rest)
  end.

(** ** The hooks of a suite (src/index.js, contract.stateful) *)

(** [beforeEach]: [await S.reset()]. *)
Definition stateful_beforeEach : Step World unit := DappState_reset.

(** [afterEach]: [await S.checkDirty(); S.assertNoExceptions();
    await S.reset()]. *)
Definition stateful_afterEach : Step World unit :=
  DappState_checkDirty ;;;
  assertNoExceptions ;;;
  DappState_reset.

(** ** The hooks of describeDapp *)

(** The time machine of ganache: a snapshot is taken or restored on the
    chain.  What the two calls return and when they fail is left to the
    library. *)
Record TimeMachine : Type := mkTimeMachine {
  takeSnapshot : Step Chain JSValue;
  revertToSnapshot : JSValue -> Step Chain JSValue
}.

(** A call of the time machine on the chain of the world. *)
Definition onChain {A : Type} (action : Step Chain A) : Step World A :=
  fun w =>
    let '(r, c') := action (chain w) in
    (r, mkWorld (dapp w) (store w) c').

(** [if (state.exceptions)]: the exceptions are an array, an array is an
    object, and every object is truthy, the empty array as well. *)
Definition arrayTruthy {A : Type} (array : list A) : bool := true.

(** [beforeEach] of describeDapp; the snapshot id it stores is returned. *)
Definition describeDapp_beforeEach (timeMachine : TimeMachine) : Step World JSValue :=
  DappState_reset ;;;
  snapshot <~ onChain (takeSnapshot timeMachine) ;;
  lift (getProp snapshot "result").

(** [afterEach] of describeDapp, with the snapshot id [beforeEach] stored. *)
Definition describeDapp_afterEach (timeMachine : TimeMachine) (snapshotId : JSValue)
  : Step World unit :=
  w <~ get ;;
  if arrayTruthy (exceptions (dapp w)) then
    onChain (revertToSnapshot timeMachine snapshotId) ;;;
    ret tt
  else
    DappState_checkDirty ;;;
    onChain (revertToSnapshot timeMachine snapshotId) ;;;
    assertNoExceptions ;;;
    DappState_reset.

(** ** Monitors that accepted the chain *)

(** The monitor at [l] holds as its accepted value what its fetch gives on
    the chain of the world, and is not dirty. *)
Definition accepted (w : World) (l : Ref) : Prop :=
  forall v, fetchValue (chain w) (store w l) = Ret v ->
    lastValue (store w l) = v /\ dirty (store w l) = false.

(** What the reset of the monitor of an entry answers: nothing, or the
    failure of its fetch. *)
Definition resetAnswer (w : World) (entry : string * Ref) : Outcome unit :=
  v <- fetchValue (chain w) (store w (snd entry)) ;; Ret tt.

(** ** Induction on values *)

(** Induction on a value with the hypothesis on every field of a record
    and of a bn.js instance. *)
Section ValueInduction.
Variable P : JSValue -> Prop.
Hypothesis onUndefined : P VUndefined.
Hypothesis onNull : P VNull.
Hypothesis onBool : forall b, P (VBool b).
Hypothesis onNum : forall n, P (VNum n).
Hypothesis onNaN : P VNaN.
Hypothesis onStr : forall s, P (VStr s).
Hypothesis onBN : forall z own, Forall (fun entry => P (snd entry)) own -> P (VBN z own).
Hypothesis onObj : forall props, Forall (fun entry => P (snd entry)) props -> P (VObj props).

Fixpoint value_ind (v : JSValue) : P v :=
  let fields :=
    fix fields (entries : list (string * JSValue))
      : Forall (fun entry => P (snd entry)) entries :=
      match entries with
      | [] => Forall_nil _
      | entry :: rest => Forall_cons entry (value_ind (snd entry)) (fields rest)
      end in
  match v with
  | VUndefined => onUndefined
  | VNull => onNull
  | VBool b => onBool b
  | VNum n => onNum n
  | VNaN => onNaN
  | VStr s => onStr s
  | VBN z own => onBN z own (fields own)
  | VObj props => onObj props (fields props)
  end.
End ValueInduction.

(** ** Proof steps *)

(** Unfolds the combinators of [Step]. *)
Ltac unfold_step :=
  unfold bindS, get, lift, modify, ret, throw, settle.

(** Splits the goal on every test and match it holds, stopping at a
    reset. *)
Ltac split_matches :=
  repeat match goal with
         | |- context [if ?b then _ else _] =>
             match type of b with
             | bool => destruct b eqn:?
             end
         | |- context [match ?x with _ => _ end] =>
             match x with
             | reset _ _ _ => fail 1
             | _ => destruct x eqn:?
             end
         end.

(** * Properties *)

(** Two records, the case the walk is written for. *)
Lemma dynamicEquals_records (fieldsA fieldsB : list (string * JSValue)) :
  dynamicEquals (VObj fieldsA) (VObj fieldsB) =
  if negb (Nat.eqb (List.length fieldsA) (List.length fieldsB)) then Ret false
  else walk fieldsB fieldsA.
Proof.
  cbn [dynamicEquals typeof ownFields].
  change (String.eqb "object" "object") with true. cbn [negb].
  destruct (Nat.eqb (List.length fieldsA) (List.length fieldsB)); cbn [negb]; [|reflexivity].
  induction fieldsA as [|[key va] rest IH]; [reflexivity|].
  cbn [walk]. rewrite <- IH. reflexivity.
Qed.

Example dynamicEquals_same_record :
  dynamicEquals (VObj [("name", VStr "x")]) (VObj [("name", VStr "x")]) = Ret true.
Proof. reflexivity. Qed.

Example dynamicEquals_other_name :
  dynamicEquals (VObj [("name", VStr "x")]) (VObj [("name", VStr "y")]) = Ret false.
Proof. reflexivity. Qed.

(** ** Structural equality *)

Lemma typeof_eqb_differs (a b : JSValue) :
  typeof a <> typeof b -> String.eqb (typeof a) (typeof b) = false.
Proof. intros H. apply String.eqb_neq. exact H. Qed.

(** C9: when the typeof of the two arguments differ, [dynamicEquals] throws
    the type-mismatch error; it does not return false. *)
Theorem dynamicEquals_type_mismatch (a b : JSValue) :
  typeof a <> typeof b ->
  dynamicEquals a b = Throw (Error (typeMismatchMessage a b)).
Proof.
  intros H. apply typeof_eqb_differs in H.
  destruct a; cbn [dynamicEquals]; rewrite H; reflexivity.
Qed.

Lemma dynamicEquals_type_mismatch_witness :
  typeof (VNum 7) <> typeof (VObj [("name", VStr "x")]) /\
  dynamicEquals (VNum 7) (VObj [("name", VStr "x")]) =
    Throw (Error
      "ContractState: Error asserting state - cannot compare objects of different types (number != object)").
Proof.
  assert (H : typeof (VNum 7) <> typeof (VObj [("name", VStr "x")]))
    by (cbn; discriminate).
  split; [exact H|].
  exact (dynamicEquals_type_mismatch (VNum 7) (VObj [("name", VStr "x")]) H).
Defined.

Lemma walk_all_equal (fieldsB entries : list (string * JSValue)) :
  (forall key va, In (key, va) entries -> positional key = false ->
     includes (keysOf fieldsB) key = true /\
     dynamicEquals va (getOwn fieldsB key) = Ret true) ->
  walk fieldsB entries = Ret true.
Proof.
  induction entries as [|[key va] rest IH]; intros H; [reflexivity|].
  cbn [walk].
  destruct (positional key) eqn:Hpos.
  - apply IH. intros k v Hin. apply H. right. exact Hin.
  - destruct (H key va (or_introl eq_refl) Hpos) as [Hinc Heq].
    rewrite Hinc, Heq. cbn [negb].
    apply IH. intros k v Hin. apply H. right. exact Hin.
Qed.

(** A positional entry at the head of the walk is passed over, whatever
    its value. *)
Lemma walk_skips_positional (fieldsB rest : list (string * JSValue))
  (key : string) (va : JSValue) :
  positional key = true ->
  walk fieldsB ((key, va) :: rest) = walk fieldsB rest.
Proof. intros H. cbn [walk]. rewrite H. reflexivity. Qed.

(** With every key listed once, the field the walk visits is [a[key]]. *)
Lemma getOwn_of_entry (props : list (string * JSValue)) (key : string) (v : JSValue) :
  NoDup (keysOf props) -> In (key, v) props -> getOwn props key = v.
Proof.
  unfold getOwn. induction props as [|[k0 v0] rest IH]; intros Hnd Hin.
  - destruct Hin.
  - cbn [lookup]. inversion Hnd as [|? ? Hnotin Hnd']; subst.
    destruct Hin as [Heq|Hin].
    + inversion Heq; subst. rewrite String.eqb_refl. reflexivity.
    + destruct (String.eqb k0 key) eqn:Hk.
      * apply String.eqb_eq in Hk. subst k0. exfalso. apply Hnotin.
        unfold keysOf. apply (in_map fst rest (key, v)). exact Hin.
      * apply IH; assumption.
Qed.

Lemma includes_key (props : list (string * JSValue)) (key : string) (v : JSValue) :
  lookup props key = Some v -> includes (keysOf props) key = true.
Proof.
  unfold includes, keysOf. induction props as [|[k0 v0] rest IH]; intros H.
  - discriminate H.
  - cbn [lookup] in H. cbn [map fst existsb].
    destruct (String.eqb k0 key) eqn:Hk.
    + apply String.eqb_eq in Hk. subst k0. rewrite String.eqb_refl. reflexivity.
    + rewrite (IH H). apply Bool.orb_true_r.
Qed.

(** Two records with the same number of keys that hold the same value at
    every key off the positional ones are equal, when each of those values
    compares equal to itself. *)
Lemma same_off_positional_equal (fieldsA fieldsB : list (string * JSValue)) :
  NoDup (keysOf fieldsA) ->
  List.length fieldsA = List.length fieldsB ->
  (forall key, positional key = false -> lookup fieldsA key = lookup fieldsB key) ->
  (forall key v, positional key = false -> lookup fieldsA key = Some v ->
     dynamicEquals v v = Ret true) ->
  dynamicEquals (VObj fieldsA) (VObj fieldsB) = Ret true.
Proof.
  intros Hnd Hlen Hsame Hrefl. rewrite dynamicEquals_records.
  rewrite Hlen, Nat.eqb_refl. cbn [negb].
  apply walk_all_equal. intros key va Hin Hpos.
  assert (HA : lookup fieldsA key = Some va).
  { pose proof (getOwn_of_entry fieldsA key va Hnd Hin) as Hg.
    unfold getOwn in Hg. destruct (lookup fieldsA key) as [v|] eqn:Hl.
    - subst v. reflexivity.
    - exfalso. clear - Hin Hl. induction fieldsA as [|[k0 v0] rest IH].
      + destruct Hin.
      + cbn [lookup] in Hl. destruct (String.eqb k0 key) eqn:Hk; [discriminate Hl|].
        destruct Hin as [Heq|Hin].
        * inversion Heq; subst. rewrite String.eqb_refl in Hk. discriminate Hk.
        * apply IH; assumption. }
  assert (HB : lookup fieldsB key = Some va) by (rewrite <- (Hsame key Hpos); exact HA).
  split.
  - apply (includes_key fieldsB key va HB).
  - unfold getOwn. rewrite HB. apply (Hrefl key va Hpos HA).
Qed.

(** Records with different numbers of keys are unequal before any key is
    looked at. *)
Lemma dynamicEquals_key_counts (fieldsA fieldsB : list (string * JSValue)) :
  List.length fieldsA <> List.length fieldsB ->
  dynamicEquals (VObj fieldsA) (VObj fieldsB) = Ret false.
Proof.
  intros H. rewrite dynamicEquals_records.
  apply Nat.eqb_neq in H. rewrite H. reflexivity.
Qed.

(** C1, as the code has it: the record with the positional key "0" and the
    record without it are unequal, in either order, because the key counts
    are compared before the walk and count positional keys; the walk then
    passes over positional keys, so two records with the same keys are equal
    whatever they hold at "0". *)
Theorem positional_key_counted_then_skipped :
  dynamicEquals (VObj [("0", VStr "x"); ("name", VStr "x")])
                (VObj [("name", VStr "x")]) = Ret false /\
  dynamicEquals (VObj [("name", VStr "x")])
                (VObj [("0", VStr "x"); ("name", VStr "x")]) = Ret false /\
  forall v v' : JSValue,
    dynamicEquals (VObj [("0", v); ("name", VStr "x")])
                  (VObj [("0", v'); ("name", VStr "x")]) = Ret true.
Proof.
  split; [reflexivity|]. split; [reflexivity|].
  intros v v'. rewrite dynamicEquals_records. reflexivity.
Qed.

(** C1, as stated, fails: the two records of the claim do not compare
    equal. *)
Lemma extra_positional_key_not_equal :
  dynamicEquals (VObj [("0", VStr "x"); ("name", VStr "x")])
                (VObj [("name", VStr "x")]) <> Ret true.
Proof. cbv. discriminate. Qed.

Lemma comparable_record (props : list (string * JSValue)) :
  comparable (VObj props)
    = andb (uniqueKeys (keysOf props)) (comparableFields props).
Proof.
  reflexivity.
Qed.

Lemma includes_In (keys : list string) (key : string) :
  includes keys key = true <-> In key keys.
Proof.
  unfold includes. rewrite existsb_exists. split.
  - intros (k & Hin & Heq). apply String.eqb_eq in Heq. subst k. exact Hin.
  - intros Hin. exists key. split; [exact Hin|apply String.eqb_refl].
Qed.

Lemma uniqueKeys_NoDup (keys : list string) :
  uniqueKeys keys = true -> NoDup keys.
Proof.
  induction keys as [|key rest IH]; intros H; [constructor|].
  cbn [uniqueKeys] in H. apply andb_prop in H. destruct H as [Hnot Hrest].
  constructor; [|apply IH; exact Hrest].
  intros Hin. apply includes_In in Hin. rewrite Hin in Hnot. discriminate Hnot.
Qed.

Lemma comparableFields_entry (entries : list (string * JSValue))
  (key : string) (value : JSValue) :
  comparableFields entries = true -> In (key, value) entries ->
  positional key = false -> comparable value = true.
Proof.
  induction entries as [|[k0 v0] rest IH]; intros H Hin Hpos; [destruct Hin|].
  cbn [comparableFields] in H. apply andb_prop in H. destruct H as [Hhead Hrest].
  destruct Hin as [Heq|Hin]; [|apply IH; assumption].
  inversion Heq; subst. rewrite Hpos in Hhead. exact Hhead.
Qed.

(** A value that compares, compared with itself. *)
Lemma comparable_equals_itself (v : JSValue) :
  comparable v = true -> dynamicEquals v v = Ret true.
Proof.
  induction v as [| |b|n| |s|z own IH|props IH] using value_ind;
    intros Hc; try discriminate Hc.
  - cbn. destruct b; reflexivity.
  - cbn. rewrite Z.eqb_refl. reflexivity.
  - cbn. rewrite String.eqb_refl. reflexivity.
  - cbn [dynamicEquals typeof]. change (String.eqb "object" "object") with true.
    cbn [negb]. rewrite Z.eqb_refl. reflexivity.
  - rewrite comparable_record in Hc. apply andb_prop in Hc.
    destruct Hc as [Hkeys Hfields]. apply uniqueKeys_NoDup in Hkeys.
    rewrite dynamicEquals_records, Nat.eqb_refl. cbn [negb].
    apply walk_all_equal. intros key va Hin Hpos. split.
    + apply includes_In. unfold keysOf. apply (in_map fst props (key, va)). exact Hin.
    + rewrite (getOwn_of_entry props key va Hkeys Hin).
      rewrite Forall_forall in IH. apply (IH (key, va) Hin).
      apply (comparableFields_entry props key va Hfields Hin Hpos).
Qed.

(** A field found by its key is an entry of the record. *)
Lemma lookup_In (props : list (string * JSValue)) (key : string) (v : JSValue) :
  lookup props key = Some v -> In (key, v) props.
Proof.
  induction props as [|[k0 v0] rest IH]; intros H; [discriminate H|].
  cbn [lookup] in H. destruct (String.eqb k0 key) eqn:Hk.
  - apply String.eqb_eq in Hk. inversion H; subst. left. reflexivity.
  - right. apply IH. exact H.
Qed.

(** C10, as the code has it: two records with the same number of keys
    that hold the same value at every key off the positional keys "0" to
    "3" compare equal whatever they hold at the positional keys, provided
    the values off the positional keys are values the function compares
    with themselves: no undefined, null or NaN in them, and every key of a
    record listed once.  The entries at the positional keys are passed over
    and their values are never compared, whatever they are. *)
Theorem positional_values_never_compared (fieldsA fieldsB : list (string * JSValue)) :
  uniqueKeys (keysOf fieldsA) = true ->
  List.length fieldsA = List.length fieldsB ->
  (forall key, positional key = false -> lookup fieldsA key = lookup fieldsB key) ->
  comparableFields fieldsA = true ->
  dynamicEquals (VObj fieldsA) (VObj fieldsB) = Ret true.
Proof.
  intros Hkeys Hlen Hsame Hfields.
  apply uniqueKeys_NoDup in Hkeys.
  apply same_off_positional_equal; try assumption.
  intros key v Hpos Hlook.
  apply comparable_equals_itself.
  apply (comparableFields_entry fieldsA key v Hfields (lookup_In _ _ _ Hlook) Hpos).
Qed.

Lemma positional_values_never_compared_witness :
  dynamicEquals
    (VObj [("0", VStr "p"); ("3", VNum 1); ("name", VStr "x"); ("id", VNum 5)])
    (VObj [("0", VNum 9); ("3", VNull); ("id", VNum 5); ("name", VStr "x")])
  = Ret true.
Proof.
  apply positional_values_never_compared.
  - reflexivity.
  - reflexivity.
  - intros key Hpos. cbn [lookup].
    unfold positional, includes in Hpos. cbn [existsb] in Hpos.
    rewrite (String.eqb_sym "0" key), (String.eqb_sym "3" key).
    destruct (String.eqb key "0"); [discriminate Hpos|].
    destruct (String.eqb key "1"); [discriminate Hpos|].
    destruct (String.eqb key "2"); [discriminate Hpos|].
    destruct (String.eqb key "3"); [discriminate Hpos|].
    destruct (String.eqb "name" key) eqn:Hname;
      destruct (String.eqb "id" key) eqn:Hid; try reflexivity.
    apply String.eqb_eq in Hname. apply String.eqb_eq in Hid.
    subst key. discriminate Hid.
  - reflexivity.
Defined.

(** C10, as stated, fails: two records with the same keys that differ at
    the positional key "0" only do not compare equal when a field off the
    positional keys holds null, which makes the function throw the error of
    [Object.keys(null)], or NaN, which is not equal to itself. *)
Lemma positional_difference_not_equal :
  dynamicEquals (VObj [("0", VNum 1); ("x", VNull)])
                (VObj [("0", VNum 2); ("x", VNull)])
    = Throw (TypeError "Cannot convert undefined or null to object") /\
  dynamicEquals (VObj [("0", VNum 1); ("x", VNaN)])
                (VObj [("0", VNum 2); ("x", VNaN)])
    = Ret false.
Proof. split; reflexivity. Qed.

(** ** Keypaths *)

(** C7: with the fetched record [{a: {b: 42}}], the keypath "a.b" makes
    [fetchValue] return 42, and the keypath "a.c" makes it throw the
    resolution error that names [c], the first segment that is undefined. *)
Theorem keypath_resolution (c : Chain) (contract contractMethod : string)
  (params : list JSValue) :
  readContract c contract contractMethod params
    = Ret (VObj [("a", VObj [("b", VNum 42)])]) ->
  fetchValue c (newContractState contract contractMethod params (Some "a.b"))
    = Ret (VNum 42) /\
  fetchValue c (newContractState contract contractMethod params (Some "a.c"))
    = Throw (Error "Error resolving keypath(a.c) - Got undefined at .c").
Proof.
  intros H. unfold fetchValue, newContractState. cbn [kind].
  rewrite H. split; reflexivity.
Qed.

Lemma descend_app (keypath : string) (pre rest : list string) (value : JSValue) :
  descend keypath (pre ++ rest)%list value =
    (current <- descend keypath pre value ;; descend keypath rest current).
Proof.
  revert value. induction pre as [|part pre IH]; intros value; [reflexivity|].
  cbn [app descend]. unfold bind at 1 3.
  destruct (getProp value part) as [next|e]; [|reflexivity].
  destruct (isNullish next); [reflexivity|]. apply IH.
Qed.

(** Resolution stops at the first segment whose value is undefined or
    null, with the error that names it. *)
Lemma descend_first_undefined (keypath : string) (pre post : list string)
  (part : string) (value current next : JSValue) :
  descend keypath pre value = Ret current ->
  getProp current part = Ret next ->
  isNullish next = true ->
  descend keypath (pre ++ part :: post)%list value = Throw (keypathError keypath part).
Proof.
  intros Hpre Hget Hnull. rewrite descend_app, Hpre.
  cbn [bind descend]. rewrite Hget. cbn [bind]. rewrite Hnull. reflexivity.
Qed.

(** ** One monitor *)

Lemma fetchValue_kind (c : Chain) (m m' : Monitor) :
  kind m' = kind m -> fetchValue c m' = fetchValue c m.
Proof. intros H. unfold fetchValue. rewrite H. reflexivity. Qed.

Lemma equals_kind (m m' : Monitor) (a b : JSValue) :
  kind m' = kind m -> equals m' a b = equals m a b.
Proof. intros H. unfold equals. rewrite H. reflexivity. Qed.

(** [StateMonitor.reset] with an explicit value. *)
Lemma StateMonitor_reset_explicit (c : Chain) (toValue : JSValue) (m : Monitor) :
  isNullish toValue = false ->
  StateMonitor_reset c toValue m =
    (Ret tt, mkMonitor (kind m) toValue false (VBool false) (expectedGas m)).
Proof.
  intros H. unfold StateMonitor_reset. unfold_step. rewrite H. reflexivity.
Qed.

(** [StateMonitor.reset] without one: the fetched value is accepted, or
    the failure of the fetch comes out and nothing changes. *)
Lemma StateMonitor_reset_fetch (c : Chain) (toValue : JSValue) (m : Monitor) :
  isNullish toValue = true ->
  StateMonitor_reset c toValue m =
    match fetchValue c m with
    | Ret value =>
        (Ret tt, mkMonitor (kind m) value false (VBool false) (expectedGas m))
    | Throw e => (Throw e, m)
    end.
Proof.
  intros H. unfold StateMonitor_reset. unfold_step. rewrite H. cbn [negb].
  destruct (fetchValue c m); reflexivity.
Qed.

(** What [checkDirty] does, case by case. *)
Lemma checkDirty_cases (c : Chain) (m : Monitor) :
  checkDirty c m =
    match fetchValue c m with
    | Throw e => (Throw e, m)
    | Ret value =>
        match equals m value (lastValue m) with
        | Throw e => (Throw e, m)
        | Ret true =>
            (Ret false,
             mkMonitor (kind m) (lastValue m) false (dirtyValue m) (expectedGas m))
        | Ret false =>
            (Ret true,
             mkMonitor (kind m) (lastValue m) true value (expectedGas m))
        end
    end.
Proof.
  unfold checkDirty. unfold_step.
  destruct (fetchValue c m) as [value|e]; cbn; [|reflexivity].
  destruct (equals m value (lastValue m)) as [[|]|e]; reflexivity.
Qed.

Lemma keypath_resolution_witness :
  let c := steadyChain 0 (VObj [("a", VObj [("b", VNum 42)])]) 1 in
  fetchValue c (newContractState "0xC0FFEE" "position" [] (Some "a.b"))
    = Ret (VNum 42) /\
  fetchValue c (newContractState "0xC0FFEE" "position" [] (Some "a.c"))
    = Throw (Error "Error resolving keypath(a.c) - Got undefined at .c").
Proof.
  exact (keypath_resolution
           (steadyChain 0 (VObj [("a", VObj [("b", VNum 42)])]) 1)
           "0xC0FFEE" "position" [] eq_refl).
Defined.

(** [reset] as dispatched, case by case. *)
Lemma reset_cases (c : Chain) (toValue : JSValue) (m : Monitor) :
  reset c toValue m =
    if resetFetches m toValue then
      match fetchValue c m with
      | Ret value =>
          (Ret tt, mkMonitor (kind m) value false (VBool false) (gasAfterReset m))
      | Throw e => (Throw e, m)
      end
    else (Ret tt, mkMonitor (kind m) toValue false (VBool false) (expectedGas m)).
Proof.
  unfold reset, resetFetches, gasAfterReset.
  unfold bindS at 1. unfold get at 1.
  destruct (kind m) eqn:Hk.
  - unfold bindS. rewrite (StateMonitor_reset_fetch c VNull m eq_refl).
    destruct (fetchValue c m); [|reflexivity].
    unfold modify, setExpectedGas. cbn. rewrite Hk. reflexivity.
  - destruct (isNullish toValue) eqn:Hn.
    + rewrite (StateMonitor_reset_fetch c toValue m Hn).
      destruct (fetchValue c m); [rewrite Hk|]; reflexivity.
    + rewrite (StateMonitor_reset_explicit c toValue m Hn). rewrite Hk. reflexivity.
  - destruct (isNullish toValue) eqn:Hn.
    + rewrite (StateMonitor_reset_fetch c toValue m Hn).
      destruct (fetchValue c m); [rewrite Hk|]; reflexivity.
    + rewrite (StateMonitor_reset_explicit c toValue m Hn). rewrite Hk. reflexivity.
Qed.

Lemma reset_sameOrClean (c : Chain) (toValue : JSValue) (m : Monitor) :
  sameOrClean m (snd (reset c toValue m)).
Proof.
  rewrite reset_cases.
  destruct (resetFetches m toValue); [destruct (fetchValue c m)|];
    cbn [snd]; unfold sameOrClean; cbn [dirty]; auto.
Qed.

Lemma StateMonitor_expect_sameOrClean (c : Chain) (value : JSValue) (m : Monitor) :
  sameOrClean m (snd (StateMonitor_expect c value m)).
Proof.
  unfold StateMonitor_expect. unfold_step.
  split_matches; cbn [snd];
    try apply reset_sameOrClean; left; reflexivity.
Qed.

Lemma expect_sameOrClean (c : Chain) (value : JSValue) (m : Monitor) :
  sameOrClean m (snd (expect c value m)).
Proof.
  unfold expect. unfold bindS at 1. unfold get at 1.
  destruct (kind m); try apply StateMonitor_expect_sameOrClean;
    unfold bindS, lift; destruct (asBN value); cbn [snd];
    try apply StateMonitor_expect_sameOrClean; left; reflexivity.
Qed.

Lemma expectLessThan_sameOrClean (c : Chain) (value : JSValue) (m : Monitor) :
  sameOrClean m (snd (expectLessThan c value m)).
Proof.
  unfold expectLessThan. unfold_step.
  split_matches; cbn [snd];
    try apply reset_sameOrClean; left; reflexivity.
Qed.

Lemma perform_keeps_invariant (op : MonitorOp) (c : Chain) (m : Monitor) :
  dirtyInvariant m -> dirtyInvariant (snd (perform op c m)).
Proof.
  intros Hinv.
  assert (Hkeep : forall m', sameOrClean m m' -> dirtyInvariant m').
  { intros m' [->|Hclean]; [exact Hinv|].
    unfold dirtyInvariant. rewrite Hclean. discriminate. }
  destruct op; cbn [perform].
  - apply Hkeep, reset_sameOrClean.
  - unfold bindS, ret. rewrite checkDirty_cases.
    destruct (fetchValue c m) as [value|e]; cbn [snd]; [|exact Hinv].
    destruct (equals m value (lastValue m)) as [[|]|e] eqn:Heq; cbn [snd];
      [unfold dirtyInvariant; cbn [dirty]; discriminate| |exact Hinv].
    unfold dirtyInvariant. cbn [dirty dirtyValue lastValue]. intros _.
    rewrite <- Heq. apply equals_kind. reflexivity.
  - apply Hkeep, expect_sameOrClean.
  - apply Hkeep. unfold expectOnlyConsumedGas, bindS, get.
    apply expect_sameOrClean.
  - apply Hkeep. unfold expectFallsBy. unfold_step.
    split_matches; cbn [snd]; try apply expect_sameOrClean; left; reflexivity.
  - apply Hkeep. unfold expectRisesBy. unfold_step.
    split_matches; cbn [snd]; try apply expect_sameOrClean; left; reflexivity.
  - apply Hkeep, expectLessThan_sameOrClean.
Qed.

Lemma run_keeps_invariant (ops : list (MonitorOp * Chain)) (m : Monitor) :
  dirtyInvariant m -> dirtyInvariant (run ops m).
Proof.
  revert m. induction ops as [|[op c] rest IH]; intros m Hinv; [exact Hinv|].
  cbn [run]. apply IH. apply perform_keeps_invariant. exact Hinv.
Qed.

(** C4: along any run of reset, checkDirty and the expectations from a
    monitor that is not dirty, as its constructor leaves it, a dirty monitor
    holds a [dirtyValue] that [equals] tells apart from [lastValue]; and a
    reset that returns, with a value or without one, leaves [dirty] false
    and [dirtyValue] cleared to false, while a reset that throws does so
    with the failure of its fetch and changes nothing. *)
Theorem dirty_flag_invariant (m0 : Monitor) (ops : list (MonitorOp * Chain)) :
  dirty m0 = false ->
  (dirty (run ops m0) = true ->
   equals (run ops m0) (dirtyValue (run ops m0)) (lastValue (run ops m0))
     = Ret false) /\
  (forall (c : Chain) (toValue : JSValue) (m : Monitor),
     match reset c toValue m with
     | (Ret _, m') => dirty m' = false /\ dirtyValue m' = VBool false
     | (Throw e, m') => m' = m /\ fetchValue c m = Throw e
     end).
Proof.
  intros Hclean. split.
  - apply (run_keeps_invariant ops m0).
    unfold dirtyInvariant. rewrite Hclean. discriminate.
  - intros c toValue m. rewrite reset_cases.
    destruct (resetFetches m toValue); [destruct (fetchValue c m)|];
      cbn [dirty dirtyValue]; auto.
Qed.

Lemma dirty_flag_invariant_witness :
  let c := steadyChain 100 VNull 1 in
  let c' := steadyChain 90 VNull 1 in
  let m := run [(OpReset VNull, c); (OpCheckDirty, c')]
               (newETHAddress "0xA11CE" VUndefined) in
  dirty m = true /\
  bnValue (dirtyValue m) = 90 /\
  bnValue (lastValue m) = 100 /\
  equals m (dirtyValue m) (lastValue m) = Ret false.
Proof.
  cbv zeta.
  split; [reflexivity|]. split; [reflexivity|]. split; [reflexivity|].
  exact (proj1 (dirty_flag_invariant (newETHAddress "0xA11CE" VUndefined)
                  [(OpReset VNull, steadyChain 100 VNull 1);
                   (OpCheckDirty, steadyChain 90 VNull 1)] eq_refl) eq_refl).
Defined.

(** C8: when [reset()] is called without a value and the [checkDirty()]
    that follows fetches the same value, on which [equals] is reflexive,
    that check returns false and leaves [dirty] false. *)
Theorem clean_after_reset (c c' : Chain) (toValue value : JSValue) (m : Monitor) :
  isNullish toValue = true ->
  fetchValue c m = Ret value ->
  fetchValue c' m = Ret value ->
  equals m value value = Ret true ->
  exists m1 m2,
    reset c toValue m = (Ret tt, m1) /\
    checkDirty c' m1 = (Ret false, m2) /\
    dirty m2 = false.
Proof.
  intros Hnull Hfetch Hfetch' Hrefl.
  assert (Hreset : reset c toValue m =
            (Ret tt, mkMonitor (kind m) value false (VBool false) (gasAfterReset m))).
  { rewrite reset_cases, Hfetch.
    unfold resetFetches. rewrite Hnull. destruct (kind m); reflexivity. }
  set (m1 := mkMonitor (kind m) value false (VBool false) (gasAfterReset m)) in *.
  exists m1. eexists. split; [exact Hreset|].
  rewrite checkDirty_cases.
  rewrite (fetchValue_kind c' m m1 eq_refl), Hfetch'.
  change (lastValue m1) with value.
  rewrite (equals_kind m m1 value value eq_refl), Hrefl.
  split; reflexivity.
Qed.

Lemma clean_after_reset_witness :
  exists m1 m2,
    reset (steadyChain 100 VNull 1) VNull (newETHAddress "0xA11CE" VUndefined)
      = (Ret tt, m1) /\
    checkDirty (steadyChain 100 VNull 1) m1 = (Ret false, m2) /\
    dirty m2 = false.
Proof.
  exact (clean_after_reset (steadyChain 100 VNull 1) (steadyChain 100 VNull 1)
           VNull (mkBN 100) (newETHAddress "0xA11CE" VUndefined)
           eq_refl eq_refl eq_refl eq_refl).
Defined.

(** ** Gas compensation *)

Lemma castNumber_BN (z : Z) (own : list (string * JSValue)) :
  castNumber (VBN z own) = Ret (VBN z own).
Proof. reflexivity. Qed.

(** [expect] on a wallet whose balance reads [bal], with a bn.js value:
    the value less the gas expected so far is compared with the balance. *)
Lemma wallet_expect (c : Chain) (address : string) (last : JSValue) (d : bool)
  (dv : JSValue) (gas : option Z) (x : Z) (own : list (string * JSValue)) (bal : Z) :
  let m := mkMonitor (ETHAddress address) last d dv gas in
  getBalance c address = Ret bal ->
  fst (expect c (VBN x own) m) =
    if Z.eqb bal (x - gasSoFar gas) then Ret tt
    else Throw (AssertionError
           (validationMessage m "="
              (match gas with Some g => mkBN (x - g) | None => VBN x own end)
              (mkBN bal))).
Proof.
  intros m Hbal.
  assert (Hfetch : fetchValue c m = Ret (mkBN bal)).
  { unfold fetchValue, m. cbn [kind]. rewrite Hbal. reflexivity. }
  assert (Hreset : fst (reset c (mkBN bal) m) = Ret tt).
  { rewrite reset_cases. change (resetFetches m (mkBN bal)) with true.
    cbv iota. rewrite Hfetch. reflexivity. }
  unfold expect, StateMonitor_expect. unfold_step.
  cbn [kind m asBN isBN]. fold m. rewrite Hfetch.
  unfold adjustExpectation. cbn [kind expectedGas m]. fold m.
  unfold equals. cbn [kind m]. fold m.
  unfold mkBN in *.
  destruct gas as [g|]; cbn [valueSub gasSoFar]; unfold mkBN;
    rewrite !castNumber_BN; cbn [typeof];
    change (String.eqb "object" "object") with true; cbn [negb].
  - destruct (Z.eqb bal (x - g)); cbn [negb fst]; [exact Hreset|reflexivity].
  - replace (x - 0) with x by lia.
    destruct (Z.eqb bal x); cbn [negb fst]; [exact Hreset|reflexivity].
Qed.

(** A wallet that accepted 100 and expects the gas g, with the balance at
    100 - v - g: falling by v and being 100 - v are the same expectation, and
    both hold; without the expected gas the second fails when g is not
    zero. *)
Lemma wallet_expectations (c : Chain) (address : string)
  (own : list (string * JSValue)) (d : bool) (dv : JSValue) (g v : Z) :
  let m := mkMonitor (ETHAddress address) (VBN 100 own) d dv (Some g) in
  let unadjusted := mkMonitor (ETHAddress address) (VBN 100 own) d dv None in
  getBalance c address = Ret (100 - v - g) ->
  fst (expectFallsBy c (mkBN v) m) = Ret tt /\
  fst (expect c (mkBN (100 - v)) m) = Ret tt /\
  (forall value, adjustExpectation m value = valueSub value (mkBN g)) /\
  (forall value, adjustExpectation unadjusted value = Ret value) /\
  (g <> 0 ->
   exists msg, fst (expect c (mkBN (100 - v)) unadjusted) = Throw (AssertionError msg)).
Proof.
  intros m unadjusted Hbal.
  assert (Hexpect : fst (expect c (mkBN (100 - v)) m) = Ret tt).
  { unfold mkBN, m. rewrite (wallet_expect c address _ d dv (Some g) _ _ _ Hbal).
    cbn [gasSoFar]. rewrite Z.eqb_refl. reflexivity. }
  split; [|split; [exact Hexpect|split; [|split]]].
  - unfold expectFallsBy. unfold bindS at 1. unfold get at 1.
    unfold bindS at 1. unfold lift at 1. cbn [asBN isBN mkBN].
    unfold bindS at 1. unfold lift at 1. cbn [lastValue m valueSub].
    exact Hexpect.
  - intros value. reflexivity.
  - intros value. reflexivity.
  - intros Hg. eexists. unfold mkBN, unadjusted.
    rewrite (wallet_expect c address _ d dv None _ _ _ Hbal).
    cbn [gasSoFar].
    replace (Z.eqb (100 - v - g) (100 - v - 0)) with false; [reflexivity|].
    symmetry. apply Z.eqb_neq. lia.
Qed.

(** ** The aggregator *)

Lemma sameAccepted_refl (m : Monitor) : sameAccepted m m.
Proof. repeat split. Qed.

Lemma sameAccepted_trans (m1 m2 m3 : Monitor) :
  sameAccepted m1 m2 -> sameAccepted m2 m3 -> sameAccepted m1 m3.
Proof.
  intros (K1 & L1 & G1) (K2 & L2 & G2).
  repeat split; congruence.
Qed.

Lemma frame_refl (w : World) : frame w w.
Proof. repeat split. Qed.

Lemma frame_trans (w1 w2 w3 : World) : frame w1 w2 -> frame w2 w3 -> frame w1 w3.
Proof.
  intros (C1 & A1 & S1) (C2 & A2 & S2).
  split; [congruence|]. split; [congruence|].
  intros l. eapply sameAccepted_trans; [apply S1|apply S2].
Qed.

Lemma checkDirty_sameAccepted (c : Chain) (m : Monitor) :
  sameAccepted m (snd (checkDirty c m)).
Proof.
  rewrite checkDirty_cases.
  destruct (fetchValue c m) as [value|e]; [|apply sameAccepted_refl].
  destruct (equals m value (lastValue m)) as [[|]|e]; repeat split.
Qed.

(** The answer of a dirty check depends on the chain, the class of the
    monitor and its accepted value only. *)
Lemma checkDirty_answer (c : Chain) (m : Monitor) :
  fst (checkDirty c m) =
    (value <- fetchValue c m ;;
     same <- equals m value (lastValue m) ;;
     Ret (negb same)).
Proof.
  rewrite checkDirty_cases. unfold bind.
  destruct (fetchValue c m) as [value|e]; [|reflexivity].
  destruct (equals m value (lastValue m)) as [[|]|e]; reflexivity.
Qed.

Lemma checkDirty_answer_sameAccepted (c : Chain) (m m' : Monitor) :
  sameAccepted m m' -> fst (checkDirty c m') = fst (checkDirty c m).
Proof.
  intros (K & L & _). rewrite !checkDirty_answer.
  rewrite (fetchValue_kind c m m' K), L.
  unfold bind. destruct (fetchValue c m) as [value|e]; [|reflexivity].
  rewrite (equals_kind m m' _ _ K). reflexivity.
Qed.

Lemma reports_frame (w w' : World) (l : Ref) :
  frame w w' -> reports w' l = reports w l.
Proof.
  intros (C & _ & S). unfold reports. rewrite C.
  apply checkDirty_answer_sameAccepted. apply S.
Qed.

Lemma update_same (l : Ref) (m : Monitor) (st : Store) : update l m st l = m.
Proof. unfold update. rewrite Nat.eqb_refl. reflexivity. Qed.

Lemma update_other (l l' : Ref) (m : Monitor) (st : Store) :
  l' <> l -> update l m st l' = st l'.
Proof. intros H. unfold update. apply Nat.eqb_neq in H. rewrite H. reflexivity. Qed.

(** One dirty check in the store. *)
Lemma atRef_checkDirty (l : Ref) (w : World) :
  atRef l checkDirty w =
    (reports w l,
     mkWorld (dapp w)
       (update l (snd (checkDirty (chain w) (store w l))) (store w)) (chain w)).
Proof.
  unfold atRef, reports.
  destruct (checkDirty (chain w) (store w l)); reflexivity.
Qed.

Lemma atRef_checkDirty_frame (l : Ref) (w : World) :
  frame w (snd (atRef l checkDirty w)).
Proof.
  rewrite atRef_checkDirty. cbn [snd]. split; [reflexivity|]. split; [reflexivity|].
  intros l'. cbn [store].
  destruct (Nat.eq_dec l' l) as [->|Hne].
  - rewrite update_same. apply checkDirty_sameAccepted.
  - rewrite update_other by exact Hne. apply sameAccepted_refl.
Qed.

(** The checks of a group: the answers are those the world it starts from
    gives, the exceptions are not touched, and a monitor that the group
    does not name is not changed. *)
Lemma settleAll_checkDirty (group : Group) (w : World) :
  let w' := snd (settleAll (fun l => atRef l checkDirty) group w) in
  fst (settleAll (fun l => atRef l checkDirty) group w)
    = Ret (map (fun entry => reports w (snd entry)) group) /\
  frame w w' /\
  dapp w' = dapp w /\
  (forall l, ~ In l (map snd group) -> store w' l = store w l).
Proof.
  revert w. induction group as [|[key l] rest IH]; intros w.
  - cbn. repeat split.
  - cbn [settleAll]. unfold bindS, settle, ret.
    rewrite atRef_checkDirty.
    set (w1 := mkWorld (dapp w)
                 (update l (snd (checkDirty (chain w) (store w l))) (store w))
                 (chain w)).
    assert (F1 : frame w w1).
    { pose proof (atRef_checkDirty_frame l w) as F.
      rewrite atRef_checkDirty in F. exact F. }
    destruct (IH w1) as (R & F & D & U).
    destruct (settleAll (fun l0 => atRef l0 checkDirty) rest w1) as [rs w2].
    cbn [fst snd] in *. rewrite R. cbn [fst snd map].
    split; [|split; [|split]].
    + f_equal. f_equal.
      apply map_ext. intros entry. apply reports_frame. exact F1.
    + eapply frame_trans; eassumption.
    + rewrite D. reflexivity.
    + intros l' Hnot. rewrite U.
      * unfold w1. cbn [store]. apply update_other.
        intros ->. apply Hnot. left. reflexivity.
      * intros Hin. apply Hnot. right. exact Hin.
Qed.

(** One turn of the report loop. *)
Lemma reportDirty_cons (key : string) (l : Ref) (rest : Group)
  (res : Outcome bool) (results : list (Outcome bool)) (w : World) :
  reportDirty ((key, l) :: rest) (res :: results) w =
    match res with
    | Throw exc => (Throw (failedToCheck (chain w) (store w l) key exc), w)
    | Ret true =>
        match serializeValue (store w l) (lastValue (store w l)) with
        | Throw e => (Throw e, w)
        | Ret last =>
            match serializeValue (store w l) (dirtyValue (store w l)) with
            | Throw e => (Throw e, w)
            | Ret dirtyText =>
                reportDirty rest results
                  (setExceptions
                     (exceptions (dapp w)
                        ++ [unassertedChange (store w l) key last dirtyText])%list
                     w)
            end
        end
    | Ret false => reportDirty rest results w
    end.
Proof.
  cbn [reportDirty]. destruct res as [[|]|exc]; [|reflexivity|reflexivity].
  unfold_step.
  destruct (serializeValue (store w l) (lastValue (store w l))); [|reflexivity].
  destruct (serializeValue (store w l) (dirtyValue (store w l))); reflexivity.
Qed.

Lemma appended_nothing (w : World) : appended w w [].
Proof. unfold appended. rewrite app_nil_r. reflexivity. Qed.

(** The report loop of a group keeps the store, the chain and the groups,
    and only appends to the exceptions; an answer that is true makes it
    throw or append. *)
Lemma reportDirty_effect (group : Group) (results : list (Outcome bool)) (w : World) :
  let r := fst (reportDirty group results w) in
  let w' := snd (reportDirty group results w) in
  store w' = store w /\
  chain w' = chain w /\
  all (dapp w') = all (dapp w) /\
  exists added,
    appended w w' added /\
    ((exists entry, In (entry, Ret true) (combine group results)) ->
     (exists e, r = Throw e) \/ added <> []).
Proof.
  assert (Hthrow : forall (e : JSError) (w0 : World) (P : Prop),
    store w0 = store w0 /\ chain w0 = chain w0 /\ all (dapp w0) = all (dapp w0) /\
    exists added, appended w0 w0 added /\
      (P -> (exists e', @Throw unit e = Throw e') \/ added <> [])).
  { intros e w0 P. repeat split. exists []. split; [apply appended_nothing|].
    intros _. left. exists e. reflexivity. }
  revert results w.
  induction group as [|[key l] rest IH]; intros results w.
  - cbn. repeat split. exists []. split; [apply appended_nothing|].
    intros [entry H]; cbn in H; contradiction.
  - destruct results as [|res results'].
    + cbn. repeat split. exists []. split; [apply appended_nothing|].
      intros [entry H]; cbn in H; contradiction.
    + rewrite reportDirty_cons. cbn [combine].
      destruct res as [[|]|exc].
      * destruct (serializeValue (store w l) (lastValue (store w l))) as [last|e];
          [|apply Hthrow].
        destruct (serializeValue (store w l) (dirtyValue (store w l)))
          as [dirtyText|e]; [|apply Hthrow].
        set (note := unassertedChange (store w l) key last dirtyText).
        set (w1 := setExceptions (exceptions (dapp w) ++ [note]) w).
        destruct (IH results' w1) as (S & C & A & added & App & _).
        cbv zeta. split; [rewrite S; reflexivity|].
        split; [rewrite C; reflexivity|].
        split; [rewrite A; reflexivity|].
        exists (note :: added). split.
        -- unfold appended in *. rewrite App. unfold w1. cbn.
           rewrite <- app_assoc. reflexivity.
        -- intros _. right. discriminate.
      * destruct (IH results' w) as (S & C & A & added & App & Flag).
        cbv zeta. repeat (split; [assumption|]).
        exists added. split; [exact App|].
        intros [entry [Heq|Hin]]; [inversion Heq|].
        apply Flag. exists entry. exact Hin.
      * apply Hthrow.
Qed.

Lemma in_combine_map {A B : Type} (f : A -> B) (x : A) (xs : list A) :
  In x xs -> In (x, f x) (combine xs (map f xs)).
Proof.
  induction xs as [|y ys IH]; intros H; [destruct H|].
  cbn. destruct H as [->|H]; [left; reflexivity|right; apply IH; exact H].
Qed.

(** The check of one group. *)
Lemma checkDirtyGroup_effect (group : Group) (w : World) :
  let r := fst (_checkDirty group w) in
  let w' := snd (_checkDirty group w) in
  frame w w' /\
  exists added,
    appended w w' added /\
    (forall key l, In (key, l) group -> reports w l = Ret true ->
       (exists e, r = Throw e) \/ added <> []).
Proof.
  unfold _checkDirty, bindS.
  destruct (settleAll_checkDirty group w) as (R & F & D & _).
  destruct (settleAll (fun l => atRef l checkDirty) group w) as [rs w1].
  cbn [fst snd] in *. subst rs.
  set (answers := map (fun entry => reports w (snd entry)) group).
  destruct (reportDirty_effect group answers w1) as (S & C & A & added & App & Flag).
  cbv zeta. split.
  - eapply frame_trans; [exact F|].
    split; [exact C|]. split; [exact A|].
    intros l. rewrite S. apply sameAccepted_refl.
  - exists added. split.
    + unfold appended in *. rewrite App, D. reflexivity.
    + intros key l Hin Hrep. apply Flag.
      exists (key, l). rewrite <- Hrep.
      apply (in_combine_map (fun entry => reports w (snd entry)) (key, l)).
      exact Hin.
Qed.

(** The checks of the groups, one after the other. *)
Lemma checkDirtyGroups_effect (groups : list Group) (w : World) :
  exists results w' added,
    checkDirtyGroups groups w = (Ret results, w') /\
    frame w w' /\
    appended w w' added /\
    (forall group key l, In group groups -> In (key, l) group ->
       reports w l = Ret true ->
       (exists e, firstThrow results = Throw e) \/ added <> []).
Proof.
  revert w. induction groups as [|group rest IH]; intros w.
  - exists [], w, []. split; [reflexivity|]. split; [apply frame_refl|].
    split; [unfold appended; rewrite app_nil_r; reflexivity|].
    intros group key l [].
  - cbn [checkDirtyGroups]. unfold bindS at 1. unfold settle.
    destruct (checkDirtyGroup_effect group w) as (F1 & added1 & App1 & Flag1).
    destruct (_checkDirty group w) as [r w1].
    cbn [fst snd] in *.
    destruct (IH w1) as (results & w2 & added2 & E & F2 & App2 & Flag2).
    unfold bindS. rewrite E. unfold ret.
    exists (r :: results), w2, (added1 ++ added2)%list.
    split; [reflexivity|]. split; [eapply frame_trans; eassumption|].
    split.
    + unfold appended in *. rewrite App2, App1, app_assoc. reflexivity.
    + intros g key l [<-|Hg] Hin Hrep.
      * destruct (Flag1 key l Hin Hrep) as [[e ->]|Hne].
        -- left. exists e. reflexivity.
        -- right. intros Heq. apply app_eq_nil in Heq. apply Hne, Heq.
      * assert (Hrep1 : reports w1 l = Ret true)
          by (rewrite (reports_frame w w1 l F1); exact Hrep).
        destruct (Flag2 g key l Hg Hin Hrep1) as [[e He]|Hne].
        -- left. destruct r as [[]|e0]; cbn [firstThrow];
             [exists e; exact He|exists e0; reflexivity].
        -- right. intros Heq. apply app_eq_nil in Heq. apply Hne, Heq.
Qed.

(** [DappState.checkDirty()] as a whole. *)
Lemma DappState_checkDirty_effect (w : World) :
  let r := fst (DappState_checkDirty w) in
  let w' := snd (DappState_checkDirty w) in
  frame w w' /\
  exists added,
    appended w w' added /\
    (forall key l, In (key, l) (entries (dapp w)) -> reports w l = Ret true ->
       (exists e, r = Throw e) \/ added <> []).
Proof.
  unfold DappState_checkDirty, bindS, get, lift.
  destruct (checkDirtyGroups_effect (all (dapp w)) w)
    as (results & w' & added & E & F & App & Flag).
  rewrite E. cbn [fst snd].
  split; [exact F|]. exists added. split; [exact App|].
  intros key l Hin Hrep.
  unfold entries in Hin. apply in_concat in Hin.
  destruct Hin as (group & Hg & Hin).
  exact (Flag group key l Hg Hin Hrep).
Qed.

(** A monitor whose fetched value [equals] tells apart from its accepted
    value answers true to the dirty check. *)
Lemma drifted_reports_dirty (w : World) (l : Ref) (value : JSValue) :
  fetchValue (chain w) (store w l) = Ret value ->
  equals (store w l) value (lastValue (store w l)) = Ret false ->
  reports w l = Ret true.
Proof.
  intros Hfetch Heq. unfold reports.
  rewrite checkDirty_answer, Hfetch. cbn [bind]. rewrite Heq. reflexivity.
Qed.

Lemma assertNoExceptions_nonempty (w : World) :
  exceptions (dapp w) <> [] ->
  exists e, assertNoExceptions w = (Throw e, w).
Proof.
  intros H. unfold assertNoExceptions, bindS, get.
  destruct (exceptions (dapp w)) as [|exc es]; [contradiction|].
  eexists. reflexivity.
Qed.

(** C3: when some monitor of the aggregator is dirty, its fetched value
    being told apart from its accepted value by [equals], a call through a
    wallet throws, whatever the operation is, and leaves the chain as it
    was: the check and the assertion come first and the operation is not
    run. *)
Theorem call_refused_while_dirty (w : World) (self : Ref) (address : string)
  (params : list JSValue) (key : string) (l : Ref) (value : JSValue) :
  kind (store w self) = ETHAddress address ->
  In (key, l) (entries (dapp w)) ->
  fetchValue (chain w) (store w l) = Ret value ->
  equals (store w l) value (lastValue (store w l)) = Ret false ->
  exists e w',
    chain w' = chain w /\
    forall contractMethod : Operation,
      call self contractMethod params w = (Throw e, w').
Proof.
  intros Hkind Hin Hfetch Heq.
  pose proof (drifted_reports_dirty w l value Hfetch Heq) as Hrep.
  destruct (DappState_checkDirty_effect w) as (F & added & App & Flag).
  specialize (Flag key l Hin Hrep).
  destruct (DappState_checkDirty w) as [r w1] eqn:Hcheck.
  cbn [fst snd] in *.
  destruct r as [[]|e].
  - destruct Flag as [[e He]|Hne]; [discriminate He|].
    assert (Hex : exceptions (dapp w1) <> []).
    { unfold appended in App. rewrite App. intros Hnil.
      apply app_eq_nil in Hnil. apply Hne, Hnil. }
    destruct (assertNoExceptions_nonempty w1 Hex) as [e He].
    exists e, w1. split; [apply F|].
    intros contractMethod. unfold call. unfold bindS at 1. unfold get at 1.
    rewrite Hkind. unfold bindS at 1. rewrite Hcheck.
    unfold bindS at 1. rewrite He. reflexivity.
  - exists e, w1. split; [apply F|].
    intros contractMethod. unfold call. unfold bindS at 1. unfold get at 1.
    rewrite Hkind. unfold bindS at 1. rewrite Hcheck. reflexivity.
Qed.

Lemma call_refused_while_dirty_witness :
  let w := oneWallet (newETHAddress "0xA11CE" (mkBN 100)) (steadyChain 90 VNull 1) [] in
  exists e w',
    chain w' = chain w /\
    forall contractMethod : Operation,
      call 0%nat contractMethod [] w = (Throw e, w').
Proof.
  exact (call_refused_while_dirty
           (oneWallet (newETHAddress "0xA11CE" (mkBN 100)) (steadyChain 90 VNull 1) [])
           0%nat "0xA11CE" [] "alice" 0%nat (mkBN 90)
           eq_refl (or_introl eq_refl) eq_refl eq_refl).
Defined.

Lemma expectGas_effect (gasAmount : Z) (m : Monitor) :
  expectGas gasAmount m =
    (Ret tt, setExpectedGas (Some (gasSoFar (expectedGas m) + gasAmount)) m).
Proof. unfold expectGas, bindS, get, modify, gasSoFar. reflexivity. Qed.

Lemma assertNoExceptions_empty (w : World) :
  exceptions (dapp w) = [] -> assertNoExceptions w = (Ret tt, w).
Proof.
  intros H. unfold assertNoExceptions, bindS, get. rewrite H. reflexivity.
Qed.

(** C6: in a call that passes the dirty check, when the operation throws
    an error that carries a receipt, the gas cost computed from the receipt
    is added to [expectedGas] and the same error is thrown again; when the
    error carries no receipt, [expectedGas] stays as it was and the same
    error is thrown again. *)
Theorem failed_call_accounts_gas (w : World) (self : Ref) (address : string)
  (contractMethod : Operation) (params params' : list JSValue)
  (exc : JSError) (after : Chain) (gas : Z) :
  kind (store w self) = ETHAddress address ->
  fst (DappState_checkDirty w) = Ret tt ->
  exceptions (dapp (snd (DappState_checkDirty w))) = [] ->
  withFrom address params = Ret params' ->
  contractMethod params' (chain w) = (Throw exc, after) ->
  (truthy (receipt exc) = true -> gasForReceipt after (receipt exc) = Ret gas) ->
  exists w',
    call self contractMethod params w = (Throw exc, w') /\
    chain w' = after /\
    expectedGas (store w' self) =
      if truthy (receipt exc)
      then Some (gasSoFar (expectedGas (store w self)) + gas)
      else expectedGas (store w self).
Proof.
  intros Hkind Hcheck Hnone Hfrom Hop Hgas.
  destruct (DappState_checkDirty_effect w) as (F & _).
  destruct (DappState_checkDirty w) as [r w1] eqn:Hpass.
  cbn [fst snd] in *. subst r.
  destruct F as (Hchain & _ & Hsame).
  destruct (Hsame self) as (_ & _ & Hgas1).
  unfold call. unfold bindS at 1. unfold get at 1. rewrite Hkind.
  unfold bindS at 1. rewrite Hpass.
  unfold bindS at 1. rewrite (assertNoExceptions_empty w1 Hnone).
  unfold bindS at 1. unfold lift at 1. rewrite Hfrom.
  unfold bindS at 1. unfold settle at 1.
  unfold bindS at 1. unfold invoke at 1. rewrite Hchain, Hop.
  destruct (truthy (receipt exc)) eqn:Htruthy.
  - unfold bindS at 1. unfold bindS at 1. unfold get at 1.
    unfold bindS at 1. unfold lift at 1. cbn [chain].
    rewrite (Hgas eq_refl).
    unfold atRef. cbn [chain store dapp]. rewrite expectGas_effect.
    unfold throw. eexists. split; [reflexivity|].
    split; [reflexivity|].
    cbn [store]. rewrite update_same. cbn [expectedGas setExpectedGas].
    rewrite Hgas1. reflexivity.
  - unfold bindS at 1. unfold ret, throw. eexists. split; [reflexivity|].
    split; [reflexivity|]. cbn [store]. exact Hgas1.
Qed.

(** The other branch of the same call: an operation that returns has the
    gas cost of its receipt added to [expectedGas], and its result is
    returned. *)
Lemma successful_call_accounts_gas (w : World) (self : Ref) (address : string)
  (contractMethod : Operation) (params params' : list JSValue)
  (result : JSValue) (after : Chain) (gas : Z) :
  kind (store w self) = ETHAddress address ->
  fst (DappState_checkDirty w) = Ret tt ->
  exceptions (dapp (snd (DappState_checkDirty w))) = [] ->
  withFrom address params = Ret params' ->
  contractMethod params' (chain w) = (Ret result, after) ->
  gasForCall after result = Ret gas ->
  exists w',
    call self contractMethod params w = (Ret result, w') /\
    chain w' = after /\
    kind (store w' self) = kind (store w self) /\
    lastValue (store w' self) = lastValue (store w self) /\
    expectedGas (store w' self) = Some (gasSoFar (expectedGas (store w self)) + gas).
Proof.
  intros Hkind Hcheck Hnone Hfrom Hop Hgas.
  destruct (DappState_checkDirty_effect w) as (F & _).
  destruct (DappState_checkDirty w) as [r w1] eqn:Hpass.
  cbn [fst snd] in *. subst r.
  destruct F as (Hchain & _ & Hsame).
  destruct (Hsame self) as (Hkind1 & Hlast1 & Hgas1).
  unfold call. unfold bindS at 1. unfold get at 1. rewrite Hkind.
  unfold bindS at 1. rewrite Hpass.
  unfold bindS at 1. rewrite (assertNoExceptions_empty w1 Hnone).
  unfold bindS at 1. unfold lift at 1. rewrite Hfrom.
  unfold bindS at 1. unfold settle at 1.
  unfold bindS at 1. unfold invoke at 1. rewrite Hchain, Hop.
  unfold bindS at 1. unfold get at 1.
  unfold bindS at 1. unfold lift at 1. cbn [chain]. rewrite Hgas.
  unfold bindS at 1. unfold atRef. cbn [chain store dapp].
  rewrite expectGas_effect. unfold ret.
  eexists. split; [reflexivity|]. split; [reflexivity|].
  cbn [store]. rewrite update_same. cbn [kind lastValue expectedGas setExpectedGas].
  rewrite Hgas1. split; [congruence|]. split; [exact Hlast1|reflexivity].
Qed.

(** C2, as the code has it: a wallet that accepted the balance 100 makes a
    call that passes the dirty check and is mined for the gas cost g, and the
    balance is then 100 - v - g.  The call leaves [expectedGas] at g, and
    after it [expectFallsBy(v)] succeeds and [expect(100 - v)] succeeds as
    well: both go through [adjustExpectation], which subtracts
    [expectedGas] when it is set and returns the value unchanged when it is
    null.  With [expectedGas] null the same [expect(100 - v)] fails with an
    assertion error when g is not zero. *)
Theorem gas_compensation (w : World) (self : Ref) (address : string)
  (own : list (string * JSValue)) (contractMethod : Operation)
  (params params' : list JSValue) (result : JSValue) (after : Chain) (g v : Z) :
  kind (store w self) = ETHAddress address ->
  lastValue (store w self) = VBN 100 own ->
  expectedGas (store w self) = None ->
  fst (DappState_checkDirty w) = Ret tt ->
  exceptions (dapp (snd (DappState_checkDirty w))) = [] ->
  withFrom address params = Ret params' ->
  contractMethod params' (chain w) = (Ret result, after) ->
  gasForCall after result = Ret g ->
  getBalance after address = Ret (100 - v - g) ->
  exists w',
    call self contractMethod params w = (Ret result, w') /\
    expectedGas (store w' self) = Some g /\
    fst (expectFallsBy (chain w') (mkBN v) (store w' self)) = Ret tt /\
    fst (expect (chain w') (mkBN (100 - v)) (store w' self)) = Ret tt /\
    (forall value,
       adjustExpectation (store w' self) value = valueSub value (mkBN g)) /\
    (forall value, adjustExpectation (store w self) value = Ret value) /\
    (g <> 0 ->
     exists msg,
       fst (expect (chain w') (mkBN (100 - v)) (setExpectedGas None (store w' self)))
         = Throw (AssertionError msg)).
Proof.
  intros Hkind Hlast Hnogas Hcheck Hnone Hfrom Hop Hgas Hbal.
  destruct (successful_call_accounts_gas w self address contractMethod params
              params' result after g Hkind Hcheck Hnone Hfrom Hop Hgas)
    as (w' & Hcall & Hchain & Hkind' & Hlast' & Hgas').
  rewrite Hnogas in Hgas'. cbn [gasSoFar Z.add] in Hgas'.
  rewrite Hlast in Hlast'. rewrite Hkind in Hkind'.
  exists w'. split; [exact Hcall|]. split; [exact Hgas'|].
  rewrite Hchain.
  destruct (store w' self) as [k last d dv gas] eqn:Hm.
  cbn [kind lastValue expectedGas] in *. subst k last gas.
  destruct (wallet_expectations after address own d dv g v Hbal)
    as (H1 & H2 & H3 & H4 & H5).
  split; [exact H1|]. split; [exact H2|]. split; [exact H3|].
  split; [|exact H5].
  intros value. unfold adjustExpectation. rewrite Hkind, Hnogas. reflexivity.
Qed.

Lemma gas_compensation_witness :
  let w := oneWallet (newETHAddress "0xA11CE" (mkBN 100)) (steadyChain 100 VNull 1) [] in
  exists w',
    call 0%nat (minedTransfer 100 10 2 1) [] w
      = (Ret (VObj [("receipt", VObj [("gasUsed", VNum 2)])]), w') /\
    expectedGas (store w' 0%nat) = Some 2 /\
    fst (expectFallsBy (chain w') (mkBN 10) (store w' 0%nat)) = Ret tt /\
    fst (expect (chain w') (mkBN 90) (store w' 0%nat)) = Ret tt.
Proof.
  destruct (gas_compensation
              (oneWallet (newETHAddress "0xA11CE" (mkBN 100))
                 (steadyChain 100 VNull 1) [])
              0%nat "0xA11CE" (bnFields 100) (minedTransfer 100 10 2 1)
              [] [VObj [("from", VStr "0xA11CE")]]
              (VObj [("receipt", VObj [("gasUsed", VNum 2)])])
              (steadyChain 88 VNull 1) 2 10
              eq_refl eq_refl eq_refl eq_refl eq_refl eq_refl eq_refl eq_refl eq_refl)
    as (w' & Hcall & Hgas & Hfalls & Hexpect & _).
  exists w'. split; [exact Hcall|].
  split; [exact Hgas|]. split; [exact Hfalls|exact Hexpect].
Defined.

(** C2, as stated, fails: a wallet at balance 100 makes a call that is
    mined, sends 10 and costs 2 of gas; after it [expectFallsBy(10)]
    succeeds and [expect(90)] does not fail, it succeeds too. *)
Lemma expect_ignoring_gas_succeeds :
  let w := oneWallet (newETHAddress "0xA11CE" (mkBN 100)) (steadyChain 100 VNull 1) [] in
  let after := snd (call 0%nat (minedTransfer 100 10 2 1) [] w) in
  getBalance (chain after) "0xA11CE" = Ret 88 /\
  lastValue (store after 0%nat) = mkBN 100 /\
  expectedGas (store after 0%nat) = Some 2 /\
  fst (expectFallsBy (chain after) (mkBN 10) (store after 0%nat)) = Ret tt /\
  fst (expect (chain after) (mkBN 90) (store after 0%nat)) = Ret tt.
Proof. vm_compute. repeat split. Qed.

Lemma failed_call_accounts_gas_witness :
  let w := oneWallet (newETHAddress "0xA11CE" (mkBN 100000))
             (steadyChain 100000 VNull 3) [] in
  let after := steadyChain 99937 VNull 3 in
  let reverted := mkJSError "Error" "revert" (VObj [("gasUsed", VNum 21)]) in
  let rejected := Error "nonce too low" in
  (exists w',
     call 0%nat (failingOperation reverted after) [] w = (Throw reverted, w') /\
     chain w' = after /\
     expectedGas (store w' 0%nat) = Some 63) /\
  (exists w',
     call 0%nat (failingOperation rejected (chain w)) [] w = (Throw rejected, w') /\
     chain w' = chain w /\
     expectedGas (store w' 0%nat) = None).
Proof.
  cbv zeta. split.
  - exact (failed_call_accounts_gas
             (oneWallet (newETHAddress "0xA11CE" (mkBN 100000))
                (steadyChain 100000 VNull 3) [])
             0%nat "0xA11CE"
             (failingOperation
                (mkJSError "Error" "revert" (VObj [("gasUsed", VNum 21)]))
                (steadyChain 99937 VNull 3))
             [] [VObj [("from", VStr "0xA11CE")]]
             (mkJSError "Error" "revert" (VObj [("gasUsed", VNum 21)]))
             (steadyChain 99937 VNull 3) 63
             eq_refl eq_refl eq_refl eq_refl eq_refl (fun _ => eq_refl)).
  - exact (failed_call_accounts_gas
             (oneWallet (newETHAddress "0xA11CE" (mkBN 100000))
                (steadyChain 100000 VNull 3) [])
             0%nat "0xA11CE"
             (failingOperation (Error "nonce too low") (steadyChain 100000 VNull 3))
             [] [VObj [("from", VStr "0xA11CE")]]
             (Error "nonce too low")
             (steadyChain 100000 VNull 3) 0
             eq_refl eq_refl eq_refl eq_refl eq_refl
             (fun H : false = true => match Bool.diff_false_true H with end)).
Defined.

(** ** One dirty monitor *)

Open Scope list_scope.

Lemma serializeValue_kind (m m' : Monitor) (v : JSValue) :
  kind m' = kind m -> serializeValue m' v = serializeValue m v.
Proof. intros H. unfold serializeValue. rewrite H. reflexivity. Qed.

Lemma type_kind (m m' : Monitor) : kind m' = kind m -> type m' = type m.
Proof. intros H. unfold type. rewrite H. reflexivity. Qed.

(** Two values that [equals] could compare can both be serialized. *)
Lemma serializeValue_after_equals (m : Monitor) (a b : JSValue) (r : bool) :
  equals m a b = Ret r ->
  exists ta tb, serializeValue m a = Ret ta /\ serializeValue m b = Ret tb.
Proof.
  unfold equals, serializeValue.
  destruct (kind m).
  - destruct a; try discriminate. destruct b; try discriminate.
    intros _. eexists. eexists. split; reflexivity.
  - destruct a; try discriminate. destruct b; try discriminate.
    intros _. eexists. eexists. split; reflexivity.
  - intros _. destruct (JSONstringify a), (JSONstringify b);
      eexists; eexists; split; reflexivity.
Qed.

(** After the checks of a group, a monitor of the group that drifted holds
    the fetched value as its [dirtyValue]. *)
Lemma settleAll_checkDirty_dirtyValue (group : Group) (w : World)
  (l : Ref) (value : JSValue) :
  In l (map snd group) ->
  fetchValue (chain w) (store w l) = Ret value ->
  equals (store w l) value (lastValue (store w l)) = Ret false ->
  dirtyValue (store (snd (settleAll (fun l0 => atRef l0 checkDirty) group w)) l)
    = value.
Proof.
  revert w. induction group as [|[key l0] rest IH]; intros w Hin Hfetch Heq.
  - destruct Hin.
  - cbn [settleAll]. unfold bindS, settle, ret.
    rewrite atRef_checkDirty.
    set (w1 := mkWorld (dapp w)
                 (update l0 (snd (checkDirty (chain w) (store w l0))) (store w))
                 (chain w)).
    assert (F1 : frame w w1).
    { pose proof (atRef_checkDirty_frame l0 w) as F.
      rewrite atRef_checkDirty in F. exact F. }
    destruct (settleAll_checkDirty rest w1) as (R & _ & _ & U).
    specialize (IH w1).
    destruct (settleAll (fun l1 => atRef l1 checkDirty) rest w1) as [rs w2].
    cbn [fst snd] in *. subst rs. cbn [snd].
    destruct (in_dec Nat.eq_dec l (map snd rest)) as [Hrest|Hrest].
    + apply IH; [exact Hrest| |].
      * destruct F1 as (C & _ & S). destruct (S l) as (K & _ & _).
        rewrite C, (fetchValue_kind (chain w) (store w l) (store w1 l) K).
        exact Hfetch.
      * destruct F1 as (_ & _ & S). destruct (S l) as (K & L & _).
        rewrite (equals_kind (store w l) (store w1 l) _ _ K), L. exact Heq.
    + rewrite (U l Hrest).
      destruct Hin as [Hl|Hin]; [|contradiction].
      cbn [snd] in Hl. subst l0. unfold w1. cbn [store].
      rewrite update_same, checkDirty_cases, Hfetch, Heq. reflexivity.
Qed.

(** A report loop over answers that are all false does nothing. *)
Lemma reportDirty_clean (group : Group) (results : list (Outcome bool)) (w : World) :
  (forall r, In r results -> r = Ret false) ->
  reportDirty group results w = (Ret tt, w).
Proof.
  revert results. induction group as [|[key l] rest IH]; intros results H.
  - reflexivity.
  - destruct results as [|res results']; [reflexivity|].
    rewrite reportDirty_cons, (H res (or_introl eq_refl)).
    apply IH. intros r Hr. apply H. right. exact Hr.
Qed.

(** The check of a group whose monitors all answer false. *)
Lemma checkDirtyGroup_clean (group : Group) (w : World) :
  (forall key l, In (key, l) group -> reports w l = Ret false) ->
  exists w',
    _checkDirty group w = (Ret tt, w') /\
    frame w w' /\
    exceptions (dapp w') = exceptions (dapp w).
Proof.
  intros Hclean. unfold _checkDirty, bindS.
  destruct (settleAll_checkDirty group w) as (R & F & D & _).
  destruct (settleAll (fun l => atRef l checkDirty) group w) as [rs w1].
  cbn [fst snd] in *. subst rs.
  exists w1. split; [|split; [exact F|rewrite D; reflexivity]].
  apply reportDirty_clean. intros r Hr.
  apply in_map_iff in Hr. destruct Hr as ([key l] & <- & Hin).
  apply (Hclean key l Hin).
Qed.

Lemma checkDirtyGroups_clean (groups : list Group) (w : World) :
  (forall key l, In (key, l) (List.concat groups) -> reports w l = Ret false) ->
  exists results w',
    checkDirtyGroups groups w = (Ret results, w') /\
    firstThrow results = Ret tt /\
    frame w w' /\
    exceptions (dapp w') = exceptions (dapp w).
Proof.
  revert w. induction groups as [|group rest IH]; intros w Hclean.
  - exists [], w. repeat split.
  - cbn [checkDirtyGroups]. unfold bindS at 1. unfold settle.
    destruct (checkDirtyGroup_clean group w) as (w1 & E1 & F1 & X1).
    { intros key l Hin. apply (Hclean key l). cbn [List.concat].
      apply in_or_app. left. exact Hin. }
    rewrite E1.
    destruct (IH w1) as (results & w2 & E2 & T2 & F2 & X2).
    { intros key l Hin. rewrite (reports_frame w w1 l F1).
      apply (Hclean key l). cbn [List.concat]. apply in_or_app. right. exact Hin. }
    unfold bindS. rewrite E2. unfold ret.
    exists (Ret tt :: results), w2.
    split; [reflexivity|]. split; [exact T2|].
    split; [eapply frame_trans; eassumption|congruence].
Qed.

Lemma frame_setExceptions (es : list JSError) (w : World) : frame w (setExceptions es w).
Proof. repeat split. Qed.

Lemma unassertedChange_kind (m m' : Monitor) (key : string) (last dirtyText : JSValue) :
  kind m' = kind m ->
  unassertedChange m' key last dirtyText = unassertedChange m key last dirtyText.
Proof. intros H. unfold unassertedChange. rewrite (type_kind m m' H). reflexivity. Qed.

(** The report loop of a group in which one answer is true. *)
Lemma reportDirty_one_dirty (pre post : Group) (key : string) (l : Ref)
  (w : World) (last dirtyText : JSValue) :
  serializeValue (store w l) (lastValue (store w l)) = Ret last ->
  serializeValue (store w l) (dirtyValue (store w l)) = Ret dirtyText ->
  reportDirty (pre ++ (key, l) :: post)
    (map (fun _ => Ret false) pre ++ Ret true :: map (fun _ => Ret false) post) w
  = (Ret tt,
     setExceptions
       (exceptions (dapp w) ++ [unassertedChange (store w l) key last dirtyText]) w).
Proof.
  intros Hlast Hdirty. induction pre as [|[k0 l0] pre IH].
  - cbn [app map]. rewrite reportDirty_cons, Hlast, Hdirty.
    apply reportDirty_clean. intros r Hr.
    apply in_map_iff in Hr. destruct Hr as (entry & <- & _). reflexivity.
  - cbn [app map]. rewrite reportDirty_cons. exact IH.
Qed.

(** What the frame of a pass keeps of a drifted monitor. *)
Lemma drift_frame (w w1 : World) (l : Ref) (value : JSValue) :
  frame w w1 ->
  fetchValue (chain w) (store w l) = Ret value ->
  equals (store w l) value (lastValue (store w l)) = Ret false ->
  fetchValue (chain w1) (store w1 l) = Ret value /\
  equals (store w1 l) value (lastValue (store w1 l)) = Ret false.
Proof.
  intros (C & _ & S) Hfetch Heq. destruct (S l) as (K & L & _).
  rewrite C, (fetchValue_kind (chain w) (store w l) (store w1 l) K).
  rewrite (equals_kind (store w l) (store w1 l) _ _ K), L.
  split; assumption.
Qed.

(** The check of a group in which one monitor drifted and the others
    answer false. *)
Lemma checkDirtyGroup_one_dirty (pre post : Group) (key : string) (l : Ref)
  (w : World) (value last dirtyText : JSValue) :
  (forall k l', In (k, l') (pre ++ post) -> reports w l' = Ret false) ->
  fetchValue (chain w) (store w l) = Ret value ->
  equals (store w l) value (lastValue (store w l)) = Ret false ->
  serializeValue (store w l) (lastValue (store w l)) = Ret last ->
  serializeValue (store w l) value = Ret dirtyText ->
  exists w',
    _checkDirty (pre ++ (key, l) :: post) w = (Ret tt, w') /\
    frame w w' /\
    exceptions (dapp w') =
      (exceptions (dapp w) ++ [unassertedChange (store w l) key last dirtyText])%list.
Proof.
  intros Hclean Hfetch Heq Hlast Hdirty.
  set (group := (pre ++ (key, l) :: post)%list).
  assert (Hl : In l (map snd group)).
  { unfold group. rewrite map_app. apply in_or_app. right. left. reflexivity. }
  pose proof (settleAll_checkDirty_dirtyValue group w l value Hl Hfetch Heq) as Hdv.
  unfold _checkDirty, bindS.
  destruct (settleAll_checkDirty group w) as (R & F & D & _).
  destruct (settleAll (fun l0 => atRef l0 checkDirty) group w) as [rs w1].
  cbn [fst snd] in *. subst rs.
  destruct F as (C & A & S). destruct (S l) as (K & L & G).
  assert (Hanswers : map (fun entry => reports w (snd entry)) group =
            (map (fun _ => Ret false) pre ++ Ret true
               :: map (fun _ => Ret false) post)%list).
  { unfold group. rewrite map_app. cbn [map snd].
    rewrite (drifted_reports_dirty w l value Hfetch Heq).
    f_equal; [|f_equal]; apply map_ext_in; intros [k l'] Hin;
      apply (Hclean k l'); apply in_or_app; [left|right]; exact Hin. }
  rewrite Hanswers. unfold group.
  rewrite (reportDirty_one_dirty pre post key l w1 last dirtyText).
  - eexists. split; [reflexivity|]. split.
    + eapply frame_trans; [|apply frame_setExceptions].
      split; [exact C|]. split; [exact A|exact S].
    + cbn. rewrite D, (unassertedChange_kind (store w l) (store w1 l) _ _ _ K).
      reflexivity.
  - rewrite (serializeValue_kind (store w l) (store w1 l) _ K), L. exact Hlast.
  - rewrite (serializeValue_kind (store w l) (store w1 l) _ K), Hdv. exact Hdirty.
Qed.

Lemma checkDirtyGroups_one_dirty (before after : list Group) (pre post : Group)
  (key : string) (l : Ref) (w : World) (value last dirtyText : JSValue) :
  (forall k l',
     In (k, l') (List.concat before ++ pre ++ post ++ List.concat after) ->
     reports w l' = Ret false) ->
  fetchValue (chain w) (store w l) = Ret value ->
  equals (store w l) value (lastValue (store w l)) = Ret false ->
  serializeValue (store w l) (lastValue (store w l)) = Ret last ->
  serializeValue (store w l) value = Ret dirtyText ->
  exists results w',
    checkDirtyGroups (before ++ (pre ++ (key, l) :: post) :: after) w
      = (Ret results, w') /\
    firstThrow results = Ret tt /\
    exceptions (dapp w') =
      (exceptions (dapp w) ++ [unassertedChange (store w l) key last dirtyText])%list.
Proof.
  revert w. induction before as [|group before IH];
    intros w Hclean Hfetch Heq Hlast Hdirty.
  - cbn [app List.concat] in *. cbn [checkDirtyGroups].
    unfold bindS at 1. unfold settle.
    destruct (checkDirtyGroup_one_dirty pre post key l w value last dirtyText)
      as (w1 & E1 & F1 & X1); try assumption.
    { intros k l' Hin. apply (Hclean k l').
      apply in_app_or in Hin. apply in_or_app.
      destruct Hin as [Hin|Hin]; [left; exact Hin|].
      right. apply in_or_app. left. exact Hin. }
    rewrite E1.
    destruct (checkDirtyGroups_clean after w1) as (results & w2 & E2 & T2 & _ & X2).
    { intros k l' Hin. rewrite (reports_frame w w1 l' F1).
      apply (Hclean k l'). apply in_or_app. right. apply in_or_app. right. exact Hin. }
    unfold bindS. rewrite E2. unfold ret.
    exists (Ret tt :: results), w2.
    split; [reflexivity|]. split; [exact T2|]. rewrite X2. exact X1.
  - cbn [app checkDirtyGroups]. unfold bindS at 1. unfold settle.
    destruct (checkDirtyGroup_clean group w) as (w1 & E1 & F1 & X1).
    { intros k l' Hin. apply (Hclean k l'). cbn [List.concat].
      apply in_or_app. left. apply in_or_app. left. exact Hin. }
    rewrite E1.
    destruct (drift_frame w w1 l value F1 Hfetch Heq) as (Hfetch1 & Heq1).
    destruct F1 as (C & A & S). destruct (S l) as (K & L & G).
    destruct (IH w1) as (results & w2 & E2 & T2 & X2); try assumption.
    { intros k l' Hin. rewrite (reports_frame w w1 l').
      - apply (Hclean k l'). cbn [List.concat]. rewrite <- app_assoc.
        apply in_or_app. right. exact Hin.
      - split; [exact C|]. split; [exact A|exact S]. }
    { rewrite (serializeValue_kind (store w l) (store w1 l) _ K), L. exact Hlast. }
    { rewrite (serializeValue_kind (store w l) (store w1 l) _ K). exact Hdirty. }
    unfold bindS. rewrite E2. unfold ret.
    exists (Ret tt :: results), w2.
    split; [reflexivity|]. split; [exact T2|].
    rewrite X2, X1, (unassertedChange_kind (store w l) (store w1 l) _ _ _ K).
    reflexivity.
Qed.

(** The serialized text of a bn.js instance in a contract monitor is that
    of its [toJSON], an even number of base 16 digits in quotes. *)
Example serializeValue_contract_bn :
  serializeValue (newContractState "0xC0DE" "count" [] None) (mkBN 5)
    = Ret (VStr (dq ++ "05" ++ dq)) /\
  serializeValue (newETHAddress "0xA11CE" VNull) (mkBN 5) = Ret (VStr "5").
Proof. split; reflexivity. Qed.

(** C5, as the code has it: when one monitor M of the groups drifted and
    every other monitor answers false to its check, [checkDirty()] of the
    aggregator returns and appends one entry to the exceptions, after those
    already queued; its message is M's type, a dot, M's name, and
    ": un-asserted state change detected (last) => (dirty)" with the
    serialized accepted and fetched values. *)
Theorem one_dirty_monitor_one_entry (w : World) (before after : list Group)
  (pre post : Group) (key : string) (l : Ref) (value : JSValue) :
  all (dapp w) = (before ++ (pre ++ (key, l) :: post) :: after)%list ->
  (forall k l',
     In (k, l') (List.concat before ++ pre ++ post ++ List.concat after) ->
     reports w l' = Ret false) ->
  fetchValue (chain w) (store w l) = Ret value ->
  equals (store w l) value (lastValue (store w l)) = Ret false ->
  exists last dirtyText w',
    serializeValue (store w l) (lastValue (store w l)) = Ret last /\
    serializeValue (store w l) value = Ret dirtyText /\
    DappState_checkDirty w = (Ret tt, w') /\
    exceptions (dapp w') =
      (exceptions (dapp w) ++
       [Error (type (store w l) ++ "." ++ key
                 ++ ": un-asserted state change detected ("
                 ++ toStringJS last ++ ") => (" ++ toStringJS dirtyText ++ ")")%string]).
Proof.
  intros Hall Hclean Hfetch Heq.
  destruct (serializeValue_after_equals _ _ _ _ Heq) as (dirtyText & last & Hd & Hl).
  destruct (checkDirtyGroups_one_dirty before after pre post key l w value
              last dirtyText Hclean Hfetch Heq Hl Hd)
    as (results & w' & E & T & X).
  exists last, dirtyText, w'.
  split; [exact Hl|]. split; [exact Hd|]. split; [|exact X].
  unfold DappState_checkDirty, bindS, get, lift. rewrite Hall, E, T. reflexivity.
Qed.

Lemma one_dirty_monitor_one_entry_witness :
  exists w',
    DappState_checkDirty threeMonitors = (Ret tt, w') /\
    exceptions (dapp w') =
      [Error "eth-wallet.alice: un-asserted state change detected (100) => (90)"].
Proof.
  destruct (one_dirty_monitor_one_entry threeMonitors
              [] [[("token", 1%nat)]; [("owner", 2%nat)]] [] []
              "alice" 0%nat (mkBN 90) eq_refl)
    as (last & dirtyText & w' & Hlast & Hdirty & Hpass & Hex).
  - intros k l' Hin. cbn in Hin.
    destruct Hin as [Hin|[Hin|[]]]; inversion Hin; reflexivity.
  - reflexivity.
  - reflexivity.
  - exists w'. split; [exact Hpass|].
    rewrite Hex. inversion Hlast. inversion Hdirty. reflexivity.
Defined.

(** C5, as stated, fails: a second [checkDirty()] over the same drift, with
    no reset in between, finds one dirty monitor, every fetch succeeds, and
    the exceptions then hold two entries, the one queued by the first pass
    and the one it appends. *)
Lemma second_pass_two_entries :
  let w1 := snd (DappState_checkDirty threeMonitors) in
  let w2 := snd (DappState_checkDirty w1) in
  map (reports w1) [0%nat; 1%nat; 2%nat] = [Ret true; Ret false; Ret false] /\
  fst (DappState_checkDirty w1) = Ret tt /\
  map message (exceptions (dapp w2)) =
    ["eth-wallet.alice: un-asserted state change detected (100) => (90)"%string;
     "eth-wallet.alice: un-asserted state change detected (100) => (90)"%string].
Proof. vm_compute. repeat split. Qed.

(** * More of the code *)

Open Scope string_scope.

(** ** Structural equality on its own arguments *)

(** X1: a value without undefined, null or NaN in it, whose records list
    every key once, compares equal to itself. *)
Theorem dynamicEquals_reflexive (v : JSValue) :
  comparable v = true -> dynamicEquals v v = Ret true.
Proof. apply comparable_equals_itself. Qed.

Lemma dynamicEquals_reflexive_witness :
  dynamicEquals
    (VObj [("0", VNull); ("owner", VStr "0xB0B");
           ("stake", VObj [("amount", mkBN 5); ("open", VBool true)])])
    (VObj [("0", VNull); ("owner", VStr "0xB0B");
           ("stake", VObj [("amount", mkBN 5); ("open", VBool true)])])
  = Ret true.
Proof.
  exact (dynamicEquals_reflexive
           (VObj [("0", VNull); ("owner", VStr "0xB0B");
                  ("stake", VObj [("amount", mkBN 5); ("open", VBool true)])])
           eq_refl).
Defined.

Lemma dynamicEquals_against_nullish (v nothing : JSValue) :
  isNullish nothing = true ->
  (exists e, dynamicEquals nothing v = Throw e) /\
  (exists e, dynamicEquals v nothing = Throw e).
Proof.
  intros H. destruct nothing; try discriminate H;
    destruct v; split; eexists; reflexivity.
Qed.

(** X2: with null or undefined on either side [dynamicEquals] throws,
    whatever the other value is: it never answers true or false. *)
Theorem dynamicEquals_nullish_throws (v nothing : JSValue) :
  isNullish nothing = true ->
  (exists e, dynamicEquals nothing v = Throw e) /\
  (exists e, dynamicEquals v nothing = Throw e).
Proof. apply dynamicEquals_against_nullish. Qed.

Lemma dynamicEquals_nullish_throws_witness :
  (exists e, dynamicEquals VNull VNull = Throw e) /\
  (exists e, dynamicEquals (VObj [("a", VNum 1)]) VNull = Throw e).
Proof.
  exact (conj (proj1 (dynamicEquals_nullish_throws VNull VNull eq_refl))
              (proj2 (dynamicEquals_nullish_throws (VObj [("a", VNum 1)]) VNull
                        eq_refl))).
Defined.

Lemma walk_true_inv (fieldsB entries : list (string * JSValue)) :
  walk fieldsB entries = Ret true ->
  forall key va, In (key, va) entries -> positional key = false ->
    includes (keysOf fieldsB) key = true /\
    dynamicEquals va (getOwn fieldsB key) = Ret true.
Proof.
  induction entries as [|[k0 v0] rest IH]; intros H key va Hin Hpos; [destruct Hin|].
  cbn [walk] in H.
  destruct (positional k0) eqn:Hp0.
  - destruct Hin as [Heq|Hin]; [|apply IH; assumption].
    inversion Heq; subst. rewrite Hpos in Hp0. discriminate Hp0.
  - destruct (includes (keysOf fieldsB) k0) eqn:Hinc; cbn [negb] in H;
      [|discriminate H].
    destruct (dynamicEquals v0 (getOwn fieldsB k0)) as [[|]|e] eqn:Heq0;
      try discriminate H.
    destruct Hin as [Heq|Hin]; [|apply IH; assumption].
    inversion Heq; subst. split; assumption.
Qed.

(** X3: two records that compare equal have the same number of keys, and
    every field of the first off the positional keys has its key in the
    second, with a value there that compares equal to it. *)
Theorem dynamicEquals_records_true (fieldsA fieldsB : list (string * JSValue)) :
  dynamicEquals (VObj fieldsA) (VObj fieldsB) = Ret true ->
  List.length fieldsA = List.length fieldsB /\
  forall key va, In (key, va) fieldsA -> positional key = false ->
    includes (keysOf fieldsB) key = true /\
    dynamicEquals va (getOwn fieldsB key) = Ret true.
Proof.
  rewrite dynamicEquals_records.
  destruct (Nat.eqb (List.length fieldsA) (List.length fieldsB)) eqn:Hlen;
    cbn [negb]; [|discriminate].
  intros H. split; [apply Nat.eqb_eq; exact Hlen|].
  apply walk_true_inv. exact H.
Qed.

Lemma dynamicEquals_records_true_witness :
  List.length [("0", VNum 1); ("name", VStr "x")]
    = List.length [("name", VStr "x"); ("extra", VNull)] /\
  forall key va, In (key, va) [("0", VNum 1); ("name", VStr "x")] ->
    positional key = false ->
    includes (keysOf [("name", VStr "x"); ("extra", VNull)]) key = true /\
    dynamicEquals va (getOwn [("name", VStr "x"); ("extra", VNull)] key) = Ret true.
Proof.
  exact (dynamicEquals_records_true
           [("0", VNum 1); ("name", VStr "x")]
           [("name", VStr "x"); ("extra", VNull)] eq_refl).
Defined.

(** ** Keypaths in general *)

Lemma splitDots_nonempty (s : string) : splitDots s <> [].
Proof.
  destruct s as [|c rest]; cbn [splitDots]; [discriminate|].
  destruct (Ascii.eqb c "."); [discriminate|].
  destruct (splitDots rest); discriminate.
Qed.

Lemma descend_never_nullish (keypath : string) (parts : list string)
  (value result : JSValue) :
  parts <> [] ->
  descend keypath parts value = Ret result ->
  isNullish result = false.
Proof.
  revert value. induction parts as [|part rest IH]; intros value Hne H;
    [contradiction|].
  cbn [descend] in H. unfold bind in H.
  destruct (getProp value part) as [next|e]; [|discriminate H].
  destruct (isNullish next) eqn:Hnext; [discriminate H|].
  destruct rest as [|part' rest'].
  - cbn [descend] in H. inversion H; subst. exact Hnext.
  - apply (IH next); [discriminate|exact H].
Qed.

(** X4: a keypath never resolves to undefined or null: whatever
    [resolveKeypath] returns is a value. *)
Theorem resolveKeypath_never_nullish (keypath : string) (value result : JSValue) :
  resolveKeypath keypath value = Ret result ->
  isNullish result = false.
Proof.
  unfold resolveKeypath.
  apply descend_never_nullish, splitDots_nonempty.
Qed.

Lemma resolveKeypath_never_nullish_witness :
  isNullish (VObj [("b", VNum 42)]) = false.
Proof.
  exact (resolveKeypath_never_nullish "a"
           (VObj [("a", VObj [("b", VNum 42)])]) (VObj [("b", VNum 42)]) eq_refl).
Defined.

(** X5: a keypath whose segments resolve up to a record or a bn.js
    instance in which the next segment has no value, because it names a
    field that holds undefined or null, or because it is an index, a name
    that begins with a digit, that is not a field at all, fails there with
    the error that names the keypath and that segment; the segments after
    it are not looked at. *)
Theorem resolveKeypath_first_undefined (keypath : string) (pre post : list string)
  (part : string) (value current : JSValue) (fields : list (string * JSValue)) :
  splitDots keypath = (pre ++ part :: post)%list ->
  descend keypath pre value = Ret current ->
  ownFields current = Some fields ->
  isNullish (getOwn fields part) = true ->
  includes (keysOf fields) part = true \/ startsWithDigit part = true ->
  resolveKeypath keypath value = Throw (keypathError keypath part).
Proof.
  intros Hsplit Hpre Hown Hnull _. unfold resolveKeypath. rewrite Hsplit.
  apply (descend_first_undefined keypath pre post part value current
           (getOwn fields part) Hpre); [|exact Hnull].
  destruct current; try discriminate Hown; inversion Hown; reflexivity.
Qed.

Lemma resolveKeypath_first_undefined_witness :
  resolveKeypath "a.owner.b" (VObj [("a", VObj [("owner", VNull); ("b", VNum 42)])])
    = Throw (Error "Error resolving keypath(a.owner.b) - Got undefined at .owner") /\
  resolveKeypath "a.2" (VObj [("a", VObj [("0", VNum 7); ("1", VNum 42)])])
    = Throw (Error "Error resolving keypath(a.2) - Got undefined at .2").
Proof.
  split.
  - exact (resolveKeypath_first_undefined "a.owner.b" ["a"] ["b"] "owner"
             (VObj [("a", VObj [("owner", VNull); ("b", VNum 42)])])
             (VObj [("owner", VNull); ("b", VNum 42)])
             [("owner", VNull); ("b", VNum 42)]
             eq_refl eq_refl eq_refl eq_refl (or_introl eq_refl)).
  - exact (resolveKeypath_first_undefined "a.2" ["a"] [] "2"
             (VObj [("a", VObj [("0", VNum 7); ("1", VNum 42)])])
             (VObj [("0", VNum 7); ("1", VNum 42)])
             [("0", VNum 7); ("1", VNum 42)]
             eq_refl eq_refl eq_refl eq_refl (or_intror eq_refl)).
Defined.

Lemma concat_cons_char (sep : string) (c : ascii) (part : string) (parts : list string) :
  String.concat sep (String c part :: parts)
    = String c (String.concat sep (part :: parts)).
Proof. destruct parts; reflexivity. Qed.

Lemma splitDots_join (s : string) : String.concat "." (splitDots s) = s.
Proof.
  induction s as [|c rest IH]; [reflexivity|].
  cbn [splitDots]. destruct (Ascii.eqb c ".") eqn:Hc.
  - apply Ascii.eqb_eq in Hc. subst c.
    destruct (splitDots rest) as [|part parts] eqn:Hs;
      [exfalso; exact (splitDots_nonempty rest Hs)|].
    cbn [String.concat]. cbn [String.concat] in IH. rewrite IH. reflexivity.
  - destruct (splitDots rest) as [|part parts] eqn:Hs;
      [exfalso; exact (splitDots_nonempty rest Hs)|].
    rewrite concat_cons_char, IH. reflexivity.
Qed.

Lemma splitDots_no_dot (part : string) :
  allChars (fun c => negb (Ascii.eqb c ".")) part = true ->
  splitDots part = [part] /\
  forall rest, splitDots (part ++ "." ++ rest) = part :: splitDots rest.
Proof.
  induction part as [|c part IH]; intros H.
  - split; reflexivity.
  - cbn [allChars] in H. apply andb_prop in H. destruct H as [Hc Hpart].
    apply negb_true_iff in Hc. destruct (IH Hpart) as [Hone Hmore].
    split.
    + cbn [splitDots]. rewrite Hc, Hone. reflexivity.
    + intros rest. cbn [append splitDots]. rewrite Hc.
      change (part ++ String "." rest) with (part ++ "." ++ rest).
      rewrite Hmore. reflexivity.
Qed.

(** X6: [split(".")] and joining with dots are inverse: the parts of a
    keypath joined with dots give the keypath back, and parts without a dot
    in them, at least one, are the parts of their join. *)
Theorem splitDots_round_trip (s : string) (parts : list string) :
  parts <> [] ->
  Forall (fun part => allChars (fun c => negb (Ascii.eqb c ".")) part = true) parts ->
  String.concat "." (splitDots s) = s /\
  splitDots (String.concat "." parts) = parts.
Proof.
  intros Hne Hparts. split; [apply splitDots_join|].
  induction parts as [|part rest IH]; [contradiction|].
  inversion Hparts as [|? ? Hpart Hrest]; subst.
  destruct (splitDots_no_dot part Hpart) as [Hone Hmore].
  destruct rest as [|part' rest'].
  - exact Hone.
  - change (String.concat "." (part :: part' :: rest'))
      with (part ++ "." ++ String.concat "." (part' :: rest')).
    rewrite Hmore, IH; [reflexivity|discriminate|exact Hrest].
Qed.

Lemma splitDots_round_trip_witness :
  String.concat "." (splitDots "a..b.") = "a..b." /\
  splitDots (String.concat "." ["my"; EmptyString; "field"]) = ["my"; EmptyString; "field"].
Proof.
  apply (splitDots_round_trip "a..b." ["my"; EmptyString; "field"]).
  - discriminate.
  - repeat constructor.
Defined.

(** ** One monitor, operation by operation *)

(** X7: [checkDirty()] changes neither the accepted value nor the expected
    gas, and a second check against the same chain gives the answer of the
    first and changes nothing more. *)
Theorem checkDirty_idempotent (c : Chain) (m : Monitor) :
  lastValue (snd (checkDirty c m)) = lastValue m /\
  expectedGas (snd (checkDirty c m)) = expectedGas m /\
  checkDirty c (snd (checkDirty c m)) = (fst (checkDirty c m), snd (checkDirty c m)).
Proof.
  destruct (checkDirty_sameAccepted c m) as (K & L & G).
  split; [exact L|]. split; [exact G|]. clear K L G.
  pose proof (checkDirty_cases c m) as H.
  destruct (fetchValue c m) as [value|e] eqn:Hf.
  - destruct (equals m value (lastValue m)) as [[|]|e] eqn:He.
    + rewrite H. cbn [fst snd].
      set (m1 := mkMonitor (kind m) (lastValue m) false (dirtyValue m) (expectedGas m)).
      rewrite (checkDirty_cases c m1).
      rewrite (fetchValue_kind c m m1 eq_refl), Hf.
      change (lastValue m1) with (lastValue m).
      rewrite (equals_kind m m1 value (lastValue m) eq_refl), He. reflexivity.
    + rewrite H. cbn [fst snd].
      set (m1 := mkMonitor (kind m) (lastValue m) true value (expectedGas m)).
      rewrite (checkDirty_cases c m1).
      rewrite (fetchValue_kind c m m1 eq_refl), Hf.
      change (lastValue m1) with (lastValue m).
      rewrite (equals_kind m m1 value (lastValue m) eq_refl), He. reflexivity.
    + rewrite H. cbn [fst snd]. rewrite H. reflexivity.
  - rewrite H. cbn [fst snd]. rewrite H. reflexivity.
Qed.

Lemma reset_throw_unchanged (c : Chain) (toValue : JSValue) (m : Monitor) (e : JSError) :
  fst (reset c toValue m) = Throw e -> snd (reset c toValue m) = m.
Proof.
  rewrite reset_cases.
  destruct (resetFetches m toValue); [destruct (fetchValue c m)|];
    cbn [fst snd]; intros H; try discriminate H; reflexivity.
Qed.

Ltac throw_leaf :=
  cbn [fst snd]; intros;
  first [ reflexivity
        | discriminate
        | eapply reset_throw_unchanged; eassumption ].

Lemma StateMonitor_expect_throw_unchanged (c : Chain) (value : JSValue)
  (m : Monitor) (e : JSError) :
  fst (StateMonitor_expect c value m) = Throw e ->
  snd (StateMonitor_expect c value m) = m.
Proof.
  unfold StateMonitor_expect. unfold_step. split_matches; throw_leaf.
Qed.

Lemma expect_throw_unchanged (c : Chain) (value : JSValue) (m : Monitor) (e : JSError) :
  fst (expect c value m) = Throw e -> snd (expect c value m) = m.
Proof.
  unfold expect, bindS, get, lift.
  destruct (kind m); try apply StateMonitor_expect_throw_unchanged;
    destruct (asBN value); cbn [fst snd];
    try apply StateMonitor_expect_throw_unchanged; reflexivity.
Qed.

(** X8: an operation on a monitor that throws (a failed fetch, a
    comparison that cannot be made, an expectation that does not hold)
    leaves the monitor exactly as it was. *)
Theorem perform_throw_unchanged (op : MonitorOp) (c : Chain) (m : Monitor) (e : JSError) :
  fst (perform op c m) = Throw e -> snd (perform op c m) = m.
Proof.
  destruct op; cbn [perform].
  - apply reset_throw_unchanged.
  - unfold bindS, ret. rewrite checkDirty_cases.
    destruct (fetchValue c m) as [value|e0]; [|reflexivity].
    destruct (equals m value (lastValue m)) as [[|]|e0]; cbn [fst snd];
      intros H; try discriminate H; reflexivity.
  - apply expect_throw_unchanged.
  - unfold expectOnlyConsumedGas, bindS, get. apply expect_throw_unchanged.
  - unfold expectFallsBy. unfold_step.
    destruct (asBN dropBy) as [dropBy'|e0]; [|reflexivity].
    destruct (valueSub (lastValue m) dropBy') as [target|e0]; [|reflexivity].
    apply expect_throw_unchanged.
  - unfold expectRisesBy. unfold_step.
    destruct (asBN riseBy) as [riseBy'|e0]; [|reflexivity].
    destruct (valueAdd (lastValue m) riseBy') as [target|e0]; [|reflexivity].
    apply expect_throw_unchanged.
  - unfold expectLessThan. unfold_step. split_matches; throw_leaf.
Qed.

Lemma perform_throw_unchanged_witness :
  let m := mkMonitor (ETHAddress "0xA11CE") (mkBN 100) true (mkBN 90) (Some 2) in
  snd (perform (OpExpectFallsBy (VNum 10)) (steadyChain 70 VNull 1) m) = m.
Proof.
  exact (perform_throw_unchanged (OpExpectFallsBy (VNum 10)) (steadyChain 70 VNull 1)
           (mkMonitor (ETHAddress "0xA11CE") (mkBN 100) true (mkBN 90) (Some 2))
           (AssertionError
              "eth(11CE): Error validating state (expected=88, actual=70) ")
           eq_refl).
Defined.

Lemma StateMonitor_expect_returns (c : Chain) (value : JSValue) (m m' : Monitor) :
  StateMonitor_expect c value m = (Ret tt, m') ->
  exists fetched actual,
    fetchValue c m = Ret fetched /\
    castNumber fetched = Ret actual /\
    reset c actual m = (Ret tt, m').
Proof.
  unfold StateMonitor_expect. unfold_step.
  split_matches; intros H; try discriminate H;
    eexists; eexists; split; [reflexivity|split; [eassumption|exact H]].
Qed.

Lemma balance_fetch (c : Chain) (m : Monitor) (address contract : string)
  (fetched : JSValue) :
  kind m = ETHAddress address \/ kind m = ERC20AddressBalance contract address ->
  fetchValue c m = Ret fetched ->
  exists bal, fetched = mkBN bal.
Proof.
  unfold fetchValue, bind. intros [K|K]; rewrite K.
  - destruct (getBalance c address) as [bal|e]; intros H; inversion H.
    exists bal. reflexivity.
  - destruct (balanceOf c contract address) as [bal|e]; intros H; inversion H.
    exists bal. reflexivity.
Qed.

(** X9: when [expect] returns on a wallet or a token monitor, the monitor
    has accepted the balance on the chain: [lastValue] is that balance,
    [dirty] is false, a wallet has its [expectedGas] back to null, and a
    [checkDirty()] against the same chain answers false. *)
Theorem expect_accepts_balance (c : Chain) (value : JSValue) (m m' : Monitor)
  (address contract : string) :
  kind m = ETHAddress address \/ kind m = ERC20AddressBalance contract address ->
  expect c value m = (Ret tt, m') ->
  exists bal,
    fetchValue c m = Ret (mkBN bal) /\
    m' = mkMonitor (kind m) (mkBN bal) false (VBool false) (gasAfterReset m) /\
    checkDirty c m' = (Ret false, m').
Proof.
  intros K H.
  assert (Hbase : exists value', StateMonitor_expect c value' m = (Ret tt, m')).
  { unfold expect, bindS, get, lift in H.
    destruct K as [K|K]; rewrite K in H;
      destruct (asBN value) as [value'|e]; try discriminate H;
      exists value'; exact H. }
  destruct Hbase as (value' & Hbase).
  destruct (StateMonitor_expect_returns c value' m m' Hbase)
    as (fetched & actual & Hfetch & Hcast & Hreset).
  destruct (balance_fetch c m address contract fetched K Hfetch) as (bal & ->).
  change (castNumber (mkBN bal)) with (Ret (mkBN bal)) in Hcast.
  inversion Hcast; subst actual.
  exists bal. split; [exact Hfetch|].
  assert (Hm' : m' = mkMonitor (kind m) (mkBN bal) false (VBool false) (gasAfterReset m)).
  { rewrite reset_cases, Hfetch in Hreset.
    unfold resetFetches, gasAfterReset in *.
    destruct K as [K|K]; rewrite K in *; cbn [isNullish mkBN] in Hreset;
      inversion Hreset; reflexivity. }
  split; [exact Hm'|].
  rewrite Hm'.
  set (m1 := mkMonitor (kind m) (mkBN bal) false (VBool false) (gasAfterReset m)).
  rewrite (checkDirty_cases c m1), (fetchValue_kind c m m1 eq_refl), Hfetch.
  change (lastValue m1) with (mkBN bal).
  assert (Heq : equals m1 (mkBN bal) (mkBN bal) = Ret true).
  { unfold equals, m1. cbn [kind mkBN].
    destruct K as [K|K]; rewrite K; rewrite Z.eqb_refl; reflexivity. }
  rewrite Heq. reflexivity.
Qed.

Lemma expect_accepts_balance_witness :
  exists bal,
    fetchValue (steadyChain 88 VNull 1)
      (mkMonitor (ETHAddress "0xA11CE") (mkBN 100) true (mkBN 88) (Some 2))
      = Ret (mkBN bal) /\
    mkMonitor (ETHAddress "0xA11CE") (mkBN 88) false (VBool false) None
      = mkMonitor (ETHAddress "0xA11CE") (mkBN bal) false (VBool false) None /\
    checkDirty (steadyChain 88 VNull 1)
      (mkMonitor (ETHAddress "0xA11CE") (mkBN 88) false (VBool false) None)
      = (Ret false,
         mkMonitor (ETHAddress "0xA11CE") (mkBN 88) false (VBool false) None).
Proof.
  exact (expect_accepts_balance (steadyChain 88 VNull 1) (VNum 90)
           (mkMonitor (ETHAddress "0xA11CE") (mkBN 100) true (mkBN 88) (Some 2))
           (mkMonitor (ETHAddress "0xA11CE") (mkBN 88) false (VBool false) None)
           "0xA11CE" EmptyString (or_introl eq_refl) eq_refl).
Defined.

(** X10: a contract monitor whose accessor returns a number n, a safe
    integer, passes [expect] of that number, which accepts it cast to a
    bn.js instance; the [checkDirty()] that follows then compares the number
    fetched with the bn.js instance accepted and throws the type-mismatch
    error, with the value on the chain unchanged.  The number is a safe
    integer because the cast reads [String(n)], which is the base 10 text of
    n for those only; the value the monitor held before is null, a scalar or
    a bn.js instance as [new BN] builds it, which is what such a monitor
    comes to hold. *)
Theorem number_valued_contract_monitor (c : Chain) (contract contractMethod : string)
  (params : list JSValue) (keypath : option string) (last : JSValue) (d : bool)
  (dv : JSValue) (gas : option Z) (n : Z) :
  let m := mkMonitor (ContractState contract contractMethod params keypath)
             last d dv gas in
  let m' := mkMonitor (ContractState contract contractMethod params keypath)
              (mkBN n) false (VBool false) gas in
  safeInteger n = true ->
  ownFields last = None \/ (exists x, last = mkBN x) ->
  readContract c contract contractMethod params = Ret (VNum n) ->
  expect c (VNum n) m = (Ret tt, m') /\
  checkDirty c m'
    = (Throw (Error
         "ContractState: Error asserting state - cannot compare objects of different types (number != object)"),
       m').
Proof.
  intros m m' _ _ Hread.
  assert (Hfetch : forall m0, kind m0 = kind m -> fetchValue c m0 = Ret (VNum n)).
  { intros m0 K. unfold fetchValue. rewrite K. cbn [kind m]. rewrite Hread. reflexivity. }
  split.
  - unfold expect, StateMonitor_expect. unfold_step. cbn [kind m].
    fold m. rewrite (Hfetch m eq_refl).
    unfold adjustExpectation. cbn [kind m].
    change (castNumber (VNum n)) with (Ret (mkBN n)). cbv iota beta.
    unfold mkBN. cbn [typeof]. change (String.eqb "object" "object") with true.
    cbn [negb]. unfold equals. cbn [kind m dynamicEquals typeof].
    change (String.eqb "object" "object") with true. cbn [negb].
    rewrite Z.eqb_refl. cbn [negb]. fold m.
    rewrite reset_cases. reflexivity.
  - rewrite checkDirty_cases, (Hfetch m' eq_refl). reflexivity.
Qed.

Lemma number_valued_contract_monitor_witness :
  let c := steadyChain 0 (VNum 7) 1 in
  let m := newContractState "0xC0DE" "count" [] None in
  exists m',
    expect c (VNum 7) m = (Ret tt, m') /\
    fst (checkDirty c m')
      = Throw (Error
          "ContractState: Error asserting state - cannot compare objects of different types (number != object)").
Proof.
  cbv zeta.
  destruct (number_valued_contract_monitor (steadyChain 0 (VNum 7) 1)
              "0xC0DE" "count" [] None VNull false VNull None 7
              eq_refl (or_introl eq_refl) eq_refl)
    as [Hexpect Hcheck].
  eexists. split; [exact Hexpect|]. rewrite Hcheck. reflexivity.
Defined.

(** X11: on a wallet that accepted the balance x, [expectOnlyConsumedGas]
    passes exactly when the balance on the chain is x less the gas expected
    so far (x itself while [expectedGas] is null); otherwise it throws an
    assertion error. *)
Theorem expectOnlyConsumedGas_exact (c : Chain) (address : string) (x : Z)
  (own : list (string * JSValue)) (d : bool) (dv : JSValue) (gas : option Z) (bal : Z) :
  let m := mkMonitor (ETHAddress address) (VBN x own) d dv gas in
  getBalance c address = Ret bal ->
  (fst (expectOnlyConsumedGas c m) = Ret tt <-> bal = x - gasSoFar gas) /\
  (bal <> x - gasSoFar gas ->
   exists msg, fst (expectOnlyConsumedGas c m) = Throw (AssertionError msg)).
Proof.
  intros m Hbal.
  assert (H : fst (expectOnlyConsumedGas c m) = fst (expect c (VBN x own) m))
    by reflexivity.
  rewrite H. unfold m.
  rewrite (wallet_expect c address (VBN x own) d dv gas x own bal Hbal).
  destruct (Z.eqb bal (x - gasSoFar gas)) eqn:Heq.
  - apply Z.eqb_eq in Heq. split; [split; intros _; [exact Heq|reflexivity]|].
    intros Hne. contradiction.
  - apply Z.eqb_neq in Heq. split.
    + split; [discriminate|intros Hx; contradiction].
    + intros _. eexists. reflexivity.
Qed.

Lemma expectOnlyConsumedGas_exact_witness :
  fst (expectOnlyConsumedGas (steadyChain 98 VNull 1)
         (mkMonitor (ETHAddress "0xA11CE") (mkBN 100) false (VBool false) (Some 2)))
    = Ret tt.
Proof.
  apply (proj1 (expectOnlyConsumedGas_exact (steadyChain 98 VNull 1) "0xA11CE" 100
                  (bnFields 100) false (VBool false) (Some 2) 98 eq_refl)).
  reflexivity.
Defined.

(** X12: [expectLessThan] takes its bound inclusively.  With bn.js values
    on both sides it passes when the fetched value is less than or equal to
    the bound, and what it then accepts as [lastValue] is the fetched value,
    not the bound; above the bound it throws an assertion error and changes
    nothing. *)
Theorem expectLessThan_inclusive (c : Chain) (m : Monitor) (bal v : Z)
  (ownb own : list (string * JSValue)) :
  fetchValue c m = Ret (VBN bal ownb) ->
  (bal <= v ->
   expectLessThan c (VBN v own) m =
     (Ret tt, mkMonitor (kind m) (VBN bal ownb) false (VBool false) (gasAfterReset m))) /\
  (v < bal ->
   exists msg, expectLessThan c (VBN v own) m = (Throw (AssertionError msg), m)).
Proof.
  intros Hfetch.
  assert (Hreset : reset c (VBN bal ownb) m =
            (Ret tt, mkMonitor (kind m) (VBN bal ownb) false (VBool false)
                       (gasAfterReset m))).
  { rewrite reset_cases, Hfetch. unfold resetFetches, gasAfterReset.
    destruct (kind m); reflexivity. }
  unfold expectLessThan. unfold_step. cbn [asBN isBN]. rewrite Hfetch.
  cbn [lte]. split.
  - intros Hle. apply Z.leb_le in Hle. rewrite Hle. cbn [negb]. exact Hreset.
  - intros Hlt. apply Z.leb_gt in Hlt. rewrite Hlt. cbn [negb].
    eexists. reflexivity.
Qed.

Lemma expectLessThan_inclusive_witness :
  expectLessThan (steadyChain 50 VNull 1) (mkBN 50)
    (mkMonitor (ERC20AddressBalance "0x70CE" "0xA11CE") (mkBN 70) false VNull None)
  = (Ret tt,
     mkMonitor (ERC20AddressBalance "0x70CE" "0xA11CE") (mkBN 50) false
       (VBool false) None).
Proof.
  apply (proj1 (expectLessThan_inclusive (steadyChain 50 VNull 1)
                  (mkMonitor (ERC20AddressBalance "0x70CE" "0xA11CE") (mkBN 70)
                     false VNull None)
                  50 50 (bnFields 50) (bnFields 50) eq_refl)).
  lia.
Defined.

(** X13: the gas a wallet expects adds up: two [expectGas] calls leave the
    monitor as one call with the sum does, and [expectedGas] is never null
    afterwards. *)
Theorem expectGas_adds_up (a b : Z) (m : Monitor) :
  snd (expectGas b (snd (expectGas a m))) = snd (expectGas (a + b) m) /\
  expectedGas (snd (expectGas a m)) = Some (gasSoFar (expectedGas m) + a).
Proof.
  rewrite !expectGas_effect. cbn [snd expectedGas setExpectedGas gasSoFar].
  split; [|reflexivity].
  unfold setExpectedGas. cbn [kind lastValue dirty dirtyValue].
  rewrite Z.add_assoc. reflexivity.
Qed.

(** X14: a monitor that has not accepted a value yet, its [lastValue]
    being null or undefined as a contract monitor is built and as a wallet
    built without a balance is, throws on [checkDirty()] whatever the chain
    holds: it does not report dirty, and it is left unchanged. *)
Theorem checkDirty_before_first_reset (c : Chain) (m : Monitor) :
  isNullish (lastValue m) = true ->
  exists e, checkDirty c m = (Throw e, m).
Proof.
  intros Hnull. rewrite checkDirty_cases.
  destruct (fetchValue c m) as [value|e]; [|exists e; reflexivity].
  assert (Hthrow : exists e, equals m value (lastValue m) = Throw e).
  { unfold equals. destruct (kind m).
    - destruct value; try (eexists; reflexivity).
      destruct (lastValue m); try discriminate Hnull; eexists; reflexivity.
    - destruct value; try (eexists; reflexivity).
      destruct (lastValue m); try discriminate Hnull; eexists; reflexivity.
    - exact (proj2 (dynamicEquals_against_nullish value (lastValue m) Hnull)). }
  destruct Hthrow as (e & ->). exists e. reflexivity.
Qed.

Lemma checkDirty_before_first_reset_witness :
  (exists e, checkDirty (steadyChain 100 (VStr "0xB0B") 1)
               (newContractState "0xC0DE" "owner" [] None)
             = (Throw e, newContractState "0xC0DE" "owner" [] None)) /\
  (exists e, checkDirty (steadyChain 100 VNull 1) (newETHAddress "0xA11CE" VUndefined)
             = (Throw e, newETHAddress "0xA11CE" VUndefined)).
Proof.
  exact (conj
    (checkDirty_before_first_reset (steadyChain 100 (VStr "0xB0B") 1)
       (newContractState "0xC0DE" "owner" [] None) eq_refl)
    (checkDirty_before_first_reset (steadyChain 100 VNull 1)
       (newETHAddress "0xA11CE" VUndefined) eq_refl)).
Defined.

(** ** Calls through a wallet, the other paths *)







(** X17: a call whose operation returns a result without a receipt, as a
    function that sends no transaction does, throws the type error of
    reading [gasUsed] of undefined after the operation has run: the chain is
    as the operation left it, the result is lost, and [expectedGas] is not
    changed. *)
Theorem call_without_receipt (w : World) (self : Ref) (address : string)
  (contractMethod : Operation) (params params' : list JSValue)
  (result : JSValue) (after : Chain) :
  kind (store w self) = ETHAddress address ->
  fst (DappState_checkDirty w) = Ret tt ->
  exceptions (dapp (snd (DappState_checkDirty w))) = [] ->
  withFrom address params = Ret params' ->
  contractMethod params' (chain w) = (Ret result, after) ->
  getProp result "receipt" = Ret VUndefined ->
  exists w',
    call self contractMethod params w
      = (Throw (TypeError "Cannot read properties of undefined (reading 'gasUsed')"),
         w') /\
    chain w' = after /\
    expectedGas (store w' self) = expectedGas (store w self).
Proof.
  intros Hkind Hcheck Hnone Hfrom Hop Hr.
  destruct (DappState_checkDirty_effect w) as (F & _).
  destruct (DappState_checkDirty w) as [r w1] eqn:Hpass.
  cbn [fst snd] in *. subst r.
  destruct F as (Hchain & _ & Hsame).
  destruct (Hsame self) as (_ & _ & Hgas1).
  assert (Hgas : gasForCall after result
            = Throw (TypeError "Cannot read properties of undefined (reading 'gasUsed')")).
  { unfold gasForCall, bind. rewrite Hr. reflexivity. }
  unfold call. unfold bindS at 1. unfold get at 1. rewrite Hkind.
  unfold bindS at 1. rewrite Hpass.
  unfold bindS at 1. rewrite (assertNoExceptions_empty w1 Hnone).
  unfold bindS at 1. unfold lift at 1. rewrite Hfrom.
  unfold bindS at 1. unfold settle at 1.
  unfold bindS at 1. unfold invoke at 1. rewrite Hchain, Hop.
  unfold bindS at 1. unfold get at 1.
  unfold bindS at 1. unfold lift at 1. cbn [chain]. rewrite Hgas.
  cbn [receipt TypeError truthy]. unfold bindS, ret, throw.
  eexists. split; [reflexivity|]. split; [reflexivity|]. exact Hgas1.
Qed.

Lemma call_without_receipt_witness :
  let w := oneWallet (newETHAddress "0xA11CE" (mkBN 100)) (steadyChain 100 VNull 3) [] in
  exists w',
    call 0%nat (fun _ _ => (Ret (VStr "0xB0B"), steadyChain 100 VNull 3)) [] w
      = (Throw (TypeError "Cannot read properties of undefined (reading 'gasUsed')"),
         w') /\
    chain w' = steadyChain 100 VNull 3 /\
    expectedGas (store w' 0%nat) = None.
Proof.
  exact (call_without_receipt
           (oneWallet (newETHAddress "0xA11CE" (mkBN 100)) (steadyChain 100 VNull 3) [])
           0%nat "0xA11CE" (fun _ _ => (Ret (VStr "0xB0B"), steadyChain 100 VNull 3))
           [] [VObj [("from", VStr "0xA11CE")]] (VStr "0xB0B")
           (steadyChain 100 VNull 3)
           eq_refl eq_refl eq_refl eq_refl eq_refl eq_refl).
Defined.

(** ** The aggregator, pass by pass *)

Open Scope list_scope.

(** X18: [checkDirty()] of the aggregator changes no chain, no group and
    in no monitor the class, the accepted value or the expected gas; the
    exceptions it finds are appended to those already queued, which it never
    removes. *)
Theorem checkDirty_only_appends (w : World) :
  chain (snd (DappState_checkDirty w)) = chain w /\
  all (dapp (snd (DappState_checkDirty w))) = all (dapp w) /\
  (forall l,
     kind (store (snd (DappState_checkDirty w)) l) = kind (store w l) /\
     lastValue (store (snd (DappState_checkDirty w)) l) = lastValue (store w l) /\
     expectedGas (store (snd (DappState_checkDirty w)) l) = expectedGas (store w l)) /\
  exists added,
    exceptions (dapp (snd (DappState_checkDirty w))) = exceptions (dapp w) ++ added.
Proof.
  destruct (DappState_checkDirty_effect w) as ((C & A & S) & added & App & _).
  split; [exact C|]. split; [exact A|]. split; [exact S|].
  exists added. exact App.
Qed.

(** X19: when every monitor of the groups answers false to its check,
    [checkDirty()] of the aggregator returns and queues nothing, so that an
    [assertNoExceptions()] after it passes if nothing was queued before. *)
Theorem checkDirty_clean_pass (w : World) :
  (forall key l, In (key, l) (entries (dapp w)) -> reports w l = Ret false) ->
  fst (DappState_checkDirty w) = Ret tt /\
  exceptions (dapp (snd (DappState_checkDirty w))) = exceptions (dapp w) /\
  (exceptions (dapp w) = [] ->
   fst (assertNoExceptions (snd (DappState_checkDirty w))) = Ret tt).
Proof.
  intros Hclean.
  destruct (checkDirtyGroups_clean (all (dapp w)) w Hclean)
    as (results & w' & E & T & _ & X).
  unfold DappState_checkDirty, bindS, get, lift. rewrite E, T. cbn [fst snd].
  split; [reflexivity|]. split; [exact X|].
  intros Hnone. rewrite assertNoExceptions_empty; [reflexivity|congruence].
Qed.

Lemma checkDirty_clean_pass_witness :
  let w := oneWallet (newETHAddress "0xA11CE" (mkBN 100)) (steadyChain 100 VNull 1) [] in
  fst (DappState_checkDirty w) = Ret tt /\
  exceptions (dapp (snd (DappState_checkDirty w))) = [] /\
  fst (assertNoExceptions (snd (DappState_checkDirty w))) = Ret tt.
Proof.
  cbv zeta.
  destruct (checkDirty_clean_pass
              (oneWallet (newETHAddress "0xA11CE" (mkBN 100))
                 (steadyChain 100 VNull 1) []))
    as (H1 & H2 & H3).
  - intros key l Hin. destruct Hin as [Hin|[]]. inversion Hin. reflexivity.
  - split; [exact H1|]. split; [exact H2|]. apply H3. reflexivity.
Defined.

Lemma reportDirty_first_throw (pre post : Group) (key : string) (l : Ref)
  (exc : JSError) (after : list (Outcome bool)) (w : World) :
  reportDirty (pre ++ (key, l) :: post)
    (map (fun _ => Ret false) pre ++ Throw exc :: after) w
  = (Throw (failedToCheck (chain w) (store w l) key exc), w).
Proof.
  induction pre as [|[k0 l0] pre IH].
  - cbn [app map]. rewrite reportDirty_cons. reflexivity.
  - cbn [app map]. rewrite reportDirty_cons. exact IH.
Qed.

Lemma failedToCheck_kind (c : Chain) (m m' : Monitor) (key : string) (exc : JSError) :
  kind m' = kind m -> failedToCheck c m' key exc = failedToCheck c m key exc.
Proof. intros H. unfold failedToCheck. rewrite (type_kind m m' H). reflexivity. Qed.

Lemma checkDirtyGroup_first_throw (pre post : Group) (key : string) (l : Ref)
  (exc : JSError) (w : World) :
  (forall k l', In (k, l') pre -> reports w l' = Ret false) ->
  reports w l = Throw exc ->
  fst (_checkDirty (pre ++ (key, l) :: post) w)
    = Throw (failedToCheck (chain w) (store w l) key exc).
Proof.
  intros Hclean Hthrow. unfold _checkDirty, bindS.
  destruct (settleAll_checkDirty (pre ++ (key, l) :: post) w) as (R & F & _ & _).
  destruct (settleAll (fun l0 => atRef l0 checkDirty) (pre ++ (key, l) :: post) w)
    as [rs w1].
  cbn [fst snd] in *. subst rs.
  rewrite map_app. cbn [map snd]. rewrite Hthrow.
  replace (map (fun entry => reports w (snd entry)) pre)
    with (map (fun _ : string * Ref => @Ret bool false) pre).
  - rewrite reportDirty_first_throw. cbn [fst].
    destruct F as (C & _ & S). destruct (S l) as (K & _ & _).
    rewrite C, (failedToCheck_kind (chain w) (store w l) (store w1 l) key exc K).
    reflexivity.
  - apply map_ext_in. intros [k l'] Hin. symmetry. apply (Hclean k l' Hin).
Qed.

(** X20: a monitor whose check throws, every monitor before it in its
    group and in the groups before answering false and no check failing in
    the groups after, makes [checkDirty()] of the aggregator throw the error
    "Failed to check value of", the type of the monitor, a dot, its name,
    and the stack of what was thrown: a failed check is raised, it is not
    queued as drift. *)
Theorem checkDirty_failed_check (w : World) (before after : list Group)
  (pre post : Group) (key : string) (l : Ref) (exc : JSError) :
  all (dapp w) = before ++ (pre ++ (key, l) :: post) :: after ->
  (forall k l', In (k, l') (List.concat before ++ pre) -> reports w l' = Ret false) ->
  (forall k l', In (k, l') (List.concat after) -> exists b, reports w l' = Ret b) ->
  reports w l = Throw exc ->
  fst (DappState_checkDirty w)
    = Throw (Error ("Failed to check value of " ++ type (store w l) ++ "." ++ key
                      ++ ": " ++ stack (chain w) exc)%string).
Proof.
  intros Hall Hclean _ Hthrow.
  unfold DappState_checkDirty, bindS, get, lift. rewrite Hall. clear Hall.
  assert (H : exists results w',
            checkDirtyGroups (before ++ (pre ++ (key, l) :: post) :: after) w
              = (Ret results, w') /\
            firstThrow results = Throw (failedToCheck (chain w) (store w l) key exc)).
  { revert w Hclean Hthrow. induction before as [|group before IH];
      intros w Hclean Hthrow.
    - cbn [app List.concat] in *. cbn [checkDirtyGroups].
      unfold bindS at 1. unfold settle.
      pose proof (checkDirtyGroup_first_throw pre post key l exc w Hclean Hthrow) as E1.
      destruct (_checkDirty (pre ++ (key, l) :: post) w) as [r w1].
      cbn [fst] in E1. subst r.
      destruct (checkDirtyGroups_effect after w1) as (results & w2 & added & E2 & _).
      unfold bindS. rewrite E2. unfold ret.
      exists (Throw (failedToCheck (chain w) (store w l) key exc) :: results), w2.
      split; reflexivity.
    - cbn [app checkDirtyGroups]. unfold bindS at 1. unfold settle.
      destruct (checkDirtyGroup_clean group w) as (w1 & E1 & F1 & _).
      { intros k l' Hin. apply (Hclean k l'). cbn [List.concat].
        apply in_or_app. left. apply in_or_app. left. exact Hin. }
      rewrite E1.
      destruct (IH w1) as (results & w2 & E2 & T2).
      { intros k l' Hin. rewrite (reports_frame w w1 l' F1).
        apply (Hclean k l'). cbn [List.concat]. rewrite <- app_assoc.
        apply in_or_app. right. exact Hin. }
      { rewrite (reports_frame w w1 l F1). exact Hthrow. }
      unfold bindS. rewrite E2. unfold ret.
      exists (Ret tt :: results), w2. split; [reflexivity|].
      cbn [firstThrow]. rewrite T2.
      destruct F1 as (C & _ & S). destruct (S l) as (K & _ & _).
      rewrite C, (failedToCheck_kind (chain w) (store w l) (store w1 l) key exc K).
      reflexivity. }
  destruct H as (results & w' & E & T). rewrite E, T. reflexivity.
Qed.

Lemma checkDirty_failed_check_witness :
  let down := mkChain (fun _ => Throw (Error "connection refused"))
                (fun _ _ => Ret 90) (fun _ _ _ => Ret (VStr "0xB0B")) (Ret 1)
                (stackWith sampleFrames) in
  fst (DappState_checkDirty (mkWorld (dapp threeMonitors) (store threeMonitors) down))
    = Throw (Error
        ("Failed to check value of eth-wallet.alice: "
           ++ stackOf down (Error "connection refused"))).
Proof.
  exact (checkDirty_failed_check
           (mkWorld (dapp threeMonitors) (store threeMonitors)
              (mkChain (fun _ => Throw (Error "connection refused"))
                 (fun _ _ => Ret 90) (fun _ _ _ => Ret (VStr "0xB0B")) (Ret 1)
                 (stackWith sampleFrames)))
           [] [[("token", 1%nat)]; [("owner", 2%nat)]] [] [] "alice" 0%nat
           (Error "connection refused") eq_refl
           (fun k l' (H : In (k, l') []) => match H with end)
           (fun k l' H =>
              match H with
              | or_introl E =>
                  ex_intro _ false
                    (f_equal (fun entry => reports _ (snd entry)) (eq_sym E))
              | or_intror (or_introl E) =>
                  ex_intro _ false
                    (f_equal (fun entry => reports _ (snd entry)) (eq_sym E))
              | or_intror (or_intror F) => match F with end
              end)
           eq_refl).
Defined.

(** ** The reset of the aggregator *)

Lemma reset_kind (c : Chain) (toValue : JSValue) (m : Monitor) :
  kind (snd (reset c toValue m)) = kind m.
Proof.
  rewrite reset_cases.
  destruct (resetFetches m toValue); [destruct (fetchValue c m)|]; reflexivity.
Qed.

Lemma reset_without_value (c : Chain) (m : Monitor) :
  reset c VNull m =
    match fetchValue c m with
    | Ret value =>
        (Ret tt, mkMonitor (kind m) value false (VBool false) (gasAfterReset m))
    | Throw e => (Throw e, m)
    end.
Proof.
  rewrite reset_cases. unfold resetFetches. destruct (kind m); reflexivity.
Qed.

Lemma atRef_reset (l : Ref) (w : World) :
  atRef l (fun c => reset c VNull) w =
    (resetAnswer w (EmptyString, l),
     mkWorld (dapp w)
       (update l (snd (reset (chain w) VNull (store w l))) (store w)) (chain w)).
Proof.
  unfold atRef, resetAnswer, bind. cbn [snd]. rewrite reset_without_value.
  destruct (fetchValue (chain w) (store w l)); reflexivity.
Qed.

Lemma resetAnswer_kind (w w' : World) (entry : string * Ref) :
  chain w' = chain w ->
  kind (store w' (snd entry)) = kind (store w (snd entry)) ->
  resetAnswer w' entry = resetAnswer w entry.
Proof.
  intros C K. unfold resetAnswer. rewrite C.
  rewrite (fetchValue_kind (chain w) (store w (snd entry)) (store w' (snd entry)) K).
  reflexivity.
Qed.

(** The resets of a group: the answers are those of the fetches in the
    world it starts from, no class changes, and the monitors of the group,
    like those that had accepted the chain before, have accepted it after. *)
Lemma settleAll_reset (group : Group) (w : World) :
  let w' := snd (settleAll (fun l => atRef l (fun c => reset c VNull)) group w) in
  fst (settleAll (fun l => atRef l (fun c => reset c VNull)) group w)
    = Ret (map (resetAnswer w) group) /\
  chain w' = chain w /\
  dapp w' = dapp w /\
  (forall l, kind (store w' l) = kind (store w l)) /\
  (forall l, In l (map snd group) \/ accepted w l -> accepted w' l).
Proof.
  revert w. induction group as [|[key l0] rest IH]; intros w.
  - cbn [settleAll map fst snd]. unfold ret. cbn [fst snd].
    split; [reflexivity|]. split; [reflexivity|]. split; [reflexivity|].
    split; [reflexivity|]. intros l [[]|H]. exact H.
  - cbn [settleAll]. unfold bindS, settle, ret. rewrite atRef_reset.
    set (m1 := snd (reset (chain w) VNull (store w l0))).
    set (w1 := mkWorld (dapp w) (update l0 m1 (store w)) (chain w)).
    assert (K1 : forall l, kind (store w1 l) = kind (store w l)).
    { intros l. unfold w1. cbn [store]. destruct (Nat.eq_dec l l0) as [->|Hne].
      - rewrite update_same. apply reset_kind.
      - rewrite update_other by exact Hne. reflexivity. }
    assert (A1 : forall l, l = l0 \/ accepted w l -> accepted w1 l).
    { intros l H v Hv. unfold w1 in *. cbn [store chain] in *.
      destruct (Nat.eq_dec l l0) as [->|Hne].
      - rewrite update_same in *. unfold m1 in *.
        rewrite (fetchValue_kind (chain w) (store w l0) _ (reset_kind _ _ _)) in Hv.
        rewrite reset_without_value, Hv. cbn [snd lastValue dirty].
        split; reflexivity.
      - rewrite update_other in * by exact Hne.
        destruct H as [Heq|Hacc]; [contradiction|]. apply (Hacc v Hv). }
    destruct (IH w1) as (R & C & D & K & A).
    destruct (settleAll (fun l => atRef l (fun c => reset c VNull)) rest w1)
      as [rs w2].
    cbn [fst snd] in *. rewrite R. cbn [fst snd map].
    split; [|split; [|split; [|split]]].
    + f_equal. f_equal. apply map_ext. intros entry.
      apply resetAnswer_kind; [reflexivity|apply K1].
    + rewrite C. reflexivity.
    + rewrite D. reflexivity.
    + intros l. rewrite K. apply K1.
    + intros l [[Heq|Hin]|Hacc]; apply A.
      * right. apply A1. left. symmetry. exact Heq.
      * left. exact Hin.
      * right. apply A1. right. exact Hacc.
Qed.

(** The loop over the settled resets of a group changes nothing; it
    returns when every answer is a return and throws for the first that is
    not. *)
Lemma resetFailures_effect (group : Group) (w : World) (answer : string * Ref -> Outcome unit) :
  snd (resetFailures group (map answer group) w) = w /\
  (fst (resetFailures group (map answer group) w) = Ret tt ->
   forall entry, In entry group -> answer entry = Ret tt) /\
  (forall e, fst (resetFailures group (map answer group) w) = Throw e ->
   exists key l exc,
     In (key, l) group /\ answer (key, l) = Throw exc /\
     e = failedToCheck (chain w) (store w l) key exc).
Proof.
  induction group as [|[key l] rest IH].
  - cbn. split; [reflexivity|]. split; [intros _ entry []|discriminate].
  - cbn [map resetFailures].
    destruct (answer (key, l)) as [[]|exc] eqn:Hans.
    + destruct IH as (S & R & T). split; [exact S|]. split.
      * intros H entry [<-|Hin]; [exact Hans|]. apply (R H entry Hin).
      * intros e H. destruct (T e H) as (k & l' & exc & Hin & Ha & He).
        exists k, l', exc. split; [right; exact Hin|]. split; assumption.
    + unfold bindS, get, throw. cbn [fst snd].
      split; [reflexivity|]. split; [discriminate|].
      intros e H. inversion H; subst.
      exists key, l, exc. split; [left; reflexivity|]. split; [exact Hans|reflexivity].
Qed.

(** The resets of the groups, one group after the other. *)
Lemma resetGroups_effect (groups : list Group) (w : World) :
  let r := fst (resetGroups groups w) in
  let w' := snd (resetGroups groups w) in
  chain w' = chain w /\
  dapp w' = dapp w /\
  (forall l, kind (store w' l) = kind (store w l)) /\
  (r = Ret tt ->
   (forall entry, In entry (List.concat groups) -> resetAnswer w entry = Ret tt) /\
   (forall l, In l (map snd (List.concat groups)) \/ accepted w l -> accepted w' l)) /\
  (forall e, r = Throw e ->
   exists key l exc,
     In (key, l) (List.concat groups) /\
     fetchValue (chain w) (store w l) = Throw exc /\
     e = failedToCheck (chain w) (store w l) key exc).
Proof.
  revert w. induction groups as [|group rest IH]; intros w.
  - cbn [resetGroups List.concat map]. unfold ret. cbn [fst snd].
    split; [reflexivity|]. split; [reflexivity|]. split; [reflexivity|].
    split; [|discriminate]. intros _. split.
    + intros entry [].
    + intros l [[]|H]. exact H.
  - cbn [resetGroups]. unfold bindS.
    destruct (settleAll_reset group w) as (R & C & D & K & A).
    destruct (settleAll (fun l => atRef l (fun c => reset c VNull)) group w)
      as [rs w1].
    cbn [fst snd] in *. subst rs.
    destruct (resetFailures_effect group w1 (resetAnswer w)) as (S & Rok & Rthrow).
    destruct (resetFailures group (map (resetAnswer w) group) w1) as [r1 w1'].
    cbn [fst snd] in *. subst w1'.
    destruct r1 as [[]|e1].
    + destruct (IH w1) as (C2 & D2 & K2 & Ok2 & Throw2).
      destruct (resetGroups rest w1) as [r2 w2]. cbn [fst snd] in *.
      split; [congruence|]. split; [congruence|].
      split; [intros l; rewrite K2; apply K|].
      assert (Hans : forall entry, resetAnswer w1 entry = resetAnswer w entry)
        by (intros entry; apply resetAnswer_kind; [exact C|apply K]).
      split.
      * intros Hr. destruct (Ok2 Hr) as (Hall & Hacc). split.
        -- intros entry Hin. cbn [List.concat] in Hin. apply in_app_or in Hin.
           destruct Hin as [Hin|Hin]; [apply (Rok eq_refl entry Hin)|].
           rewrite <- Hans. apply (Hall entry Hin).
        -- intros l H. apply Hacc. cbn [List.concat] in H. rewrite map_app in H.
           destruct H as [Hin|Hw].
           ++ apply in_app_or in Hin. destruct Hin as [Hin|Hin].
              ** right. apply A. left. exact Hin.
              ** left. exact Hin.
           ++ right. apply A. right. exact Hw.
      * intros e Hr. destruct (Throw2 e Hr) as (key & l & exc & Hin & Hf & He).
        exists key, l, exc. split.
        -- cbn [List.concat]. apply in_or_app. right. exact Hin.
        -- rewrite C in Hf.
           rewrite (fetchValue_kind (chain w) (store w l) (store w1 l) (K l)) in Hf.
           split; [exact Hf|].
           rewrite He, C. apply failedToCheck_kind. apply K.
    + cbn [fst snd]. split; [exact C|]. split; [exact D|]. split; [exact K|].
      split; [discriminate|].
      intros e Hr. inversion Hr; subst.
      destruct (Rthrow e eq_refl) as (key & l & exc & Hin & Ha & He).
      exists key, l, exc. split.
      * cbn [List.concat]. apply in_or_app. left. exact Hin.
      * unfold resetAnswer, bind in Ha. cbn [snd] in Ha.
        destruct (fetchValue (chain w) (store w l)) as [v|exc'] eqn:Hf;
          [discriminate Ha|].
        inversion Ha; subst. split; [reflexivity|].
        rewrite C. apply failedToCheck_kind. apply K.
Qed.

Lemma DappState_reset_cases (w : World) :
  DappState_reset w =
    match resetGroups (all (dapp w)) w with
    | (Ret _, w1) => (Ret tt, setExceptions [] w1)
    | (Throw e, w1) => (Throw e, w1)
    end.
Proof.
  unfold DappState_reset, bindS, get, modify.
  destruct (resetGroups (all (dapp w)) w) as [[[]|e] w1]; reflexivity.
Qed.

Lemma DappState_reset_returns (w w' : World) :
  DappState_reset w = (Ret tt, w') ->
  chain w' = chain w /\
  all (dapp w') = all (dapp w) /\
  exceptions (dapp w') = [] /\
  forall key l, In (key, l) (entries (dapp w)) ->
    kind (store w' l) = kind (store w l) /\
    exists v,
      fetchValue (chain w) (store w l) = Ret v /\
      lastValue (store w' l) = v /\
      dirty (store w' l) = false.
Proof.
  rewrite DappState_reset_cases.
  destruct (resetGroups_effect (all (dapp w)) w) as (C & D & K & Ok & _).
  destruct (resetGroups (all (dapp w)) w) as [[[]|e] w1]; [|discriminate].
  cbn [fst snd] in *. intros H. inversion H; subst w'. clear H.
  destruct (Ok eq_refl) as (Hans & Hacc).
  split; [exact C|]. split; [cbn; rewrite D; reflexivity|]. split; [reflexivity|].
  intros key l Hin. split; [apply K|].
  pose proof (Hans (key, l) Hin) as Ha. unfold resetAnswer, bind in Ha.
  cbn [snd] in Ha.
  destruct (fetchValue (chain w) (store w l)) as [v|exc] eqn:Hf; [|discriminate Ha].
  exists v. split; [reflexivity|].
  assert (Hl : In l (map snd (List.concat (all (dapp w)))))
    by (apply (in_map snd _ (key, l)); exact Hin).
  apply (Hacc l (or_introl Hl) v).
  rewrite C, (fetchValue_kind (chain w) (store w l) (store w1 l) (K l)). exact Hf.
Qed.

(** X21: when [reset()] of the aggregator returns, every fetch of every
    monitor of its groups has succeeded, each monitor holds the fetched value
    as [lastValue] and is not dirty, the exceptions are empty, and the chain
    and the groups are as they were. *)
Theorem DappState_reset_accepts (w w' : World) :
  DappState_reset w = (Ret tt, w') ->
  chain w' = chain w /\
  all (dapp w') = all (dapp w) /\
  exceptions (dapp w') = [] /\
  forall key l, In (key, l) (entries (dapp w)) ->
    kind (store w' l) = kind (store w l) /\
    exists v,
      fetchValue (chain w) (store w l) = Ret v /\
      lastValue (store w' l) = v /\
      dirty (store w' l) = false.
Proof. apply DappState_reset_returns. Qed.

Lemma DappState_reset_accepts_witness :
  exists w',
    DappState_reset threeMonitors = (Ret tt, w') /\
    exceptions (dapp w') = [] /\
    map (fun l => bnValue (lastValue (store w' l))) [0%nat; 1%nat] = [90; 90] /\
    lastValue (store w' 2%nat) = VStr "0xB0B".
Proof.
  exists (snd (DappState_reset threeMonitors)).
  assert (H : DappState_reset threeMonitors
              = (Ret tt, snd (DappState_reset threeMonitors))) by reflexivity.
  destruct (DappState_reset_accepts threeMonitors _ H) as (_ & _ & Hex & _).
  split; [exact H|]. split; [exact Hex|]. split; reflexivity.
Defined.

Lemma entries_same (w w' : World) :
  all (dapp w') = all (dapp w) -> entries (dapp w') = entries (dapp w).
Proof. intros H. unfold entries. rewrite H. reflexivity. Qed.

(** X22: the hooks of [contract.stateful] around a test that leaves the
    chain alone: after a [beforeEach] that returned, with every monitor's
    [equals] reflexive on the value it fetched, [afterEach] returns as
    well: its check queues nothing, its assertion passes and its reset
    succeeds. *)
Theorem hooks_pass_on_untouched_chain (w w' : World) :
  stateful_beforeEach w = (Ret tt, w') ->
  (forall key l v, In (key, l) (entries (dapp w)) ->
     fetchValue (chain w) (store w l) = Ret v ->
     equals (store w l) v v = Ret true) ->
  fst (DappState_checkDirty w') = Ret tt /\
  exceptions (dapp (snd (DappState_checkDirty w'))) = [] /\
  fst (stateful_afterEach w') = Ret tt.
Proof.
  unfold stateful_beforeEach. intros Hreset Hrefl.
  destruct (DappState_reset_returns w w' Hreset) as (C & A & X & Hacc).
  assert (Hclean : forall key l, In (key, l) (entries (dapp w')) ->
            reports w' l = Ret false).
  { intros key l Hin. rewrite (entries_same w w' A) in Hin.
    destruct (Hacc key l Hin) as (K & v & Hf & Hl & _).
    unfold reports. rewrite checkDirty_answer.
    rewrite C, (fetchValue_kind (chain w) (store w l) (store w' l) K), Hf.
    cbn [bind]. rewrite Hl.
    rewrite (equals_kind (store w l) (store w' l) v v K).
    rewrite (Hrefl key l v Hin Hf). reflexivity. }
  destruct (checkDirtyGroups_clean (all (dapp w')) w' Hclean)
    as (results & w1 & E & T & F & X1).
  assert (Hcheck : DappState_checkDirty w' = (Ret tt, w1)).
  { unfold DappState_checkDirty, bindS, get, lift. rewrite E, T. reflexivity. }
  rewrite Hcheck. cbn [fst snd].
  split; [reflexivity|]. split; [congruence|].
  unfold stateful_afterEach. unfold bindS at 1. rewrite Hcheck.
  unfold bindS at 1. rewrite assertNoExceptions_empty by congruence.
  rewrite DappState_reset_cases.
  destruct (resetGroups_effect (all (dapp w1)) w1) as (_ & _ & _ & _ & Hthrow).
  destruct (resetGroups (all (dapp w1)) w1) as [[[]|e] w2]; [reflexivity|].
  exfalso. cbn [fst] in Hthrow.
  destruct (Hthrow e eq_refl) as (key & l & exc & Hin & Hf & _).
  destruct F as (C1 & A1 & S1). destruct (S1 l) as (K1 & _ & _).
  assert (Hin' : In (key, l) (entries (dapp w))).
  { unfold entries. rewrite <- A, <- A1. exact Hin. }
  destruct (Hacc key l Hin') as (K & v & Hv & _).
  rewrite C1, C in Hf.
  rewrite (fetchValue_kind (chain w) (store w' l) (store w1 l) K1) in Hf.
  rewrite (fetchValue_kind (chain w) (store w l) (store w' l) K) in Hf.
  rewrite Hv in Hf. discriminate Hf.
Qed.

Lemma hooks_pass_on_untouched_chain_witness :
  fst (stateful_afterEach (snd (stateful_beforeEach threeMonitors))) = Ret tt.
Proof.
  refine (proj2 (proj2 (hooks_pass_on_untouched_chain threeMonitors
                          (snd (stateful_beforeEach threeMonitors)) eq_refl _))).
  intros key l v Hin Hf.
  destruct Hin as [Hin|[Hin|[Hin|[]]]]; inversion Hin; subst;
    inversion Hf; reflexivity.
Defined.

(** X23: when [reset()] of the aggregator throws, it throws for a monitor
    of its groups whose fetch failed, with the error "Failed to check value
    of", the type of that monitor, a dot, its name, and the stack of the
    failure; the exceptions queued before are still queued. *)
Theorem DappState_reset_failure (w : World) (e : JSError) :
  fst (DappState_reset w) = Throw e ->
  dapp (snd (DappState_reset w)) = dapp w /\
  exists key l exc,
    In (key, l) (entries (dapp w)) /\
    fetchValue (chain w) (store w l) = Throw exc /\
    e = Error ("Failed to check value of " ++ type (store w l) ++ "." ++ key
                 ++ ": " ++ stack (chain w) exc)%string.
Proof.
  rewrite DappState_reset_cases.
  destruct (resetGroups_effect (all (dapp w)) w) as (_ & D & _ & _ & Hthrow).
  destruct (resetGroups (all (dapp w)) w) as [[[]|e1] w1]; [discriminate|].
  cbn [fst snd] in *. intros H. inversion H; subst e1.
  split; [exact D|]. exact (Hthrow e eq_refl).
Qed.

Lemma DappState_reset_failure_witness :
  let down := mkChain (fun _ => Ret 90) (fun _ _ => Throw (Error "connection refused"))
                (fun _ _ _ => Ret (VStr "0xB0B")) (Ret 1) (stackWith sampleFrames) in
  let w := mkWorld (mkDappState [("alice", 0%nat)] [("token", 1%nat)] []
                      [Error "queued before"])
             (store threeMonitors) down in
  exceptions (dapp (snd (DappState_reset w))) = [Error "queued before"] /\
  fst (DappState_reset w)
    = Throw (Error
        ("Failed to check value of erc20-balance.token: "
           ++ stackOf down (Error "connection refused"))).
Proof.
  cbv zeta.
  destruct (DappState_reset_failure
              (mkWorld (mkDappState [("alice", 0%nat)] [("token", 1%nat)] []
                          [Error "queued before"])
                 (store threeMonitors)
                 (mkChain (fun _ => Ret 90)
                    (fun _ _ => Throw (Error "connection refused"))
                    (fun _ _ _ => Ret (VStr "0xB0B")) (Ret 1)
                    (stackWith sampleFrames)))
              (Error
                 ("Failed to check value of erc20-balance.token: Error: connection refused"
                    ++ sampleFrames))
              eq_refl) as (Hd & _).
  split; [rewrite Hd; reflexivity|reflexivity].
Defined.

(** ** The hooks *)

(** X24: with a monitor of the groups drifted, its fetched value told
    apart from its accepted value by [equals], [afterEach] of
    [contract.stateful] throws, and it throws before its reset: the chain is
    as it was and every monitor still holds the value it had accepted, so
    the drift is not accepted on the way. *)
Theorem afterEach_refuses_drift (w : World) (key : string) (l : Ref) (value : JSValue) :
  In (key, l) (entries (dapp w)) ->
  fetchValue (chain w) (store w l) = Ret value ->
  equals (store w l) value (lastValue (store w l)) = Ret false ->
  exists e w',
    stateful_afterEach w = (Throw e, w') /\
    chain w' = chain w /\
    forall l', lastValue (store w' l') = lastValue (store w l').
Proof.
  intros Hin Hfetch Heq.
  pose proof (drifted_reports_dirty w l value Hfetch Heq) as Hrep.
  destruct (DappState_checkDirty_effect w) as (F & added & App & Flag).
  specialize (Flag key l Hin Hrep).
  destruct (DappState_checkDirty w) as [r w1] eqn:Hcheck.
  cbn [fst snd] in *.
  assert (Hlast : forall l', lastValue (store w1 l') = lastValue (store w l')).
  { intros l'. destruct F as (_ & _ & S). destruct (S l') as (_ & L & _). exact L. }
  destruct r as [[]|e].
  - destruct Flag as [[e He]|Hne]; [discriminate He|].
    assert (Hex : exceptions (dapp w1) <> []).
    { unfold appended in App. rewrite App. intros Hnil.
      apply app_eq_nil in Hnil. apply Hne, Hnil. }
    destruct (assertNoExceptions_nonempty w1 Hex) as [e He].
    exists e, w1. split; [|split; [apply F|exact Hlast]].
    unfold stateful_afterEach. unfold bindS at 1. rewrite Hcheck.
    unfold bindS at 1. rewrite He. reflexivity.
  - exists e, w1. split; [|split; [apply F|exact Hlast]].
    unfold stateful_afterEach. unfold bindS at 1. rewrite Hcheck. reflexivity.
Qed.

Lemma afterEach_refuses_drift_witness :
  exists e w',
    stateful_afterEach threeMonitors = (Throw e, w') /\
    chain w' = chain threeMonitors /\
    forall l', lastValue (store w' l') = lastValue (store threeMonitors l').
Proof.
  exact (afterEach_refuses_drift threeMonitors "alice" 0%nat (mkBN 90)
           (or_introl eq_refl) eq_refl eq_refl).
Defined.

Lemma describeDapp_afterEach_cases (timeMachine : TimeMachine) (snapshotId : JSValue)
  (w : World) :
  describeDapp_afterEach timeMachine snapshotId w =
    (match fst (revertToSnapshot timeMachine snapshotId (chain w)) with
     | Ret _ => Ret tt
     | Throw e => Throw e
     end,
     mkWorld (dapp w) (store w)
       (snd (revertToSnapshot timeMachine snapshotId (chain w)))).
Proof.
  unfold describeDapp_afterEach, bindS, get, onChain, ret, arrayTruthy.
  destruct (revertToSnapshot timeMachine snapshotId (chain w)) as [[r|e] c'];
    reflexivity.
Qed.

(** X25: [afterEach] of [describeDapp] never runs the dirty check: its
    test [if (state.exceptions)] holds of every array, so it only reverts
    the chain to the snapshot.  Whatever the monitors hold, also with one of
    them drifted, it returns when the revert does, queues no exception and
    changes no monitor. *)
Theorem describeDapp_afterEach_never_checks (timeMachine : TimeMachine)
  (snapshotId : JSValue) (w : World) :
  (forall answer,
     fst (revertToSnapshot timeMachine snapshotId (chain w)) = Ret answer ->
     fst (describeDapp_afterEach timeMachine snapshotId w) = Ret tt) /\
  dapp (snd (describeDapp_afterEach timeMachine snapshotId w)) = dapp w /\
  store (snd (describeDapp_afterEach timeMachine snapshotId w)) = store w /\
  chain (snd (describeDapp_afterEach timeMachine snapshotId w))
    = snd (revertToSnapshot timeMachine snapshotId (chain w)).
Proof.
  rewrite describeDapp_afterEach_cases. cbn [fst snd dapp store chain].
  split; [|repeat split].
  intros answer H. rewrite H. reflexivity.
Qed.

Lemma describeDapp_afterEach_never_checks_witness :
  let machine := mkTimeMachine
                   (fun c => (Ret (VObj [("result", VStr "0x1")]), c))
                   (fun _ _ => (Ret (VBool true), steadyChain 100 (VStr "0xB0B") 1)) in
  reports threeMonitors 0%nat = Ret true /\
  fst (describeDapp_afterEach machine (VStr "0x1") threeMonitors) = Ret tt /\
  dapp (snd (describeDapp_afterEach machine (VStr "0x1") threeMonitors))
    = dapp threeMonitors.
Proof.
  cbv zeta.
  destruct (describeDapp_afterEach_never_checks
              (mkTimeMachine
                 (fun c => (Ret (VObj [("result", VStr "0x1")]), c))
                 (fun _ _ => (Ret (VBool true), steadyChain 100 (VStr "0xB0B") 1)))
              (VStr "0x1") threeMonitors) as (H1 & H2 & _).
  split; [reflexivity|].
  split; [apply (H1 (VBool true)); reflexivity|exact H2].
Defined.

(** ** Amounts as text *)

Open Scope string_scope.

Lemma digitText_lower (d : Decimal.uint) :
  mapString lowerChar (DecimalString.NilEmpty.string_of_uint d)
    = DecimalString.NilEmpty.string_of_uint d.
Proof.
  induction d; cbn [DecimalString.NilEmpty.string_of_uint mapString];
    try rewrite IHd; reflexivity.
Qed.

Lemma digitText_digits (d : Decimal.uint) :
  allChars isDigit (DecimalString.NilEmpty.string_of_uint d) = true.
Proof.
  induction d; cbn [DecimalString.NilEmpty.string_of_uint allChars];
    try rewrite IHd; reflexivity.
Qed.

Lemma digitText_hex (d : Decimal.uint) :
  allChars (fun c => orb (isDigit c) (isHexLetter c))
    (DecimalString.NilEmpty.string_of_uint d) = true.
Proof.
  induction d; cbn [DecimalString.NilEmpty.string_of_uint allChars];
    try rewrite IHd; reflexivity.
Qed.

Lemma trim_without_blanks (s : string) :
  allChars (fun c => negb (isBlank c)) s = true -> trim s = s.
Proof.
  intros H. unfold trim.
  assert (Hstart : trimStart s = s).
  { destruct s as [|c rest]; [reflexivity|].
    cbn [allChars] in H. apply andb_prop in H. destruct H as [Hc _].
    cbn [trimStart]. destruct (isBlank c); [discriminate Hc|reflexivity]. }
  rewrite Hstart. induction s as [|c rest IH]; [reflexivity|].
  cbn [allChars] in H. apply andb_prop in H. destruct H as [Hc Hrest].
  cbn [trimEnd]. rewrite IH.
  - destruct rest; [|reflexivity].
    destruct (isBlank c); [discriminate Hc|reflexivity].
  - exact Hrest.
  - destruct rest as [|c' rest']; [reflexivity|].
    cbn [allChars] in Hrest. apply andb_prop in Hrest. destruct Hrest as [Hc' _].
    cbn [trimStart]. destruct (isBlank c'); [discriminate Hc'|reflexivity].
Qed.

Lemma digitText_no_blanks (d : Decimal.uint) :
  allChars (fun c => negb (isBlank c)) (DecimalString.NilEmpty.string_of_uint d) = true.
Proof.
  induction d; cbn [DecimalString.NilEmpty.string_of_uint allChars];
    try rewrite IHd; reflexivity.
Qed.

(** Text made of digits is read in base 10, with its sign. *)
Lemma numberOfText_digits (d : Decimal.uint) :
  d <> Decimal.Nil ->
  numberOfText (DecimalString.NilEmpty.string_of_uint d)
    = option_map (fun n => n * 1)
        (parseDecimal (DecimalString.NilEmpty.string_of_uint d)) /\
  numberOfText (String "-" (DecimalString.NilEmpty.string_of_uint d))
    = option_map (fun n => n * -1)
        (parseDecimal (DecimalString.NilEmpty.string_of_uint d)).
Proof.
  intros Hd. unfold numberOfText.
  change (mapString lowerChar (String "-" (DecimalString.NilEmpty.string_of_uint d)))
    with (String "-" (mapString lowerChar (DecimalString.NilEmpty.string_of_uint d))).
  rewrite digitText_lower.
  rewrite (trim_without_blanks _ (digitText_no_blanks d)).
  rewrite (trim_without_blanks (String "-" (DecimalString.NilEmpty.string_of_uint d)))
    by (cbn [allChars]; rewrite digitText_no_blanks; reflexivity).
  destruct d as [|d|d|d|d|d|d|d|d|d|d]; try contradiction;
    destruct d as [|d|d|d|d|d|d|d|d|d|d];
    cbn [DecimalString.NilEmpty.string_of_uint prefix stripHexPrefix].
  all: try (split; reflexivity).
  all: cbn -[parseDecimal parseHex Z.mul]; rewrite ?digitText_digits, ?digitText_hex;
    cbn -[parseDecimal parseHex Z.mul]; split; reflexivity.
Qed.

Lemma digitText_nonnil (d : Decimal.uint) :
  d <> Decimal.Nil ->
  DecimalString.NilZero.string_of_uint d = DecimalString.NilEmpty.string_of_uint d.
Proof.
  intros Hd. destruct d; [contradiction|reflexivity..].
Qed.

Lemma parseDecimal_positive (p : positive) :
  parseDecimal (DecimalString.NilEmpty.string_of_uint (Pos.to_uint p))
    = Some (Z.pos p).
Proof.
  unfold parseDecimal.
  pose proof (DecimalPos.Unsigned.to_uint_nonnil p) as Hn.
  rewrite <- (digitText_nonnil _ Hn).
  change (DecimalString.NilZero.string_of_uint (Pos.to_uint p))
    with (DecimalString.NilZero.string_of_int (Decimal.Pos (Pos.to_uint p))).
  rewrite DecimalString.NilZero.isi.
  - cbn [option_map]. f_equal. exact (DecimalZ.of_to (Z.pos p)).
  - intros Heq. inversion Heq as [Hu]. exact (Hn Hu).
  - discriminate.
Qed.

Lemma numberOfText_of_ZToString (z : Z) : numberOfText (ZToString z) = Some z.
Proof.
  unfold ZToString. destruct z as [|p|p].
  - reflexivity.
  - pose proof (DecimalPos.Unsigned.to_uint_nonnil p) as Hn.
    change (DecimalString.NilZero.string_of_int (Z.to_int (Z.pos p)))
      with (DecimalString.NilZero.string_of_uint (Pos.to_uint p)).
    rewrite (digitText_nonnil _ Hn).
    rewrite (proj1 (numberOfText_digits (Pos.to_uint p) Hn)), parseDecimal_positive.
    cbn [option_map]. f_equal. lia.
  - pose proof (DecimalPos.Unsigned.to_uint_nonnil p) as Hn.
    change (DecimalString.NilZero.string_of_int (Z.to_int (Z.neg p)))
      with (String "-" (DecimalString.NilZero.string_of_uint (Pos.to_uint p))).
    rewrite (digitText_nonnil _ Hn).
    rewrite (proj2 (numberOfText_digits (Pos.to_uint p) Hn)), parseDecimal_positive.
    cbn [option_map]. f_equal. lia.
Qed.

Lemma asBN_of_text (z : Z) (own : list (string * JSValue)) :
  asBN (VStr (toStringJS (VBN z own))) = Ret (mkBN z).
Proof.
  change (asBN (VStr (toStringJS (VBN z own)))) with (toBN (VStr (ZToString z))).
  cbn [toBN]. rewrite numberOfText_of_ZToString. reflexivity.
Qed.

(** X26: an amount survives the way through text.  [asBN] reads the base
    10 text of a bn.js instance, as its [toString()] gives it, back as the
    instance of the same number; so [expect] of a wallet or of a token
    monitor, which casts its argument with [asBN], does with the text of an
    amount what it does with the bn.js instance, and the same with the
    amount as a number when it is a safe integer. *)
Theorem expect_amount_as_text (c : Chain) (m : Monitor) (z : Z)
  (own : list (string * JSValue)) (address contract : string) :
  kind m = ETHAddress address \/ kind m = ERC20AddressBalance contract address ->
  asBN (VStr (toStringJS (VBN z own))) = Ret (mkBN z) /\
  expect c (VStr (toStringJS (VBN z own))) m = expect c (mkBN z) m /\
  (safeInteger z = true -> expect c (VNum z) m = expect c (mkBN z) m).
Proof.
  intros Hkind. split; [apply asBN_of_text|].
  unfold expect, bindS, get, lift.
  destruct Hkind as [Hkind|Hkind]; rewrite Hkind, asBN_of_text; split; reflexivity.
Qed.

Lemma expect_amount_as_text_witness :
  let m := mkMonitor (ETHAddress "0xA11CE") (mkBN 100) false (VBool false) None in
  expect (steadyChain 90 VNull 1) (VStr "90") m = (Ret tt, mkMonitor (ETHAddress "0xA11CE") (mkBN 90) false (VBool false) None).
Proof.
  cbv zeta.
  set (m := mkMonitor (ETHAddress "0xA11CE") (mkBN 100) false (VBool false) None).
  refine (eq_trans
            (proj1 (proj2 (expect_amount_as_text (steadyChain 90 VNull 1) m 90
                             (bnFields 90) "0xA11CE" EmptyString
                             (or_introl eq_refl))))
            _).
  reflexivity.
Defined.

(** X27: on a wallet that accepted the balance x, [expectFallsBy(d)]
    passes exactly when the balance on the chain is x - d less the gas
    expected so far, and [expectRisesBy(d)] exactly when it is x + d less
    that gas: the gas of the calls made through the wallet is taken off in
    both. *)
Theorem expectFallsBy_expectRisesBy_exact (c : Chain) (address : string) (x d : Z)
  (own ownd : list (string * JSValue)) (dirt : bool) (dv : JSValue)
  (gas : option Z) (bal : Z) :
  let m := mkMonitor (ETHAddress address) (VBN x own) dirt dv gas in
  getBalance c address = Ret bal ->
  (fst (expectFallsBy c (VBN d ownd) m) = Ret tt <-> bal = x - d - gasSoFar gas) /\
  (fst (expectRisesBy c (VBN d ownd) m) = Ret tt <-> bal = x + d - gasSoFar gas).
Proof.
  intros m Hbal.
  assert (Hfalls : fst (expectFallsBy c (VBN d ownd) m)
                   = fst (expect c (mkBN (x - d)) m)) by reflexivity.
  assert (Hrises : fst (expectRisesBy c (VBN d ownd) m)
                   = fst (expect c (mkBN (x + d)) m)) by reflexivity.
  rewrite Hfalls, Hrises. unfold mkBN, m.
  rewrite !(wallet_expect c address (VBN x own) dirt dv gas _ _ bal Hbal).
  split.
  - destruct (Z.eqb bal (x - d - gasSoFar gas)) eqn:Heq.
    + apply Z.eqb_eq in Heq. split; intros _; [exact Heq|reflexivity].
    + apply Z.eqb_neq in Heq. split; [discriminate|intros Hx; contradiction].
  - destruct (Z.eqb bal (x + d - gasSoFar gas)) eqn:Heq.
    + apply Z.eqb_eq in Heq. split; intros _; [exact Heq|reflexivity].
    + apply Z.eqb_neq in Heq. split; [discriminate|intros Hx; contradiction].
Qed.

Lemma expectFallsBy_expectRisesBy_exact_witness :
  let m := mkMonitor (ETHAddress "0xA11CE") (mkBN 100) false (VBool false) (Some 2) in
  fst (expectFallsBy (steadyChain 88 VNull 1) (mkBN 10) m) = Ret tt /\
  fst (expectRisesBy (steadyChain 108 VNull 1) (mkBN 10) m) = Ret tt.
Proof.
  cbv zeta. split.
  - apply (proj1 (expectFallsBy_expectRisesBy_exact (steadyChain 88 VNull 1)
                    "0xA11CE" 100 10 (bnFields 100) (bnFields 10) false
                    (VBool false) (Some 2) 88 eq_refl)).
    reflexivity.
  - apply (proj2 (expectFallsBy_expectRisesBy_exact (steadyChain 108 VNull 1)
                    "0xA11CE" 100 10 (bnFields 100) (bnFields 10) false
                    (VBool false) (Some 2) 108 eq_refl)).
    reflexivity.
Defined.
